(** * FormFit: the per-frame pose pipeline of [src/components/CameraView.tsx]

    A shallow embedding of the pose-analysis code of the camera view
    ([analyzePose], [adaptiveSmoothLandmarks] and the body of [detectPose])
    and the properties of it that the specification states, followed by
    further properties read off the code itself.

    Conventions of the embedding.
    - A JavaScript [number] is read as a real number: [Math.abs] is [Rabs],
      [Math.max]/[Math.min] are [Rmax]/[Rmin], [Math.hypot] and [Math.atan2]
      are given their mathematical meaning.  Rounding, NaN and infinities are
      outside the model.
    - [Date.now()] is an integer number of milliseconds, hence [Z].
    - An array of landmarks is a [list]; [a[i]] is [nth_error a i], where
      [None] is JavaScript's [undefined]: a landmark is missing when the
      array stops before it.  Reading a property of [undefined] throws a
      [TypeError]: fallible code lives in [completion].
    - The refs and React state that [detectPose] mutates are an explicit
      record threaded through a state-and-exception monad, so a mutation
      made before a throw survives the [catch], as it does in the source.
    - Real numbers do not compute: sample frames are evaluated by rewriting
      with the lemmas below, not by [vm_compute].
    - What [detectPose] reads from its closure (the props and the
      [trackingScore] of the render that scheduled the loop) and from the
      outside (clock, detection result, sizes) are parameters of a frame.
    - The canvas is the list of what was painted on it.  The pose model, the
      video element and the 2D contexts are taken to be there when the guard
      of lines 275-281 holds; decoding the mask is not modelled beyond
      whether a mask is painted. *)

From Stdlib Require Import Reals Lra Lia ZArith List String Bool.
Import ListNotations.
Open Scope string_scope.
Open Scope R_scope.

(** ** Numbers *)

Definition Rltb (a b : R) : bool := if Rlt_dec a b then true else false.
Definition Rgtb (a b : R) : bool := Rltb b a.

Notation "a <? b" := (Rltb a b) : R_scope.
Notation "a >? b" := (Rgtb a b) : R_scope.

(** [Math.hypot(a, b)]. *)
Definition hypot (a b : R) : R := sqrt (a * a + b * b).

(** [Math.atan2(y, x)]: the angle of the point [(x, y)], in (-PI, PI]. *)
Definition atan2 (y x : R) : R :=
  if Rlt_dec 0 x then atan (y / x)
  else if Rlt_dec x 0 then
    (if Rle_dec 0 y then atan (y / x) + PI else atan (y / x) - PI)
  else if Rlt_dec 0 y then PI / 2
  else if Rlt_dec y 0 then - (PI / 2)
  else 0.

(** ** Landmarks and exercises *)

(** [NormalizedLandmark] of the pose model; [visibility] is optional there
    (the source reads it as [lm.visibility ?? 0]). *)
Record NormalizedLandmark : Type := mkLandmark {
  x : R;
  y : R;
  z : R;
  visibility : option R
}.

Definition Landmarks : Type := list NormalizedLandmark.

(** [enum WorkoutType] of [types.ts]. *)
Inductive WorkoutType : Type :=
| SQUAT | PUSHUP | PLANK | LUNGE | BICEP_CURL | TRICEP_EXTENSION.

(** ** Completions: a value, or a thrown [TypeError] *)

Inductive completion (A : Type) : Type :=
| Normal : A -> completion A
| Throw : completion A.
Arguments Normal {A} _.
Arguments Throw {A}.

Definition bind {A B : Type} (c : completion A) (k : A -> completion B)
  : completion B :=
  match c with
  | Normal a => k a
  | Throw => Throw
  end.

Notation "v <- c ;; k" := (bind c (fun v => k))
  (at level 61, c at next level, right associativity).

(** [o.f] for a possibly undefined [o]. *)
Definition prop {A : Type} (f : NormalizedLandmark -> A)
  (o : option NormalizedLandmark) : completion A :=
  match o with
  | Some lm => Normal (f lm)
  | None => Throw
  end.

Notation "o .[ f ]" := (prop f o) (at level 1, left associativity,
  format "o .[ f ]").

(** [v ?? 0]. *)
Definition orZero (v : option R) : R :=
  match v with
  | Some r => r
  | None => 0
  end.

(** ** Geometry utilities (lines 13-22) *)

Definition lerp (start end_ factor : R) : R := start + (end_ - start) * factor.

Definition calculateAngle (a b c : option NormalizedLandmark) : completion R :=
  cy <- c.[y] ;; by_ <- b.[y] ;; cx <- c.[x] ;; bx <- b.[x] ;;
  ay <- a.[y] ;; ax <- a.[x] ;;
  let radians := atan2 (cy - by_) (cx - bx) - atan2 (ay - by_) (ax - bx) in
  let angle := Rabs (radians * 180 / PI) in
  Normal (if angle >? 180 then 360 - angle else angle).

(** ** Biomechanical analysis: [analyzePose] (lines 191-272) *)

Module Analyzer.

(** A rule of a cascade: [Some cue] when it returned, [None] to fall through. *)
Definition Rule : Type := completion (option string).

Definition orElse (r k : Rule) : Rule :=
  c <- r ;;
  match c with
  | Some cue => Normal (Some cue)
  | None => k
  end.

Notation "r ;;; k" := (orElse r k) (at level 60, right associativity).

Definition returns (cue : string) : Rule := Normal (Some cue).
Definition fallThrough : Rule := Normal None.

Definition isVisible (lm : option NormalizedLandmark) : completion bool :=
  v <- lm.[visibility] ;; Normal (orZero v >? 0.5).

Section Rules.

Variable landmarks : Landmarks.

Definition leftShoulder := nth_error landmarks 11.
Definition rightShoulder := nth_error landmarks 12.
Definition leftElbow := nth_error landmarks 13.
Definition rightElbow := nth_error landmarks 14.
Definition leftWrist := nth_error landmarks 15.
Definition rightWrist := nth_error landmarks 16.
Definition leftHip := nth_error landmarks 23.
Definition rightHip := nth_error landmarks 24.
Definition leftKnee := nth_error landmarks 25.
Definition rightKnee := nth_error landmarks 26.
Definition leftAnkle := nth_error landmarks 27.
Definition rightAnkle := nth_error landmarks 28.
Definition leftHeel := nth_error landmarks 29.
Definition rightHeel := nth_error landmarks 30.

(** Lines 201-203. *)
Definition shoulderWidth : completion R :=
  lsx <- leftShoulder.[x] ;; rsx <- rightShoulder.[x] ;;
  Normal (Rabs (lsx - rsx)).

Definition torsoHeight : completion R :=
  lsy <- leftShoulder.[y] ;; rsy <- rightShoulder.[y] ;;
  lhy <- leftHip.[y] ;; rhy <- rightHip.[y] ;;
  Normal (Rabs ((lsy + rsy) / 2 - (lhy + rhy) / 2)).

Definition bodyScale : completion R :=
  sw <- shoulderWidth ;; th <- torsoHeight ;;
  Normal ((sw + th) / 2).

(** [case WorkoutType.SQUAT] (lines 208-215). *)
Definition kneeWidth : completion R :=
  lkx <- leftKnee.[x] ;; rkx <- rightKnee.[x] ;; Normal (Rabs (lkx - rkx)).

Definition ankleWidth : completion R :=
  lax <- leftAnkle.[x] ;; rax <- rightAnkle.[x] ;; Normal (Rabs (lax - rax)).

Definition squatRules (bodyScale : R) : Rule :=
  kneeWidth <- kneeWidth ;;
  ankleWidth <- ankleWidth ;;
  (if (ankleWidth >? bodyScale * 0.2) && (kneeWidth <? ankleWidth * 0.75)
   then returns "Push Knees Out!" else fallThrough) ;;;
  let Z_THRESHOLD := bodyScale * 0.6 in
  lkz <- leftKnee.[z] ;; laz <- leftAnkle.[z] ;;
  if lkz <? laz - Z_THRESHOLD then returns "Keep Knees Behind Toes"
  else
    rkz <- rightKnee.[z] ;; raz <- rightAnkle.[z] ;;
    if rkz <? raz - Z_THRESHOLD then returns "Keep Knees Behind Toes"
    else fallThrough.

(** [case WorkoutType.PUSHUP] (lines 216-220); [&&] reads the heel only when
    its left operand holds. *)
Definition pushupRules (bodyScale : R) : Rule :=
  let SAG_THRESHOLD := bodyScale * 0.3 in
  lhy <- leftHip.[y] ;; lsy <- leftShoulder.[y] ;;
  if lhy >? lsy + SAG_THRESHOLD then
    lhy' <- leftHip.[y] ;; heel <- leftHeel.[y] ;;
    if lhy' >? heel + SAG_THRESHOLD then returns "Lift Your Hips!"
    else fallThrough
  else fallThrough.

(** [case WorkoutType.LUNGE] (lines 221-224). *)
Definition lungeRules (stabilityScore : R) : Rule :=
  if stabilityScore >? 0.003 then returns "Balance & Control" else fallThrough.

(** [case WorkoutType.BICEP_CURL] (lines 225-240). *)
Definition leftActive : completion bool :=
  lwy <- leftWrist.[y] ;; lhy <- leftHip.[y] ;;
  if lwy <? lhy then isVisible leftWrist else Normal false.

Definition rightActive : completion bool :=
  rwy <- rightWrist.[y] ;; rhy <- rightHip.[y] ;;
  if rwy <? rhy then isVisible rightWrist else Normal false.

Definition leftElbowDrift : completion R :=
  lex <- leftElbow.[x] ;; lsx <- leftShoulder.[x] ;; Normal (Rabs (lex - lsx)).

Definition rightElbowDrift : completion R :=
  rex <- rightElbow.[x] ;; rsx <- rightShoulder.[x] ;; Normal (Rabs (rex - rsx)).

Definition leftArmRules (shoulderWidth stabilityScore : R) : Rule :=
  elbowDrift <- leftElbowDrift ;;
  if elbowDrift >? shoulderWidth * 0.9 then returns "Tuck Left Elbow"
  else
    angle <- calculateAngle leftShoulder leftElbow leftWrist ;;
    if (angle >? 160) && (stabilityScore <? 0.001) then returns "Curl up fully"
    else fallThrough.

Definition rightArmRules (shoulderWidth : R) : Rule :=
  elbowDrift <- rightElbowDrift ;;
  if elbowDrift >? shoulderWidth * 0.9 then returns "Tuck Right Elbow"
  else fallThrough.

Definition bicepCurlRules (shoulderWidth stabilityScore : R) : Rule :=
  leftActive <- leftActive ;;
  rightActive <- rightActive ;;
  (if leftActive then leftArmRules shoulderWidth stabilityScore
   else fallThrough) ;;;
  (if rightActive then rightArmRules shoulderWidth else fallThrough) ;;;
  if stabilityScore >? 0.0025 then returns "Keep Torso Still" else fallThrough.

(** [case WorkoutType.PLANK] (lines 241-251). *)
Definition plankRules (bodyScale stabilityScore : R) : Rule :=
  lhy <- leftHip.[y] ;; rhy <- rightHip.[y] ;;
  let hipY := (lhy + rhy) / 2 in
  lay <- leftAnkle.[y] ;; ray <- rightAnkle.[y] ;;
  let ankleY := (lay + ray) / 2 in
  lsy <- leftShoulder.[y] ;; rsy <- rightShoulder.[y] ;;
  let shoulderY := (lsy + rsy) / 2 in
  let SAG_THRESHOLD := bodyScale * 0.3 in
  let PIKE_THRESHOLD := bodyScale * 0.15 in
  if hipY >? ankleY + SAG_THRESHOLD then returns "Raise Hips!"
  else if hipY <? shoulderY - PIKE_THRESHOLD then returns "Lower Hips"
  else if stabilityScore >? 0.002 then returns "Hold Steady!"
  else fallThrough.

(** [case WorkoutType.TRICEP_EXTENSION] (lines 252-269). *)
Definition tricepRules (shoulderWidth stabilityScore : R) : Rule :=
  ley <- leftElbow.[y] ;; rey <- rightElbow.[y] ;;
  let isLeft := ley <? rey in
  let activeShoulder := if isLeft then leftShoulder else rightShoulder in
  let activeElbow := if isLeft then leftElbow else rightElbow in
  let activeWrist := if isLeft then leftWrist else rightWrist in
  elbowVisible <- isVisible activeElbow ;;
  wristVisible <- (if elbowVisible then isVisible activeWrist
                   else Normal false) ;;
  if negb elbowVisible || negb wristVisible then fallThrough
  else
    aey <- activeElbow.[y] ;; asy <- activeShoulder.[y] ;;
    let isOverhead := aey <? asy in
    aex <- activeElbow.[x] ;; asx <- activeShoulder.[x] ;;
    let elbowFlare := Rabs (aex - asx) in
    if negb isOverhead then returns "Raise Elbow High"
    else if elbowFlare >? shoulderWidth * 1.4 then returns "Elbow closer to ear"
    else
      angle <- calculateAngle activeShoulder activeElbow activeWrist ;;
      if stabilityScore <? 0.001 then
        if (angle >? 70) && (angle <? 140) then returns "Full Range needed"
        else if angle <? 60 then returns "Extend Up"
        else if angle >? 150 then returns "Lower Behind Head"
        else fallThrough
      else fallThrough.

Definition analyzePose (workout : WorkoutType) (stabilityScore : R)
  : completion (option string) :=
  shoulderWidth <- shoulderWidth ;;
  bodyScale <- bodyScale ;;
  if bodyScale <? 0.02 then Normal None
  else
    match workout with
    | SQUAT => squatRules bodyScale
    | PUSHUP => pushupRules bodyScale
    | LUNGE => lungeRules stabilityScore
    | BICEP_CURL => bicepCurlRules shoulderWidth stabilityScore
    | PLANK => plankRules bodyScale stabilityScore
    | TRICEP_EXTENSION => tricepRules shoulderWidth stabilityScore
    end.

End Rules.

End Analyzer.

(** ** Landmark smoothing: [adaptiveSmoothLandmarks] (lines 634-680) *)

Module Smoother.

Definition coreIndices : list nat := [11; 12; 23; 24]%nat.

Definition minAlpha : R := 0.08.
Definition maxAlpha : R := 0.92.
Definition lowerThreshold : R := 0.0005.
Definition upperThreshold : R := 0.025.

(** One turn of the [coreIndices.forEach] callback on the pair
    [(totalCoreMovement, count)]. *)
Definition coreStep (current prev : Landmarks) (acc : R * nat) (idx : nat)
  : R * nat :=
  match nth_error current idx, nth_error prev idx with
  | Some c, Some p =>
      (fst acc + hypot (x c - x p) (y c - y p), S (snd acc))
  | _, _ => acc
  end.

Definition globalVelocity (current prev : Landmarks) : R :=
  let '(totalCoreMovement, count) :=
    fold_left (coreStep current prev) coreIndices (0, O) in
  if (0 <? count)%nat then totalCoreMovement / INR count else 0.

(** The blend factor [alpha] of lines 658-671, as a function of [metric]. *)
Definition blendFactor (metric : R) : R :=
  if metric >? lowerThreshold then
    let t := Rmin 1 ((metric - lowerThreshold)
                     / (upperThreshold - lowerThreshold)) in
    let curve := 1 - (1 - t) ^ 3 in
    minAlpha + (maxAlpha - minAlpha) * curve
  else minAlpha.

Definition metricOf (globalVelocity : R) (curr p : NormalizedLandmark) : R :=
  let localVelocity := hypot (x curr - x p) (y curr - y p) in
  Rmax localVelocity (globalVelocity * 0.6).

(** The callback of [current.map]; [p] is [prev[i]]. *)
Definition smoothLandmark (globalVelocity : R) (curr : NormalizedLandmark)
  (p : option NormalizedLandmark) : completion NormalizedLandmark :=
  match p with
  | None => Throw
  | Some p =>
      let alpha := blendFactor (metricOf globalVelocity curr p) in
      Normal {| x := lerp (x p) (x curr) alpha;
                y := lerp (y p) (y curr) alpha;
                z := lerp (z p) (z curr) alpha;
                visibility := visibility curr |}
  end.

(** [Array.prototype.map] with a callback that may throw, from index [i]. *)
Fixpoint mapFrom {A B : Type} (f : A -> nat -> completion B) (i : nat)
  (l : list A) : completion (list B) :=
  match l with
  | [] => Normal []
  | a :: l' =>
      b <- f a i ;; bs <- mapFrom f (S i) l' ;; Normal (b :: bs)
  end.

Definition adaptiveSmoothLandmarks (current : Landmarks)
  (prev : option Landmarks) : completion Landmarks :=
  match prev with
  | None => Normal current
  | Some prev =>
      let globalVelocity := globalVelocity current prev in
      mapFrom (fun curr i => smoothLandmark globalVelocity curr
                               (nth_error prev i)) O current
  end.

End Smoother.

(** ** The overlay: shapes, targets and canvas operations *)

Inductive Quality : Type := GOOD | POOR | LOST.

(** The keys of [ANATOMY_PATHS] (lines 25-68). *)
Inductive PartKey : Type :=
| delt | upperArm | forearm | thigh | calf | torso | digit.

Record AnatomyPath : Type := mkPath {
  path : string;
  height : R;
  width : R
}.

Definition ANATOMY_PATHS (k : PartKey) : AnatomyPath :=
  match k with
  | delt => mkPath "M-20,-5 Q-26,10 -15,25 L15,25 Q26,10 20,-5 Z" 30 40
  | upperArm => mkPath "M-14,0 Q-24,35 -14,60 L14,60 Q24,35 14,0 Z" 60 28
  | forearm => mkPath "M-12,0 Q-16,20 -9,45 L9,45 Q16,20 12,0 Z" 45 24
  | thigh => mkPath "M-18,0 Q-28,35 -14,65 L14,65 Q28,35 18,0 Z" 65 36
  | calf => mkPath "M-14,0 Q-22,25 -9,60 L9,60 Q22,25 14,0 Z" 60 28
  | torso => mkPath "M-45,0 L45,0 L35,65 L-35,65 Z" 65 90
  | digit => mkPath "M-4,0 L4,0 L2,25 L-2,25 Z" 25 8
  end.

(** [TARGET_SEGMENTS] (lines 71-78). *)
Definition TARGET_SEGMENTS (w : WorkoutType) : list PartKey :=
  match w with
  | SQUAT => [thigh; calf; torso]
  | PUSHUP => [upperArm; torso]
  | LUNGE => [thigh; calf]
  | BICEP_CURL => [upperArm]
  | TRICEP_EXTENSION => [upperArm]
  | PLANK => [torso; upperArm; thigh]
  end.

Definition PartKey_eqb (a b : PartKey) : bool :=
  match a, b with
  | delt, delt | upperArm, upperArm | forearm, forearm | thigh, thigh
  | calf, calf | torso, torso | digit, digit => true
  | _, _ => false
  end.

(** [targets.includes(partKey)]. *)
Definition includes (targets : list PartKey) (k : PartKey) : bool :=
  existsb (PartKey_eqb k) targets.

Inductive Composite : Type := source_over | source_atop.

(** [rgba(r, g, b, a)]. *)
Record FillStyle : Type := rgba {
  red : Z; green : Z; blue : Z; alpha : R
}.

(** What the frame puts on the main canvas, in order.  [FillShape] is the
    [save / translate / rotate / scale / fill(Path2D) / restore] group of
    [drawMusclePart] and [drawTorso]; [FillArc] the circle of
    [drawJointWeld]; [DrawMask] the glow-and-fill of the body mask. *)
Inductive CanvasOp : Type :=
| ClearRect
| DrawMask (dx dy dw dh : R)
| SetComposite (c : Composite)
| FillShape (key : PartKey) (tx ty angle scaleX scaleY : R)
            (style : FillStyle)
| FillArc (cx cy radius : R) (style : FillStyle).

(** The placement of the video inside the container (lines 346-350). *)
Record Dims : Type := mkDims {
  containerWidth : R; containerHeight : R; videoWidth : R; videoHeight : R
}.

Record Viewport : Type := mkViewport {
  renderedWidth : R; renderedHeight : R; offsetX : R; offsetY : R
}.

Definition viewport (d : Dims) : Viewport :=
  let scale := Rmax (containerWidth d / videoWidth d)
                    (containerHeight d / videoHeight d) in
  let renderedWidth := videoWidth d * scale in
  let renderedHeight := videoHeight d * scale in
  {| renderedWidth := renderedWidth;
     renderedHeight := renderedHeight;
     offsetX := (renderedWidth - containerWidth d) / 2;
     offsetY := (renderedHeight - containerHeight d) / 2 |}.

Module Overlay.

Section Painter.

Variable vp : Viewport.
Variable workoutType : WorkoutType.
Variable smoothedLandmarks : Landmarks.

(** The canvas group shared by [drawMusclePart] and [drawTorso]. *)
Definition shapeBetween (key : PartKey) (sx sy ex ey : R) (style : FillStyle)
  : CanvasOp :=
  let startX := sx * renderedWidth vp - offsetX vp in
  let startY := sy * renderedHeight vp - offsetY vp in
  let endX := ex * renderedWidth vp - offsetX vp in
  let endY := ey * renderedHeight vp - offsetY vp in
  let dx := endX - startX in
  let dy := endY - startY in
  let len := hypot dx dy in
  let angle := atan2 dy dx - PI / 2 in
  let scaleY := len / height (ANATOMY_PATHS key) in
  let scaleX := scaleY * 1.5 in
  FillShape key startX startY angle scaleX scaleY style.

(** The paint of one muscle part whose two end points are defined
    (lines 439-475). *)
Definition musclePartOp (start end_ : NormalizedLandmark) (partKey : PartKey)
  : CanvasOp :=
  let avgVis :=
    (orZero (visibility start) + orZero (visibility end_)) / 2 in
  let alpha := if avgVis <? 0.3 then 0.3 else 0.6 in
  let isTarget := includes (TARGET_SEGMENTS workoutType) partKey in
  shapeBetween partKey (x start) (y start) (x end_) (y end_)
    (if isTarget then rgba 251 146 60 alpha else rgba 52 211 153 alpha).

(** [drawMusclePart] (lines 432-476): what it paints. *)
Definition drawMusclePart (startIdx endIdx : nat) (partKey : PartKey)
  : list CanvasOp :=
  match nth_error smoothedLandmarks startIdx,
        nth_error smoothedLandmarks endIdx with
  | Some start, Some end_ => [musclePartOp start end_ partKey]
  | _, _ => []
  end.

(** Lines 482-487: the two ends of the torso. *)
Definition torsoEnds : completion ((R * R) * (R * R)) :=
  s11x <- (nth_error smoothedLandmarks 11).[x] ;;
  s12x <- (nth_error smoothedLandmarks 12).[x] ;;
  s11y <- (nth_error smoothedLandmarks 11).[y] ;;
  s12y <- (nth_error smoothedLandmarks 12).[y] ;;
  s23x <- (nth_error smoothedLandmarks 23).[x] ;;
  s24x <- (nth_error smoothedLandmarks 24).[x] ;;
  s23y <- (nth_error smoothedLandmarks 23).[y] ;;
  s24y <- (nth_error smoothedLandmarks 24).[y] ;;
  Normal (((s11x + s12x) / 2, (s11y + s12y) / 2),
          ((s23x + s24x) / 2, (s23y + s24y) / 2)).

(** [drawTorso] (lines 489-514). *)
Definition drawTorso (torsoStart torsoEnd : R * R) : list CanvasOp :=
  let isTarget := includes (TARGET_SEGMENTS workoutType) torso in
  [shapeBetween torso (fst torsoStart) (snd torsoStart)
     (fst torsoEnd) (snd torsoEnd)
     (if isTarget then rgba 251 146 60 0.5 else rgba 52 211 153 0.4)].

(** [drawJointWeld] (lines 533-547). *)
Definition drawJointWeld (idx : nat) (sizeFactor : R)
  : completion (list CanvasOp) :=
  match nth_error smoothedLandmarks idx with
  | None => Normal []
  | Some lm =>
      if orZero (visibility lm) <? 0.1 then Normal []
      else
        let cx := x lm * renderedWidth vp - offsetX vp in
        let cy := y lm * renderedHeight vp - offsetY vp in
        s11x <- (nth_error smoothedLandmarks 11).[x] ;;
        s12x <- (nth_error smoothedLandmarks 12).[x] ;;
        let widthRef := Rabs (s11x - s12x) * renderedWidth vp * 0.15 in
        let radius := widthRef * sizeFactor * 1.3 in
        Normal [FillArc cx cy radius (rgba 16 185 129 0.7)]
  end.

(** The calls of lines 517-530, in order. *)
Definition muscleParts : list (nat * nat * PartKey) :=
  [ (11, 13, upperArm); (12, 14, upperArm);
    (13, 15, forearm); (14, 16, forearm);
    (23, 25, thigh); (24, 26, thigh);
    (25, 27, calf); (26, 28, calf);
    (15, 19, digit); (15, 17, digit);
    (16, 20, digit); (16, 18, digit) ]%nat.

(** The calls of lines 549-558, in order. *)
Definition jointWelds : list (nat * R) :=
  [ (11%nat, 1.0); (12%nat, 1.0); (13%nat, 1.0); (14%nat, 1.0);
    (23%nat, 1.0); (24%nat, 1.0); (25%nat, 1.0); (26%nat, 1.0);
    (15%nat, 0.8); (16%nat, 0.8) ].

End Painter.

End Overlay.

(** ** Tracking quality (lines 561-575) *)

Module Tracking.

(** One turn of the loop over [i = 11 .. 22] on [(totalVis, count)]. *)
Definition visStep (smoothedLandmarks : Landmarks) (acc : R * nat) (i : nat)
  : R * nat :=
  match nth_error smoothedLandmarks i with
  | Some lm => (fst acc + orZero (visibility lm), S (snd acc))
  | None => acc
  end.

Definition rawScore (smoothedLandmarks : Landmarks) : R :=
  let '(totalVis, count) :=
    fold_left (visStep smoothedLandmarks) (seq 11 12) (0, O) in
  if (0 <? count)%nat then totalVis / INR count else 0.

(** Lines 569-571. *)
Definition scoreOf (smoothedLandmarks : Landmarks) : completion R :=
  let currentScore := rawScore smoothedLandmarks in
  s11x <- (nth_error smoothedLandmarks 11).[x] ;;
  s12x <- (nth_error smoothedLandmarks 12).[x] ;;
  let sWidth := Rabs (s11x - s12x) in
  Normal (if sWidth <? 0.05 then currentScore * 0.5 else currentScore).

(** Lines 573-575. *)
Definition classify (currentScore : R) : Quality :=
  if currentScore >? 0.8 then GOOD
  else if currentScore >? 0.5 then POOR
  else LOST.

End Tracking.

(** ** The frame loop: [detectPose] (lines 274-632) *)

Module Pipeline.

(** The refs and React state of the component that [detectPose] reads or
    writes (lines 97-114). *)
Record State : Type := mkState {
  trackingQuality : Quality;
  trackingScore : R;
  heuristicFeedback : option string;
  trackingQualityRef : Quality;
  lastScoreUpdateRef : Z;
  lastHeuristicUpdateRef : Z;
  prevLandmarksRef : option Landmarks;
  lastValidLandmarksRef : option Landmarks;
  lastLandmarksTimeRef : Z;
  lastMaskTimeRef : Z;
  stabilityScoreRef : R
}.

Definition initialState : State :=
  mkState LOST 0 None LOST 0 0 None None 0 0 0.

Definition set_trackingQuality (v : Quality) (s : State) : State :=
  mkState v (trackingScore s) (heuristicFeedback s) (trackingQualityRef s)
    (lastScoreUpdateRef s) (lastHeuristicUpdateRef s) (prevLandmarksRef s)
    (lastValidLandmarksRef s) (lastLandmarksTimeRef s) (lastMaskTimeRef s)
    (stabilityScoreRef s).
Definition set_trackingScore (v : R) (s : State) : State :=
  mkState (trackingQuality s) v (heuristicFeedback s) (trackingQualityRef s)
    (lastScoreUpdateRef s) (lastHeuristicUpdateRef s) (prevLandmarksRef s)
    (lastValidLandmarksRef s) (lastLandmarksTimeRef s) (lastMaskTimeRef s)
    (stabilityScoreRef s).
Definition set_heuristicFeedback (v : option string) (s : State) : State :=
  mkState (trackingQuality s) (trackingScore s) v (trackingQualityRef s)
    (lastScoreUpdateRef s) (lastHeuristicUpdateRef s) (prevLandmarksRef s)
    (lastValidLandmarksRef s) (lastLandmarksTimeRef s) (lastMaskTimeRef s)
    (stabilityScoreRef s).
Definition set_trackingQualityRef (v : Quality) (s : State) : State :=
  mkState (trackingQuality s) (trackingScore s) (heuristicFeedback s) v
    (lastScoreUpdateRef s) (lastHeuristicUpdateRef s) (prevLandmarksRef s)
    (lastValidLandmarksRef s) (lastLandmarksTimeRef s) (lastMaskTimeRef s)
    (stabilityScoreRef s).
Definition set_lastScoreUpdateRef (v : Z) (s : State) : State :=
  mkState (trackingQuality s) (trackingScore s) (heuristicFeedback s)
    (trackingQualityRef s) v (lastHeuristicUpdateRef s) (prevLandmarksRef s)
    (lastValidLandmarksRef s) (lastLandmarksTimeRef s) (lastMaskTimeRef s)
    (stabilityScoreRef s).
Definition set_lastHeuristicUpdateRef (v : Z) (s : State) : State :=
  mkState (trackingQuality s) (trackingScore s) (heuristicFeedback s)
    (trackingQualityRef s) (lastScoreUpdateRef s) v (prevLandmarksRef s)
    (lastValidLandmarksRef s) (lastLandmarksTimeRef s) (lastMaskTimeRef s)
    (stabilityScoreRef s).
Definition set_prevLandmarksRef (v : option Landmarks) (s : State) : State :=
  mkState (trackingQuality s) (trackingScore s) (heuristicFeedback s)
    (trackingQualityRef s) (lastScoreUpdateRef s) (lastHeuristicUpdateRef s) v
    (lastValidLandmarksRef s) (lastLandmarksTimeRef s) (lastMaskTimeRef s)
    (stabilityScoreRef s).
Definition set_lastValidLandmarksRef (v : option Landmarks) (s : State)
  : State :=
  mkState (trackingQuality s) (trackingScore s) (heuristicFeedback s)
    (trackingQualityRef s) (lastScoreUpdateRef s) (lastHeuristicUpdateRef s)
    (prevLandmarksRef s) v (lastLandmarksTimeRef s) (lastMaskTimeRef s)
    (stabilityScoreRef s).
Definition set_lastLandmarksTimeRef (v : Z) (s : State) : State :=
  mkState (trackingQuality s) (trackingScore s) (heuristicFeedback s)
    (trackingQualityRef s) (lastScoreUpdateRef s) (lastHeuristicUpdateRef s)
    (prevLandmarksRef s) (lastValidLandmarksRef s) v (lastMaskTimeRef s)
    (stabilityScoreRef s).
Definition set_lastMaskTimeRef (v : Z) (s : State) : State :=
  mkState (trackingQuality s) (trackingScore s) (heuristicFeedback s)
    (trackingQualityRef s) (lastScoreUpdateRef s) (lastHeuristicUpdateRef s)
    (prevLandmarksRef s) (lastValidLandmarksRef s) (lastLandmarksTimeRef s) v
    (stabilityScoreRef s).
Definition set_stabilityScoreRef (v : R) (s : State) : State :=
  mkState (trackingQuality s) (trackingScore s) (heuristicFeedback s)
    (trackingQualityRef s) (lastScoreUpdateRef s) (lastHeuristicUpdateRef s)
    (prevLandmarksRef s) (lastValidLandmarksRef s) (lastLandmarksTimeRef s)
    (lastMaskTimeRef s) v.

(** What the running [detectPose] closure captured from the render that
    scheduled it: the props, and the [trackingScore] state it compares
    against on line 623. *)
Record Closure : Type := mkClosure {
  workoutType : WorkoutType;
  isActive : bool;
  seenTrackingScore : R
}.

(** What one animation frame reads from outside the component. *)
Record Input : Type := mkInput {
  ready : bool;                  (* the guard of lines 275-281, and [ctx] *)
  dims : Dims;                   (* lines 286-289 *)
  now : Z;                       (* [Date.now()], line 323 *)
  detected : option Landmarks;   (* [results.landmarks[0]], if any *)
  segmentationMask : bool;       (* [results.segmentationMasks[0]], if any *)
  heuristicNow : Z;              (* [Date.now()], line 599 *)
  currentTime : Z                (* [Date.now()], line 622 *)
}.

(** One call of [analyzePose], by its arguments. *)
Record AnalyzerCall : Type := mkCall {
  call_landmarks : Landmarks;
  call_workout : WorkoutType;
  call_stabilityScore : R
}.

(** The component state together with what is local to one frame: the two
    [let]s of lines 319-320, the canvas, and a log of the calls of
    [analyzePose]. *)
Record Frame : Type := mkFrame {
  state : State;
  currentQuality : Quality;
  currentScore : R;
  canvas : list CanvasOp;
  analyzerCalls : list AnalyzerCall
}.

(** State and exceptions: the frame survives a throw. *)
Definition M (A : Type) : Type := Frame -> completion A * Frame.

Definition ret {A : Type} (a : A) : M A := fun fr => (Normal a, fr).

Definition mbind {A B : Type} (m : M A) (k : A -> M B) : M B :=
  fun fr =>
    match m fr with
    | (Normal a, fr') => k a fr'
    | (Throw, fr') => (Throw, fr')
    end.

Notation "v <<- m ;; k" := (mbind m (fun v => k))
  (at level 61, m at next level, right associativity).
Notation "m >> k" := (mbind m (fun _ => k))
  (at level 61, right associativity).

Definition liftc {A : Type} (c : completion A) : M A := fun fr => (c, fr).

Definition getState : M State := fun fr => (Normal (state fr), fr).

Definition modify (f : State -> State) : M unit :=
  fun fr => (Normal tt,
             mkFrame (f (state fr)) (currentQuality fr) (currentScore fr)
               (canvas fr) (analyzerCalls fr)).

Definition setQuality (q : Quality) : M unit :=
  fun fr => (Normal tt,
             mkFrame (state fr) q (currentScore fr) (canvas fr)
               (analyzerCalls fr)).

Definition setScore (v : R) : M unit :=
  fun fr => (Normal tt,
             mkFrame (state fr) (currentQuality fr) v (canvas fr)
               (analyzerCalls fr)).

Definition paint (ops : list CanvasOp) : M unit :=
  fun fr => (Normal tt,
             mkFrame (state fr) (currentQuality fr) (currentScore fr)
               (canvas fr ++ ops) (analyzerCalls fr)).

Definition callAnalyzePose (landmarks : Landmarks) (workout : WorkoutType)
  (stabilityScore : R) : M (option string) :=
  fun fr => (Analyzer.analyzePose landmarks workout stabilityScore,
             mkFrame (state fr) (currentQuality fr) (currentScore fr)
               (canvas fr)
               (analyzerCalls fr ++ [mkCall landmarks workout stabilityScore])).

Fixpoint forEach {A : Type} (f : A -> M unit) (l : list A) : M unit :=
  match l with
  | [] => ret tt
  | a :: l' => f a >> forEach f l'
  end.

Section DetectPose.

Variable c : Closure.
Variable i : Input.

(** Lines 329-332. *)
Definition noteMask : M unit :=
  if segmentationMask i then modify (set_lastMaskTimeRef (now i)) else ret tt.

(** Lines 335-344: the landmarks this frame works on. *)
Definition persistLandmarks : M (option Landmarks) :=
  match detected i with
  | Some landmarks =>
      modify (set_lastValidLandmarksRef (Some landmarks)) >>
      modify (set_lastLandmarksTimeRef (now i)) >>
      ret (Some landmarks)
  | None =>
      s <<- getState ;;
      match lastValidLandmarksRef s with
      | Some lastValid =>
          if (now i - lastLandmarksTimeRef s <? 200)%Z then ret (Some lastValid)
          else ret None
      | None => ret None
      end
  end.

(** Lines 353-427: the mask, then the compositing mode of the anatomy. *)
Definition paintMask (vp : Viewport) : M unit :=
  s <<- getState ;;
  let maskDrawn :=
    if segmentationMask i then true
    else (now i - lastMaskTimeRef s <? 200)%Z in
  (if maskDrawn
   then paint [DrawMask (- offsetX vp) (- offsetY vp)
                 (renderedWidth vp) (renderedHeight vp)]
   else ret tt) >>
  paint [SetComposite (if maskDrawn then source_atop else source_over)].

(** Lines 482-558: the torso, the muscle parts, the welds. *)
Definition paintAnatomy (vp : Viewport) (smoothedLandmarks : Landmarks)
  : M unit :=
  ends <<- liftc (Overlay.torsoEnds smoothedLandmarks) ;;
  paint (Overlay.drawTorso vp (workoutType c) (fst ends) (snd ends)) >>
  forEach (fun '(startIdx, endIdx, partKey) =>
             paint (Overlay.drawMusclePart vp (workoutType c)
                      smoothedLandmarks startIdx endIdx partKey))
          Overlay.muscleParts >>
  forEach (fun '(idx, sizeFactor) =>
             ops <<- liftc (Overlay.drawJointWeld vp smoothedLandmarks
                              idx sizeFactor) ;;
             paint ops)
          Overlay.jointWelds.

(** Lines 561-575: the score is assigned on line 569, halved on line 571,
    then classified. *)
Definition updateTrackingQuality (smoothedLandmarks : Landmarks) : M unit :=
  setScore (Tracking.rawScore smoothedLandmarks) >>
  score <<- liftc (Tracking.scoreOf smoothedLandmarks) ;;
  setScore score >>
  setQuality (Tracking.classify score).

(** Lines 429-578, the body of the first [if (landmarks)]. *)
Definition trackLandmarks (vp : Viewport) (landmarks : Landmarks) : M unit :=
  s <<- getState ;;
  smoothedLandmarks <<-
    liftc (Smoother.adaptiveSmoothLandmarks landmarks (prevLandmarksRef s)) ;;
  paintAnatomy vp smoothedLandmarks >>
  updateTrackingQuality smoothedLandmarks >>
  modify (set_prevLandmarksRef (Some smoothedLandmarks)).

(** The two [{ x: ..., y: ... }] of lines 587-594. *)
Definition hipMidpoint (l : Landmarks) : completion (R * R) :=
  l23x <- (nth_error l 23).[x] ;; l24x <- (nth_error l 24).[x] ;;
  l23y <- (nth_error l 23).[y] ;; l24y <- (nth_error l 24).[y] ;;
  Normal ((l23x + l24x) / 2, (l23y + l24y) / 2).

(** Lines 586-597, inside the second [if (landmarks)]. *)
Definition updateStability (landmarks : Landmarks) : M unit :=
  s <<- getState ;;
  match prevLandmarksRef s with
  | Some prev =>
      currentHips <<- liftc (hipMidpoint landmarks) ;;
      prevHips <<- liftc (hipMidpoint prev) ;;
      let movement := hypot (fst currentHips - fst prevHips)
                            (snd currentHips - snd prevHips) in
      modify (set_stabilityScoreRef
                (stabilityScoreRef s * 0.9 + movement * 0.1))
  | None => ret tt
  end.

(** Lines 599-604. *)
Definition updateHeuristic (landmarks : Landmarks) : M unit :=
  s <<- getState ;;
  if isActive c && (heuristicNow i - lastHeuristicUpdateRef s >? 500)%Z then
    localCue <<- callAnalyzePose landmarks (workoutType c)
                   (stabilityScoreRef s) ;;
    modify (set_heuristicFeedback localCue) >>
    modify (set_lastHeuristicUpdateRef (heuristicNow i))
  else ret tt.

(** Lines 605-611. *)
Definition trackingLost : M unit :=
  s <<- getState ;;
  if (now i - lastLandmarksTimeRef s >? 200)%Z then
    setQuality LOST >> setScore 0 >> modify (set_prevLandmarksRef None)
  else ret tt.

(** Everything in the [try] block below line 344, for the landmarks that
    [persistLandmarks] chose. *)
Definition withLandmarks (landmarks : option Landmarks) : M unit :=
  let vp := viewport (dims i) in
  paintMask vp >>
  (match landmarks with
   | Some landmarks => trackLandmarks vp landmarks
   | None => ret tt
   end) >>
  paint [SetComposite source_over] >>
  match landmarks with
  | Some landmarks => updateStability landmarks >> updateHeuristic landmarks
  | None => trackingLost
  end.

(** The [try] block, lines 326-615. *)
Definition tryBlock : M unit :=
  noteMask >>
  landmarks <<- persistLandmarks ;;
  withLandmarks landmarks.

(** [a === b] on qualities. *)
Definition Quality_eqb (a b : Quality) : bool :=
  match a, b with
  | GOOD, GOOD | POOR, POOR | LOST, LOST => true
  | _, _ => false
  end.

(** Lines 622-628: publishing quality and score, throttled. *)
Definition publish (fr : Frame) : Frame :=
  let s := state fr in
  if negb (Quality_eqb (currentQuality fr) (trackingQualityRef s))
     || (Rabs (currentScore fr - seenTrackingScore c) >? 0.1)
     || (currentTime i - lastScoreUpdateRef s >? 100)%Z
  then
    mkFrame
      (set_lastScoreUpdateRef (currentTime i)
         (set_trackingScore (currentScore fr)
            (set_trackingQuality (currentQuality fr)
               (set_trackingQualityRef (currentQuality fr) s))))
      (currentQuality fr) (currentScore fr) (canvas fr) (analyzerCalls fr)
  else fr.

(** The test of line 291. *)
Definition zeroDims (d : Dims) : bool :=
  (if Req_dec_T (videoWidth d) 0 then true else false)
  || (if Req_dec_T (videoHeight d) 0 then true else false)
  || (if Req_dec_T (containerWidth d) 0 then true else false)
  || (if Req_dec_T (containerHeight d) 0 then true else false).

(** One run of [detectPose] from state [s]: the frame it leaves.  The
    [catch] of line 617 only logs, so the frame reached at a throw is the
    frame published. *)
Definition detectPose (s : State) : Frame :=
  if negb (ready i) || zeroDims (dims i) then mkFrame s LOST 0 [] []
  else publish (snd (tryBlock (mkFrame s LOST 0 [ClearRect] []))).

End DetectPose.

End Pipeline.

(** ** What the render shows (lines 691-692, 762, 786-803) *)

Module Presentation.

(** [!!s] for a [string | null]: the empty string is falsy. *)
Definition truthy (s : option string) : bool :=
  match s with
  | Some EmptyString => false
  | Some (String _ _) => true
  | None => false
  end.

(** [feedback || heuristicFeedback] (line 691). *)
Definition activeFeedback (feedback heuristicFeedback : option string)
  : option string :=
  if truthy feedback then feedback else heuristicFeedback.

(** [!feedback && !!heuristicFeedback] (line 692). *)
Definition isHeuristic (feedback heuristicFeedback : option string) : bool :=
  negb (truthy feedback) && truthy heuristicFeedback.

(** The banner of lines 786-803: its heading and its text, when it is
    rendered at all. *)
Definition banner (feedback heuristicFeedback : option string)
  : option (string * string) :=
  match activeFeedback feedback heuristicFeedback with
  | Some text =>
      if truthy (Some text) then
        Some (if isHeuristic feedback heuristicFeedback
              then "Form Correction" else "Coach Gemini",
              text)
      else None
  | None => None
  end.

(** The offset of the score ring (line 762). *)
Definition strokeDashoffset (trackingScore : R) : R :=
  125.6 - trackingScore * 125.6.

End Presentation.

(** * The vocabulary of the statements

    Predicates and functions the theorems are stated with, the formulas in
    the wording of the specification, and sample frames. *)

(** ** Geometry of a frame *)

(** The body scale of lines 201-203 on landmarks that are there. *)
Definition bodyScaleOf (ls rs lh rh : NormalizedLandmark) : R :=
  (Rabs (x ls - x rs) + Rabs ((y ls + y rs) / 2 - (y lh + y rh) / 2)) / 2.

(** The conditions under which lines 230 and 236 return an elbow cue. *)
Definition tuckLeft (ls rs le lw lh : NormalizedLandmark) : Prop :=
  y lw < y lh /\ orZero (visibility lw) > 0.5
  /\ Rabs (x le - x ls) > Rabs (x ls - x rs) * 0.9.

Definition tuckRight (rs ls re rw rh : NormalizedLandmark) : Prop :=
  y rw < y rh /\ orZero (visibility rw) > 0.5
  /\ Rabs (x re - x rs) > Rabs (x ls - x rs) * 0.9.

(** Some per-arm elbow rule fires on the frame. *)
Definition elbowRuleFires (landmarks : Landmarks) : Prop :=
  exists ls rs le re lw rw lh rh,
    nth_error landmarks 11 = Some ls /\ nth_error landmarks 12 = Some rs /\
    nth_error landmarks 13 = Some le /\ nth_error landmarks 14 = Some re /\
    nth_error landmarks 15 = Some lw /\ nth_error landmarks 16 = Some rw /\
    nth_error landmarks 23 = Some lh /\ nth_error landmarks 24 = Some rh /\
    (tuckLeft ls rs le lw lh \/ tuckRight rs ls re rw rh).

(** A pose frame of the data model: exactly 33 landmarks. *)
Definition fullPose (l : Landmarks) : Prop := List.length l = 33%nat.

Definition fullInput (i : Pipeline.Input) : Prop :=
  forall l, Pipeline.detected i = Some l -> fullPose l.

Definition fullState (s : Pipeline.State) : Prop :=
  forall l, Pipeline.lastValidLandmarksRef s = Some l -> fullPose l.

(** [v] lies between [a] and [b], whichever is the larger. *)
Definition between (a v b : R) : Prop := Rmin a b <= v <= Rmax a b.

(** ** The specification's formulas, in its own words *)

(** The blend curve: a clamped ratio through a cubic ease-out. *)
Definition clamp (v lo hi : R) : R := Rmax lo (Rmin hi v).

Definition blendFactor_spec (metric : R) : R :=
  let t := clamp ((metric - 0.0005) / (0.025 - 0.0005)) 0 1 in
  Smoother.minAlpha
  + (Smoother.maxAlpha - Smoother.minAlpha) * (1 - (1 - t) ^ 3).

(** The stability update: the distance between this frame's smoothed hip
    midpoint and the previous frame's, and no update without a previous
    set. *)
Definition claimedStability (s : Pipeline.State) (landmarks : Landmarks)
  : completion R :=
  match Pipeline.prevLandmarksRef s with
  | None => Normal (Pipeline.stabilityScoreRef s)
  | Some previous =>
      smoothed <-
        Smoother.adaptiveSmoothLandmarks landmarks (Some previous) ;;
      currentHips <- Pipeline.hipMidpoint smoothed ;;
      previousHips <- Pipeline.hipMidpoint previous ;;
      let movement := hypot (fst currentHips - fst previousHips)
                            (snd currentHips - snd previousHips) in
      Normal (Pipeline.stabilityScoreRef s * 0.9 + movement * 0.1)
  end.

(** ** Frames *)

Section FrameVocabulary.

Import Pipeline.

(** The frame after painting [ops]. *)
Definition painted (ops : list CanvasOp) (fr : Frame) : Frame :=
  mkFrame (state fr) (currentQuality fr) (currentScore fr)
    (canvas fr ++ ops) (analyzerCalls fr).

(** [P] survives [m], whether [m] returns or throws. *)
Definition stable {A : Type} (P : Frame -> Prop) (m : M A) : Prop :=
  forall fr, P fr -> P (snd (m fr)).

(** The weld of landmark [idx], once the two shoulders are known to be
    there. *)
Definition weldOps (vp : Viewport) (smoothedLandmarks : Landmarks)
  (s11x s12x : R) (weld : nat * R) : list CanvasOp :=
  let '(idx, sizeFactor) := weld in
  match nth_error smoothedLandmarks idx with
  | None => []
  | Some lm =>
      if orZero (visibility lm) <? 0.1 then []
      else
        [FillArc (x lm * renderedWidth vp - offsetX vp)
                 (y lm * renderedHeight vp - offsetY vp)
                 (Rabs (s11x - s12x) * renderedWidth vp * 0.15
                  * sizeFactor * 1.3)
                 (rgba 16 185 129 0.7)]
  end.

Definition partOps (c : Closure) (vp : Viewport) (smoothedLandmarks : Landmarks)
  (part : nat * nat * PartKey) : list CanvasOp :=
  let '(startIdx, endIdx, partKey) := part in
  Overlay.drawMusclePart vp (workoutType c) smoothedLandmarks
    startIdx endIdx partKey.

(** Everything lines 482-558 paint when the torso's four landmarks are
    there. *)
Definition anatomyOps (c : Closure) (vp : Viewport)
  (smoothedLandmarks : Landmarks) (s11 s12 s23 s24 : NormalizedLandmark)
  : list CanvasOp :=
  Overlay.drawTorso vp (workoutType c)
    ((x s11 + x s12) / 2, (y s11 + y s12) / 2)
    ((x s23 + x s24) / 2, (y s23 + y s24) / 2)
  ++ flat_map (partOps c vp smoothedLandmarks) Overlay.muscleParts
  ++ flat_map (weldOps vp smoothedLandmarks (x s11) (x s12))
       Overlay.jointWelds.

(** The landmarks a frame works on (lines 335-344), as a function of the
    state it starts from. *)
Definition frameLandmarks (i : Input) (s : State) : option Landmarks :=
  match detected i with
  | Some landmarks => Some landmarks
  | None =>
      match lastValidLandmarksRef s with
      | Some lastValid =>
          if (now i - lastLandmarksTimeRef s <? 200)%Z then Some lastValid
          else None
      | None => None
      end
  end.

(** The state once lines 329-344 have run. *)
Definition persistedState (i : Input) (s : State) : State :=
  let s1 := if segmentationMask i then set_lastMaskTimeRef (now i) s else s in
  match detected i with
  | Some landmarks =>
      set_lastLandmarksTimeRef (now i)
        (set_lastValidLandmarksRef (Some landmarks) s1)
  | None => s1
  end.

(** What [paintMask] puts on the canvas. *)
Definition maskOps (i : Input) (s : State) : list CanvasOp :=
  let vp := viewport (dims i) in
  let maskDrawn :=
    if segmentationMask i then true
    else (now i - lastMaskTimeRef s <? 200)%Z in
  (if maskDrawn
   then [DrawMask (- offsetX vp) (- offsetY vp)
           (renderedWidth vp) (renderedHeight vp)]
   else [])
  ++ [SetComposite (if maskDrawn then source_atop else source_over)].

(** The cue, its timestamp and the analyzer are as state [s] had them. *)
Definition cueUntouched (s : State) (fr : Frame) : Prop :=
  heuristicFeedback (state fr) = heuristicFeedback s /\
  lastHeuristicUpdateRef (state fr) = lastHeuristicUpdateRef s /\
  analyzerCalls fr = [].

(** Either that, or the analyzer ran once, past the window, and the
    timestamp is this frame's; the landmarks kept for the grace window are
    a full pose throughout. *)
Definition evaluatedOnce (i : Input) (s : State) (fr : Frame) : Prop :=
  (forall l, lastValidLandmarksRef (state fr) = Some l -> fullPose l) /\
  ((analyzerCalls fr = [] /\
    lastHeuristicUpdateRef (state fr) = lastHeuristicUpdateRef s) \/
   (analyzerCalls fr <> [] /\
    (heuristicNow i - lastHeuristicUpdateRef s > 500)%Z /\
    lastHeuristicUpdateRef (state fr) = heuristicNow i)).

(** Every call of the analyzer in the frame is on [landmarks]. *)
Definition analyzedOnly (landmarks : Landmarks) (fr : Frame) : Prop :=
  forall call, In call (analyzerCalls fr) -> call_landmarks call = landmarks.

(** The quality of the frame is the class of its score. *)
Definition classified (fr : Frame) : Prop :=
  currentQuality fr = Tracking.classify (currentScore fr).

End FrameVocabulary.

(** The times at which [analyzePose] is called along a run of frames, each
    frame run by the [detectPose] closure current at that time (line 631
    schedules the next one). *)
Fixpoint evaluationTimes (frames : list (Pipeline.Closure * Pipeline.Input))
  (s : Pipeline.State) : list Z :=
  match frames with
  | [] => []
  | (c, i) :: frames' =>
      let fr := Pipeline.detectPose c i s in
      (match Pipeline.analyzerCalls fr with
       | [] => []
       | _ :: _ => [Pipeline.heuristicNow i]
       end) ++ evaluationTimes frames' (Pipeline.state fr)
  end.

(** Each time is more than 500 ms after the one before it, the first one
    after [last]. *)
Fixpoint spaced (last : Z) (ts : list Z) : Prop :=
  match ts with
  | [] => True
  | t :: ts' => (t - last > 500)%Z /\ spaced t ts'
  end.

(** ** Sample poses, states and frames *)

(** A landmark at [(px, py)], depth 0, visibility 0.9, and a 33-point pose
    from a function of the landmark index. *)
Definition lmAt (px py : R) : NormalizedLandmark :=
  mkLandmark px py 0 (Some 0.9).

Definition poseOf (f : nat -> NormalizedLandmark) : Landmarks :=
  map f (seq 0 33).

Definition stillPose : Landmarks := poseOf (fun _ => lmAt 0.5 0.5).

(** Standing, knees caving in. *)
Definition kneesInPose (i : nat) : NormalizedLandmark :=
  match i with
  | 11%nat => lmAt 0.4 0.3 | 12%nat => lmAt 0.6 0.3
  | 23%nat => lmAt 0.45 0.6 | 24%nat => lmAt 0.55 0.6
  | 25%nat => lmAt 0.48 0.75 | 26%nat => lmAt 0.52 0.75
  | 27%nat => lmAt 0.4 0.9 | 28%nat => lmAt 0.6 0.9
  | _ => lmAt 0.5 0.5
  end.

(** Arms hanging, wrists below the hips. *)
Definition armsDownPose (i : nat) : NormalizedLandmark :=
  match i with
  | 11%nat => lmAt 0.4 0.3 | 12%nat => lmAt 0.6 0.3
  | 13%nat => lmAt 0.38 0.45 | 14%nat => lmAt 0.62 0.45
  | 15%nat => lmAt 0.38 0.7 | 16%nat => lmAt 0.62 0.7
  | 23%nat => lmAt 0.45 0.6 | 24%nat => lmAt 0.55 0.6
  | _ => lmAt 0.5 0.5
  end.

(** Curling with the left elbow flared out. *)
Definition elbowOutPose (i : nat) : NormalizedLandmark :=
  match i with
  | 11%nat => lmAt 0.4 0.3 | 12%nat => lmAt 0.6 0.3
  | 13%nat => lmAt 0.15 0.45 | 14%nat => lmAt 0.62 0.45
  | 15%nat => lmAt 0.3 0.4 | 16%nat => lmAt 0.62 0.7
  | 23%nat => lmAt 0.45 0.6 | 24%nat => lmAt 0.55 0.6
  | _ => lmAt 0.5 0.5
  end.

(** The still pose with both hips moved 0.1 to the right. *)
Definition hipsMoved (i : nat) : NormalizedLandmark :=
  match i with
  | 23%nat | 24%nat => lmAt 0.6 0.5
  | _ => lmAt 0.5 0.5
  end.

Definition movedPose : Landmarks := poseOf hipsMoved.

(** A pose cut after landmark 23: the right hip and everything below it are
    missing; shoulders, elbows, wrists and fingers are there. *)
Definition hiplessPose : Landmarks := firstn 24 (poseOf armsDownPose).

(** A pose cut after the right hip (24): the torso is there, the knees and
    everything below them are missing. *)
Definition kneelessPose : Landmarks := firstn 25 (poseOf armsDownPose).

(** A 640 x 480 video in a container of the same size; a frame at time [t]
    without a mask, its three clock readings equal. *)
Definition sampleDims : Dims := mkDims 640 480 640 480.

Definition frameAt (t : Z) (detected : option Landmarks) : Pipeline.Input :=
  Pipeline.mkInput true sampleDims t detected false t t.

(** Squats, session idle; squats, session active. *)
Definition sampleClosure : Pipeline.Closure :=
  Pipeline.mkClosure SQUAT false 0.

Definition activeClosure : Pipeline.Closure :=
  Pipeline.mkClosure SQUAT true 0.

(** A subject tracked until time 1000. *)
Definition trackedState : Pipeline.State :=
  Pipeline.mkState GOOD 0.9 None GOOD 1000 1000 (Some stillPose)
    (Some stillPose) 1000 0 0.

(** Tracking was lost: no retained set, the score still at 0.01. *)
Definition lostState : Pipeline.State :=
  Pipeline.mkState LOST 0 None LOST 1500 1000 None (Some stillPose) 1000 0
    0.01.

(** ** The vocabulary of the further properties *)

(** ** The cues of the analyzer *)

(** The strings [analyzePose] returns under each [case] of its switch
    (lines 208-269). *)
Definition cuesOf (w : WorkoutType) : list string :=
  match w with
  | SQUAT => ["Push Knees Out!"; "Keep Knees Behind Toes"]
  | PUSHUP => ["Lift Your Hips!"]
  | LUNGE => ["Balance & Control"]
  | BICEP_CURL =>
      ["Tuck Left Elbow"; "Curl up fully"; "Tuck Right Elbow";
       "Keep Torso Still"]
  | PLANK => ["Raise Hips!"; "Lower Hips"; "Hold Steady!"]
  | TRICEP_EXTENSION =>
      ["Raise Elbow High"; "Elbow closer to ear"; "Full Range needed";
       "Extend Up"; "Lower Behind Head"]
  end.

(** The cues that ask the subject to hold still, and the cues about the
    range of a movement. *)
Definition steadinessCues : list string :=
  ["Balance & Control"; "Keep Torso Still"; "Hold Steady!"].

Definition rangeCues : list string :=
  ["Curl up fully"; "Full Range needed"; "Extend Up"; "Lower Behind Head"].

(** The landmark moved by [(dx, dy, dz)], as seen by the same camera. *)
Definition translate (dx dy dz : R) (lm : NormalizedLandmark)
  : NormalizedLandmark :=
  mkLandmark (x lm + dx) (y lm + dy) (z lm + dz) (visibility lm).

(** The frame's score and the published score are fractions. *)
Definition fractions (fr : Pipeline.Frame) : Prop :=
  0 <= Pipeline.currentScore fr <= 1 /\
  0 <= Pipeline.trackingScore (Pipeline.state fr) <= 1.

(** What the view was last told: the quality in the ref and in the state,
    the score, and the time of the update. *)
Definition publishedAs (qRef q : Quality) (score : R) (t : Z)
  (fr : Pipeline.Frame) : Prop :=
  Pipeline.trackingQualityRef (Pipeline.state fr) = qRef /\
  Pipeline.trackingQuality (Pipeline.state fr) = q /\
  Pipeline.trackingScore (Pipeline.state fr) = score /\
  Pipeline.lastScoreUpdateRef (Pipeline.state fr) = t.

(** The stability score, as kept and as handed to the analyzer, is not
    negative. *)
Definition stabilityNonneg (fr : Pipeline.Frame) : Prop :=
  0 <= Pipeline.stabilityScoreRef (Pipeline.state fr) /\
  Forall (fun call => 0 <= Pipeline.call_stabilityScore call)
    (Pipeline.analyzerCalls fr).

(** What the anatomy painting may put on the canvas: a muscle shape, in
    orange when its part is a target of the exercise and in green when it is
    not, with an opacity from 0.3 to 0.6; a weld in the weld's colour; and
    the return to [source-over]. *)
Definition anatomyOp (workout : WorkoutType) (op : CanvasOp) : Prop :=
  match op with
  | FillShape key _ _ _ _ _ style =>
      (red style, green style, blue style)
      = (if includes (TARGET_SEGMENTS workout) key
         then (251, 146, 60)%Z else (52, 211, 153)%Z)
      /\ 0.3 <= alpha style <= 0.6
  | FillArc _ _ _ style => style = rgba 16 185 129 0.7
  | SetComposite source_over => True
  | _ => False
  end.

(** The canvas holds [pre], then anatomy only. *)
Definition anatomyAfter (workout : WorkoutType) (pre : list CanvasOp)
  (fr : Pipeline.Frame) : Prop :=
  exists rest,
    Pipeline.canvas fr = (pre ++ rest)%list /\
    Forall (anatomyOp workout) rest.

(** The states a run of frames goes through end in this one (line 631
    schedules the next frame). *)
Fixpoint runFrames (frames : list (Pipeline.Closure * Pipeline.Input))
  (s : Pipeline.State) : Pipeline.State :=
  match frames with
  | [] => s
  | (c, i) :: frames' =>
      runFrames frames' (Pipeline.state (Pipeline.detectPose c i s))
  end.

(** A frame that ran and detected the pose [l]. *)
Definition showsPose (l : Landmarks) (f : Pipeline.Closure * Pipeline.Input)
  : Prop :=
  Pipeline.ready (snd f) = true /\
  Pipeline.zeroDims (Pipeline.dims (snd f)) = false /\
  Pipeline.detected (snd f) = Some l.

(** The first operations of a frame that runs: the clearing, then the mask
    and the compositing mode of the anatomy (lines 317, 353-427). *)
Definition clearAndMask (i : Pipeline.Input) (s : Pipeline.State)
  : list CanvasOp :=
  let vp := viewport (Pipeline.dims i) in
  ClearRect ::
  if Pipeline.segmentationMask i
     || (Pipeline.now i - Pipeline.lastMaskTimeRef s <? 200)%Z
  then [DrawMask (- offsetX vp) (- offsetY vp)
          (renderedWidth vp) (renderedHeight vp);
        SetComposite source_atop]
  else [SetComposite source_over].



(** The sets a state retains, the smoothed one and the one kept for the
    grace window, are full poses. *)
Definition fullRefs (s : Pipeline.State) : Prop :=
  (forall p, Pipeline.prevLandmarksRef s = Some p -> fullPose p) /\
  fullState s.

(** The left arm stretched straight up, the wrist above the hip. *)
Definition armUpPose (i : nat) : NormalizedLandmark :=
  match i with
  | 11%nat => lmAt 0.4 0.5 | 12%nat => lmAt 0.6 0.5
  | 13%nat => lmAt 0.4 0.4 | 15%nat => lmAt 0.4 0.3
  | 23%nat => lmAt 0.45 0.8 | 24%nat => lmAt 0.55 0.8
  | _ => lmAt 0.5 0.9
  end.

(** * Properties *)

(** ** Comparisons *)

Lemma Rltb_spec (a b : R) : reflect (a < b) (a <? b).
Proof. unfold Rltb. destruct (Rlt_dec a b); constructor; assumption. Qed.

Lemma Rgtb_spec (a b : R) : reflect (a > b) (a >? b).
Proof. unfold Rgtb, Rltb. destruct (Rlt_dec b a); constructor; assumption. Qed.

Lemma Rltb_true (a b : R) : a < b -> (a <? b) = true.
Proof. destruct (Rltb_spec a b); [reflexivity | contradiction]. Qed.

Lemma Rltb_false (a b : R) : b <= a -> (a <? b) = false.
Proof. destruct (Rltb_spec a b); [lra | reflexivity]. Qed.

Lemma Rgtb_true (a b : R) : a > b -> (a >? b) = true.
Proof. destruct (Rgtb_spec a b); [reflexivity | contradiction]. Qed.

Lemma Rgtb_false (a b : R) : a <= b -> (a >? b) = false.
Proof. destruct (Rgtb_spec a b); [lra | reflexivity]. Qed.

(** Case analysis on every comparison of reals in the goal. *)
Ltac cases_R :=
  repeat match goal with
  | |- context [Rltb ?a ?b] => destruct (Rltb_spec a b)
  | |- context [Rgtb ?a ?b] => destruct (Rgtb_spec a b)
  end.

(** Decide a goal on absolute values of concrete reals. *)
Ltac solve_abs :=
  cbv [bodyScaleOf lmAt x y z visibility orZero];
  repeat match goal with
  | |- context [Rabs ?r] => unfold Rabs at 1; destruct (Rcase_abs r)
  end; lra.

(** ** The analyzer *)

Section AnalyzerFacts.

Import Analyzer.

Lemma bodyScale_defined landmarks ls rs lh rh :
  nth_error landmarks 11 = Some ls -> nth_error landmarks 12 = Some rs ->
  nth_error landmarks 23 = Some lh -> nth_error landmarks 24 = Some rh ->
  shoulderWidth landmarks = Normal (Rabs (x ls - x rs)) /\
  bodyScale landmarks = Normal (bodyScaleOf ls rs lh rh).
Proof.
  intros H11 H12 H23 H24.
  unfold bodyScale, torsoHeight, shoulderWidth, leftShoulder, rightShoulder,
    leftHip, rightHip.
  rewrite H11, H12, H23, H24. split; reflexivity.
Qed.

Lemma analyzePose_unfold landmarks workout st ls rs lh rh :
  nth_error landmarks 11 = Some ls -> nth_error landmarks 12 = Some rs ->
  nth_error landmarks 23 = Some lh -> nth_error landmarks 24 = Some rh ->
  analyzePose landmarks workout st =
    let shoulderWidth := Rabs (x ls - x rs) in
    let bodyScale := bodyScaleOf ls rs lh rh in
    if bodyScale <? 0.02 then Normal None
    else
      match workout with
      | SQUAT => squatRules landmarks bodyScale
      | PUSHUP => pushupRules landmarks bodyScale
      | LUNGE => lungeRules st
      | BICEP_CURL => bicepCurlRules landmarks shoulderWidth st
      | PLANK => plankRules landmarks bodyScale st
      | TRICEP_EXTENSION => tricepRules landmarks shoulderWidth st
      end.
Proof.
  intros H11 H12 H23 H24.
  destruct (bodyScale_defined landmarks ls rs lh rh H11 H12 H23 H24)
    as [Hsw Hbs].
  unfold analyzePose. rewrite Hsw, Hbs. reflexivity.
Qed.

End AnalyzerFacts.

(** C6: whatever the exercise, the stability score and the other landmarks,
    the analyzer returns no cue when
    [bodyScale = (shoulderWidth + torsoHeight) / 2] is below 0.02, where
    [torsoHeight = |meanShoulderY - meanHipY|]. *)
Theorem analyzePose_none_below_body_scale :
  forall (landmarks : Landmarks) (workout : WorkoutType) (stabilityScore : R)
         (ls rs lh rh : NormalizedLandmark),
    nth_error landmarks 11 = Some ls -> nth_error landmarks 12 = Some rs ->
    nth_error landmarks 23 = Some lh -> nth_error landmarks 24 = Some rh ->
    let shoulderWidth := Rabs (x ls - x rs) in
    let torsoHeight := Rabs ((y ls + y rs) / 2 - (y lh + y rh) / 2) in
    (shoulderWidth + torsoHeight) / 2 < 0.02 ->
    Analyzer.analyzePose landmarks workout stabilityScore = Normal None.
Proof.
  intros landmarks workout st ls rs lh rh H11 H12 H23 H24 sw th Hsmall.
  rewrite (analyzePose_unfold _ _ _ _ _ _ _ H11 H12 H23 H24).
  cbv zeta. unfold bodyScaleOf. fold sw th.
  rewrite Rltb_true by exact Hsmall. reflexivity.
Qed.

Lemma analyzePose_none_below_body_scale_witness :
  Analyzer.analyzePose stillPose SQUAT 0 = Normal None.
Proof.
  apply (analyzePose_none_below_body_scale stillPose SQUAT 0
           (lmAt 0.5 0.5) (lmAt 0.5 0.5) (lmAt 0.5 0.5) (lmAt 0.5 0.5)
           eq_refl eq_refl eq_refl eq_refl).
  solve_abs.
Defined.

(** ** Squat *)

(** C7: for the squat, with [bodyScale >= 0.02], whenever
    [ankleWidth > 0.2 * bodyScale] and [kneeWidth < 0.75 * ankleWidth] the
    analyzer returns exactly "Push Knees Out!", whatever the depths of knees
    and ankles; it returns "Keep Knees Behind Toes" exactly when that first
    rule fails and a knee is closer than its ankle by more than
    [0.6 * bodyScale]. *)
Theorem squat_knees_out_before_knee_depth :
  forall (landmarks : Landmarks) (stabilityScore : R)
         (ls rs lh rh lk rk la ra : NormalizedLandmark),
    nth_error landmarks 11 = Some ls -> nth_error landmarks 12 = Some rs ->
    nth_error landmarks 23 = Some lh -> nth_error landmarks 24 = Some rh ->
    nth_error landmarks 25 = Some lk -> nth_error landmarks 26 = Some rk ->
    nth_error landmarks 27 = Some la -> nth_error landmarks 28 = Some ra ->
    let bodyScale := bodyScaleOf ls rs lh rh in
    let kneeWidth := Rabs (x lk - x rk) in
    let ankleWidth := Rabs (x la - x ra) in
    let kneesIn := ankleWidth > 0.2 * bodyScale
                   /\ kneeWidth < 0.75 * ankleWidth in
    let kneesForward := z lk < z la - 0.6 * bodyScale
                        \/ z rk < z ra - 0.6 * bodyScale in
    0.02 <= bodyScale ->
    (kneesIn ->
     Analyzer.analyzePose landmarks SQUAT stabilityScore
       = Normal (Some "Push Knees Out!")) /\
    (Analyzer.analyzePose landmarks SQUAT stabilityScore
       = Normal (Some "Keep Knees Behind Toes")
     <-> ~ kneesIn /\ kneesForward).
Proof.
  intros landmarks st ls rs lh rh lk rk la ra H11 H12 H23 H24 H25 H26 H27 H28
    bs kw aw kneesIn kneesForward Hbs.
  rewrite (analyzePose_unfold _ _ _ _ _ _ _ H11 H12 H23 H24).
  cbv zeta. fold bs. rewrite Rltb_false by exact Hbs.
  unfold Analyzer.squatRules, Analyzer.kneeWidth, Analyzer.ankleWidth,
    Analyzer.leftKnee, Analyzer.rightKnee, Analyzer.leftAnkle,
    Analyzer.rightAnkle, Analyzer.orElse, Analyzer.returns,
    Analyzer.fallThrough.
  rewrite H25, H26, H27, H28. cbn [bind prop]. fold kw aw.
  unfold kneesIn, kneesForward.
  split.
  - intros [Ha Hk].
    rewrite Rgtb_true by lra. rewrite Rltb_true by lra. reflexivity.
  - cases_R; cbn [andb bind]; split;
      try discriminate; try (intros _; split; [lra|]; (left + right); lra);
      try reflexivity; try (intros [Hn [Hl|Hr]]; exfalso; lra).
Qed.

Lemma squat_knees_out_before_knee_depth_witness :
  Analyzer.analyzePose (poseOf kneesInPose) SQUAT 0
    = Normal (Some "Push Knees Out!").
Proof.
  refine (proj1 (squat_knees_out_before_knee_depth (poseOf kneesInPose) 0
            (kneesInPose 11) (kneesInPose 12) (kneesInPose 23)
            (kneesInPose 24) (kneesInPose 25) (kneesInPose 26)
            (kneesInPose 27) (kneesInPose 28)
            eq_refl eq_refl eq_refl eq_refl eq_refl eq_refl eq_refl eq_refl
            _) _).
  - cbv [kneesInPose]. solve_abs.
  - cbv [kneesInPose]. split; solve_abs.
Defined.

(** ** Bicep curl *)

Lemma calculateAngle_defined (a b c : NormalizedLandmark) :
  exists angle, calculateAngle (Some a) (Some b) (Some c) = Normal angle.
Proof. unfold calculateAngle. cbn [bind prop]. eexists. reflexivity. Qed.

Section BicepCurl.

Variables (landmarks : Landmarks) (stabilityScore : R).
Variables ls rs le re lw rw lh rh : NormalizedLandmark.
Hypothesis H11 : nth_error landmarks 11 = Some ls.
Hypothesis H12 : nth_error landmarks 12 = Some rs.
Hypothesis H13 : nth_error landmarks 13 = Some le.
Hypothesis H14 : nth_error landmarks 14 = Some re.
Hypothesis H15 : nth_error landmarks 15 = Some lw.
Hypothesis H16 : nth_error landmarks 16 = Some rw.
Hypothesis H23 : nth_error landmarks 23 = Some lh.
Hypothesis H24 : nth_error landmarks 24 = Some rh.

Lemma bicepCurl_tuck_left :
  tuckLeft ls rs le lw lh ->
  Analyzer.bicepCurlRules landmarks (Rabs (x ls - x rs)) stabilityScore
    = Normal (Some "Tuck Left Elbow").
Proof.
  intros (Hy & Hv & Hd).
  unfold Analyzer.bicepCurlRules, Analyzer.leftActive, Analyzer.rightActive,
    Analyzer.isVisible, Analyzer.leftWrist, Analyzer.rightWrist,
    Analyzer.leftHip, Analyzer.rightHip.
  rewrite H15, H16, H23, H24. cbn [bind prop].
  rewrite (Rltb_true _ _ Hy). cbn [bind prop]. rewrite (Rgtb_true _ _ Hv).
  destruct (y rw <? y rh); cbn [bind prop];
    unfold Analyzer.leftArmRules, Analyzer.leftElbowDrift,
      Analyzer.leftElbow, Analyzer.leftShoulder, Analyzer.orElse;
    rewrite H13, H11; cbn [bind prop]; rewrite (Rgtb_true _ _ Hd);
    reflexivity.
Qed.

Lemma bicepCurl_torso_iff :
  Analyzer.bicepCurlRules landmarks (Rabs (x ls - x rs)) stabilityScore
    = Normal (Some "Keep Torso Still")
  <-> ~ tuckLeft ls rs le lw lh /\ ~ tuckRight rs ls re rw rh
      /\ stabilityScore > 0.0025.
Proof.
  unfold tuckLeft, tuckRight.
  unfold Analyzer.bicepCurlRules, Analyzer.leftActive, Analyzer.rightActive,
    Analyzer.isVisible, Analyzer.leftArmRules, Analyzer.leftElbowDrift,
    Analyzer.rightArmRules, Analyzer.rightElbowDrift, Analyzer.orElse,
    Analyzer.returns, Analyzer.fallThrough.
  unfold Analyzer.leftWrist, Analyzer.rightWrist, Analyzer.leftHip,
    Analyzer.rightHip, Analyzer.leftElbow, Analyzer.leftShoulder,
    Analyzer.rightElbow, Analyzer.rightShoulder.
  rewrite H11, H12, H13, H14, H15, H16, H23, H24.
  destruct (calculateAngle_defined ls le lw) as [angle ->].
  cbn [bind prop].
  cases_R; cbn [bind prop andb]; cases_R; cbn [bind prop andb];
    cases_R; cbn [bind prop andb];
    (split; [ try discriminate; intros _; repeat split; try lra;
              intros (? & ? & ?); lra
            | try reflexivity; intros (Hl & Hr & Hs); exfalso;
              try lra; try (apply Hl; repeat split; lra);
              try (apply Hr; repeat split; lra) ]).
Qed.

End BicepCurl.

(** C2, as the code has it: in the bicep-curl rules the "Keep Torso Still"
    check ([stabilityScore > 0.0025]) comes after the per-arm checks and is
    reached only when none of them returned.  A frame on which the left elbow
    rule fires yields "Tuck Left Elbow", and the analyzer yields
    "Keep Torso Still" exactly when the body scale is at least 0.02, neither
    elbow rule fires and [stabilityScore > 0.0025]. *)
Theorem bicep_torso_cue_is_fallback :
  forall (landmarks : Landmarks) (stabilityScore : R)
         (ls rs le re lw rw lh rh : NormalizedLandmark),
    nth_error landmarks 11 = Some ls -> nth_error landmarks 12 = Some rs ->
    nth_error landmarks 13 = Some le -> nth_error landmarks 14 = Some re ->
    nth_error landmarks 15 = Some lw -> nth_error landmarks 16 = Some rw ->
    nth_error landmarks 23 = Some lh -> nth_error landmarks 24 = Some rh ->
    (tuckLeft ls rs le lw lh -> 0.02 <= bodyScaleOf ls rs lh rh ->
     Analyzer.analyzePose landmarks BICEP_CURL stabilityScore
       = Normal (Some "Tuck Left Elbow")) /\
    (Analyzer.analyzePose landmarks BICEP_CURL stabilityScore
       = Normal (Some "Keep Torso Still")
     <-> 0.02 <= bodyScaleOf ls rs lh rh
         /\ ~ tuckLeft ls rs le lw lh /\ ~ tuckRight rs ls re rw rh
         /\ stabilityScore > 0.0025).
Proof.
  intros landmarks st ls rs le re lw rw lh rh H11 H12 H13 H14 H15 H16 H23 H24.
  rewrite (analyzePose_unfold _ _ _ _ _ _ _ H11 H12 H23 H24). cbv zeta.
  split.
  - intros Hl Hbs. rewrite Rltb_false by exact Hbs.
    now apply (bicepCurl_tuck_left landmarks st ls rs le lw rw lh rh).
  - destruct (Rltb_spec (bodyScaleOf ls rs lh rh) 0.02) as [Hlt|Hge].
    + split; [discriminate | intros [Hbs _]; lra].
    + rewrite (bicepCurl_torso_iff landmarks st ls rs le re lw rw lh rh)
        by assumption.
      split; [intros H; split; [lra | exact H] | intros [_ H]; exact H].
Qed.

Lemma bicep_torso_cue_is_fallback_witness :
  Analyzer.analyzePose (poseOf armsDownPose) BICEP_CURL 0.01
    = Normal (Some "Keep Torso Still").
Proof.
  refine (proj2 (proj2 (bicep_torso_cue_is_fallback (poseOf armsDownPose) 0.01
            (armsDownPose 11) (armsDownPose 12) (armsDownPose 13)
            (armsDownPose 14) (armsDownPose 15) (armsDownPose 16)
            (armsDownPose 23) (armsDownPose 24)
            eq_refl eq_refl eq_refl eq_refl eq_refl eq_refl eq_refl eq_refl))
            _).
  cbv [armsDownPose tuckLeft tuckRight]. repeat split.
  - solve_abs.
  - cbv [lmAt x y z visibility]. intros (H & _). lra.
  - cbv [lmAt x y z visibility]. intros (H & _). lra.
  - lra.
Defined.

(** C2, as stated, fails.  On a frame with the left elbow flared out and the
    torso moving ([stabilityScore = 0.01 > 0.0025]) the analyzer answers
    "Tuck Left Elbow"; and there is no frame at all on which a per-arm elbow
    rule fires and the analyzer answers "Keep Torso Still". *)
Lemma torso_cue_never_overrides_elbow_cue :
  Analyzer.analyzePose (poseOf elbowOutPose) BICEP_CURL 0.01
    = Normal (Some "Tuck Left Elbow") /\
  ~ (exists (landmarks : Landmarks) (stabilityScore : R),
        elbowRuleFires landmarks /\
        Analyzer.analyzePose landmarks BICEP_CURL stabilityScore
          = Normal (Some "Keep Torso Still")).
Proof.
  split.
  - rewrite (analyzePose_unfold (poseOf elbowOutPose) BICEP_CURL 0.01
               (elbowOutPose 11) (elbowOutPose 12) (elbowOutPose 23)
               (elbowOutPose 24) eq_refl eq_refl eq_refl eq_refl).
    cbv zeta. rewrite Rltb_false by (cbv [elbowOutPose]; solve_abs).
    apply (bicepCurl_tuck_left (poseOf elbowOutPose) 0.01 (elbowOutPose 11)
             (elbowOutPose 12) (elbowOutPose 13) (elbowOutPose 15)
             (elbowOutPose 16) (elbowOutPose 23) (elbowOutPose 24));
      try reflexivity.
    cbv [elbowOutPose tuckLeft]. repeat split; solve_abs.
  - intros (landmarks & st & Hfires & Hout).
    destruct Hfires as (ls & rs & le & re & lw & rw & lh & rh & H11 & H12
                        & H13 & H14 & H15 & H16 & H23 & H24 & Hcue).
    rewrite (analyzePose_unfold _ _ _ _ _ _ _ H11 H12 H23 H24) in Hout.
    cbv zeta in Hout.
    destruct (Rltb_spec (bodyScaleOf ls rs lh rh) 0.02); [discriminate|].
    apply (bicepCurl_torso_iff landmarks st ls rs le re lw rw lh rh) in Hout;
      try assumption.
    destruct Hout as (Hl & Hr & _). destruct Hcue; contradiction.
Qed.

(** ** The smoother's blend factor *)

Lemma cube_unit (u : R) : 0 <= u <= 1 -> 0 <= u ^ 3 <= 1.
Proof.
  intros [H0 H1]. split.
  - apply pow_le. exact H0.
  - rewrite <- (pow1 3). apply pow_incr. split; assumption.
Qed.

Lemma ratio_pos (metric : R) :
  metric > 0.0005 -> 0 < (metric - 0.0005) / (0.025 - 0.0005).
Proof. intros H. apply Rdiv_lt_0_compat; lra. Qed.

Lemma ratio_ge_1 (metric : R) :
  0.025 <= metric -> 1 <= (metric - 0.0005) / (0.025 - 0.0005).
Proof.
  intros H.
  replace 1 with ((0.025 - 0.0005) / (0.025 - 0.0005)) at 1 by (field; lra).
  unfold Rdiv. apply Rmult_le_compat_r; [|lra].
  left. apply Rinv_0_lt_compat. lra.
Qed.

Lemma ratio_mono (m1 m2 : R) :
  m1 <= m2 ->
  (m1 - 0.0005) / (0.025 - 0.0005) <= (m2 - 0.0005) / (0.025 - 0.0005).
Proof.
  intros H. unfold Rdiv. apply Rmult_le_compat_r; [|lra].
  left. apply Rinv_0_lt_compat. lra.
Qed.

(** Above the lower threshold the factor is the curve at a [t] in (0, 1]. *)
Lemma blendFactor_above (metric : R) :
  metric > 0.0005 ->
  exists t, 0 < t <= 1 /\
    t = Rmin 1 ((metric - 0.0005) / (0.025 - 0.0005)) /\
    Smoother.blendFactor metric = 0.08 + (0.92 - 0.08) * (1 - (1 - t) ^ 3).
Proof.
  intros H. exists (Rmin 1 ((metric - 0.0005) / (0.025 - 0.0005))).
  pose proof (ratio_pos metric H) as Hpos. split; [|split].
  - unfold Rmin. destruct (Rle_dec _ _); lra.
  - reflexivity.
  - unfold Smoother.blendFactor, Smoother.lowerThreshold,
      Smoother.upperThreshold, Smoother.minAlpha, Smoother.maxAlpha.
    rewrite Rgtb_true by exact H. reflexivity.
Qed.

Lemma blendFactor_below (metric : R) :
  metric <= 0.0005 -> Smoother.blendFactor metric = 0.08.
Proof.
  intros H. unfold Smoother.blendFactor, Smoother.lowerThreshold,
    Smoother.minAlpha.
  rewrite Rgtb_false by exact H. reflexivity.
Qed.

Lemma blendFactor_range (metric : R) :
  0.08 <= Smoother.blendFactor metric <= 0.92.
Proof.
  destruct (Rle_or_lt metric 0.0005) as [H|H].
  - rewrite blendFactor_below by exact H. lra.
  - destruct (blendFactor_above metric H) as (t & Ht & _ & ->).
    assert (Hc : 0 <= (1 - t) ^ 3 <= 1) by (apply cube_unit; lra).
    lra.
Qed.

Lemma blendFactor_mono (m1 m2 : R) :
  m1 <= m2 -> Smoother.blendFactor m1 <= Smoother.blendFactor m2.
Proof.
  intros Hle.
  destruct (Rle_or_lt m1 0.0005) as [H1|H1].
  - rewrite (blendFactor_below m1 H1). apply blendFactor_range.
  - assert (H2 : m2 > 0.0005) by lra.
    destruct (blendFactor_above m1 H1) as (t1 & Ht1 & Et1 & ->).
    destruct (blendFactor_above m2 H2) as (t2 & Ht2 & Et2 & ->).
    assert (Ht : t1 <= t2).
    { subst t1 t2. apply Rle_min_compat_l. now apply ratio_mono. }
    assert (Hp : (1 - t2) ^ 3 <= (1 - t1) ^ 3)
      by (apply pow_incr; lra).
    lra.
Qed.

(** C3: the blend factor is
    [minAlpha + (maxAlpha - minAlpha) * (1 - (1 - t)^3)] with
    [t = clamp((metric - 0.0005) / (0.025 - 0.0005), 0, 1)]; it is 0.08 for
    every metric up to 0.0005, 0.92 for every metric from 0.025 on, and it
    never decreases as the metric grows. *)
Theorem blendFactor_is_cubic_ease_out :
  (forall metric, Smoother.blendFactor metric = blendFactor_spec metric) /\
  (forall metric, metric <= 0.0005 -> Smoother.blendFactor metric = 0.08) /\
  (forall metric, 0.025 <= metric -> Smoother.blendFactor metric = 0.92) /\
  (forall m1 m2, m1 <= m2 ->
     Smoother.blendFactor m1 <= Smoother.blendFactor m2).
Proof.
  split; [|split; [|split]].
  - intros metric. unfold blendFactor_spec, clamp. cbv zeta.
    destruct (Rle_or_lt metric 0.0005) as [H|H].
    + rewrite blendFactor_below by exact H.
      assert (Hr : (metric - 0.0005) / (0.025 - 0.0005) <= 0).
      { unfold Rdiv. rewrite <- (Rmult_0_l (/ (0.025 - 0.0005))).
        apply Rmult_le_compat_r; [|lra].
        left. apply Rinv_0_lt_compat. lra. }
      rewrite (Rmin_right 1) by lra. rewrite Rmax_left by exact Hr.
      unfold Smoother.minAlpha, Smoother.maxAlpha. lra.
    + destruct (blendFactor_above metric H) as (t & Ht & Et & ->).
      rewrite <- Et. rewrite Rmax_right by lra.
      unfold Smoother.minAlpha, Smoother.maxAlpha. reflexivity.
  - exact blendFactor_below.
  - intros metric H.
    destruct (blendFactor_above metric) as (t & Ht & Et & ->); [lra|].
    rewrite Rmin_left in Et by (now apply ratio_ge_1). subst t. lra.
  - exact blendFactor_mono.
Qed.

(** ** The smoother *)

Lemma lerp_between (a b alpha : R) :
  0 <= alpha <= 1 -> between a (lerp a b alpha) b.
Proof.
  intros [H0 H1]. unfold between, lerp, Rmin, Rmax.
  destruct (Rle_dec a b); split; nra.
Qed.

Lemma between_unit (a v b : R) :
  between a v b -> 0 <= a <= 1 -> 0 <= b <= 1 -> 0 <= v <= 1.
Proof.
  unfold between, Rmin, Rmax. destruct (Rle_dec a b); lra.
Qed.

Lemma mapFrom_nth {A B : Type} (f : A -> nat -> completion B) :
  forall (l : list A) (i k : nat) (out : list B) (a : A),
    Smoother.mapFrom f i l = Normal out ->
    nth_error l k = Some a ->
    exists b, nth_error out k = Some b /\ f a (i + k)%nat = Normal b.
Proof.
  induction l as [|a0 l IH]; intros i k out a Hmap Hk.
  - destruct k; discriminate.
  - cbn [Smoother.mapFrom] in Hmap.
    destruct (f a0 i) as [b0|] eqn:E0; [|discriminate].
    cbn [bind] in Hmap.
    destruct (Smoother.mapFrom f (S i) l) as [bs|] eqn:El; [|discriminate].
    cbn [bind] in Hmap. injection Hmap as <-.
    destruct k as [|k].
    + injection Hk as <-. exists b0. rewrite Nat.add_0_r. now split.
    + cbn [nth_error] in Hk |- *.
      destruct (IH (S i) k bs a El Hk) as (b & Hb & Hf).
      exists b. split; [exact Hb|]. now rewrite Nat.add_succ_r.
Qed.

Lemma mapFrom_length {A B : Type} (f : A -> nat -> completion B) :
  forall (l : list A) (i : nat) (out : list B),
    Smoother.mapFrom f i l = Normal out -> List.length out = List.length l.
Proof.
  induction l as [|a0 l IH]; intros i out Hmap.
  - injection Hmap as <-. reflexivity.
  - cbn [Smoother.mapFrom] in Hmap.
    destruct (f a0 i) as [b0|]; [|discriminate]. cbn [bind] in Hmap.
    destruct (Smoother.mapFrom f (S i) l) as [bs|] eqn:El; [|discriminate].
    cbn [bind] in Hmap. injection Hmap as <-.
    cbn [List.length]. f_equal. exact (IH (S i) bs El).
Qed.

Lemma mapFrom_total {A B : Type} (f : A -> nat -> completion B) :
  forall (l : list A) (i : nat),
    (forall k a, nth_error l k = Some a ->
                 exists b, f a (i + k)%nat = Normal b) ->
    exists out, Smoother.mapFrom f i l = Normal out.
Proof.
  induction l as [|a0 l IH]; intros i Hf.
  - exists []. reflexivity.
  - destruct (Hf O a0 eq_refl) as [b0 Hb0]. rewrite Nat.add_0_r in Hb0.
    destruct (IH (S i)) as [bs Hbs].
    { intros k a Hk. destruct (Hf (S k) a Hk) as [b Hb].
      exists b. now rewrite Nat.add_succ_r in Hb. }
    exists (b0 :: bs). cbn [Smoother.mapFrom]. rewrite Hb0. cbn [bind].
    rewrite Hbs. reflexivity.
Qed.

(** With a previous set at least as long as the current one the smoother
    returns; with a shorter one it reads [prev[i].x] off the end. *)
Lemma adaptiveSmoothLandmarks_returns (current prev : Landmarks) :
  (List.length current <= List.length prev)%nat ->
  exists out,
    Smoother.adaptiveSmoothLandmarks current (Some prev) = Normal out.
Proof.
  intros Hlen. unfold Smoother.adaptiveSmoothLandmarks.
  apply mapFrom_total. intros k a Hk. cbn [Nat.add].
  assert (Hk' : (k < List.length current)%nat)
    by (apply nth_error_Some; rewrite Hk; discriminate).
  destruct (nth_error prev k) as [p|] eqn:Ep.
  - eexists. reflexivity.
  - apply nth_error_None in Ep. lia.
Qed.

(** What the smoother makes of landmark [i]. *)
Lemma adaptiveSmoothLandmarks_nth (current prev out : Landmarks) (i : nat)
  (c : NormalizedLandmark) :
  Smoother.adaptiveSmoothLandmarks current (Some prev) = Normal out ->
  nth_error current i = Some c ->
  exists p,
    nth_error prev i = Some p /\
    let alpha := Smoother.blendFactor
                   (Smoother.metricOf (Smoother.globalVelocity current prev)
                      c p) in
    nth_error out i =
      Some {| x := lerp (x p) (x c) alpha;
              y := lerp (y p) (y c) alpha;
              z := lerp (z p) (z c) alpha;
              visibility := visibility c |}.
Proof.
  intros Hs Hc. unfold Smoother.adaptiveSmoothLandmarks in Hs.
  destruct (mapFrom_nth _ _ _ _ _ _ Hs Hc) as (o & Ho & Hf).
  cbn [Nat.add] in Hf. unfold Smoother.smoothLandmark in Hf.
  destruct (nth_error prev i) as [p|]; [|discriminate].
  injection Hf as <-. exists p. split; [reflexivity | exact Ho].
Qed.

(** C10: a call of the smoother with a previous set returns whenever that
    set is at least as long as the current one, and whenever it returns, for
    every landmark the blend factor lies in [0.08, 0.92], each of the
    smoothed x, y and z lies between the previous and the current value,
    smoothed x and y stay in [0, 1] when both inputs are, and the
    visibility is the current landmark's. *)
Theorem adaptiveSmoothLandmarks_stays_between :
  forall (current prev : Landmarks),
    ((List.length current <= List.length prev)%nat ->
     exists out,
       Smoother.adaptiveSmoothLandmarks current (Some prev) = Normal out) /\
    (forall (out : Landmarks) (i : nat) (c : NormalizedLandmark),
       Smoother.adaptiveSmoothLandmarks current (Some prev) = Normal out ->
       nth_error current i = Some c ->
       exists (p o : NormalizedLandmark) (alpha : R),
         nth_error prev i = Some p /\ nth_error out i = Some o /\
         alpha = Smoother.blendFactor
                   (Smoother.metricOf (Smoother.globalVelocity current prev)
                      c p) /\
         0.08 <= alpha <= 0.92 /\
         x o = lerp (x p) (x c) alpha /\
         y o = lerp (y p) (y c) alpha /\
         z o = lerp (z p) (z c) alpha /\
         between (x p) (x o) (x c) /\
         between (y p) (y o) (y c) /\
         between (z p) (z o) (z c) /\
         (0 <= x p <= 1 -> 0 <= x c <= 1 -> 0 <= x o <= 1) /\
         (0 <= y p <= 1 -> 0 <= y c <= 1 -> 0 <= y o <= 1) /\
         visibility o = visibility c).
Proof.
  intros current prev. split.
  - apply adaptiveSmoothLandmarks_returns.
  - intros out i c Hs Hc.
    destruct (adaptiveSmoothLandmarks_nth _ _ _ _ _ Hs Hc) as (p & Hp & Ho).
    cbv zeta in Ho.
    set (alpha := Smoother.blendFactor _) in Ho.
    pose proof (blendFactor_range
                  (Smoother.metricOf (Smoother.globalVelocity current prev)
                     c p)) as Ha.
    fold alpha in Ha.
    assert (Ha01 : 0 <= alpha <= 1) by lra.
    eexists p, _, alpha. split; [exact Hp|]. split; [exact Ho|].
    cbn [x y z visibility].
    pose proof (lerp_between (x p) (x c) alpha Ha01) as Bx.
    pose proof (lerp_between (y p) (y c) alpha Ha01) as By.
    pose proof (lerp_between (z p) (z c) alpha Ha01) as Bz.
    split; [reflexivity|]. split; [exact Ha|].
    split; [reflexivity|]. split; [reflexivity|]. split; [reflexivity|].
    split; [exact Bx|]. split; [exact By|]. split; [exact Bz|].
    split; [|split].
    + intros Hp0 Hc0. exact (between_unit _ _ _ Bx Hp0 Hc0).
    + intros Hp0 Hc0. exact (between_unit _ _ _ By Hp0 Hc0).
    + reflexivity.
Qed.

(** ** Running the frame monad *)

Section Running.

Import Pipeline.

Lemma mbind_Normal {A B : Type} (m : M A) (k : A -> M B) (fr fr' : Frame)
  (a : A) :
  m fr = (Normal a, fr') -> mbind m k fr = k a fr'.
Proof. intros H. unfold mbind. rewrite H. reflexivity. Qed.

Lemma mbind_Throw {A B : Type} (m : M A) (k : A -> M B) (fr fr' : Frame) :
  m fr = (Throw, fr') -> mbind m k fr = (Throw, fr').
Proof. intros H. unfold mbind. rewrite H. reflexivity. Qed.

Lemma painted_nil (fr : Frame) : painted [] fr = fr.
Proof. destruct fr. unfold painted. cbn. now rewrite app_nil_r. Qed.

Lemma painted_app (ops1 ops2 : list CanvasOp) (fr : Frame) :
  painted ops2 (painted ops1 fr) = painted (ops1 ++ ops2) fr.
Proof. unfold painted. cbn. now rewrite app_assoc. Qed.

(** A loop whose every turn only paints. *)
Lemma forEach_paints {A : Type} (f : A -> M unit) (g : A -> list CanvasOp) :
  forall (l : list A),
    (forall a fr, In a l -> f a fr = (Normal tt, painted (g a) fr)) ->
    forall fr, forEach f l fr = (Normal tt, painted (flat_map g l) fr).
Proof.
  induction l as [|a l IH]; intros Hf fr.
  - cbn. now rewrite painted_nil.
  - cbn [forEach flat_map].
    rewrite (mbind_Normal _ _ fr (painted (g a) fr) tt)
      by (apply Hf; now left).
    rewrite IH by (intros a' fr' Hin; apply Hf; now right).
    now rewrite painted_app.
Qed.

Section Anatomy.

Variables (c : Closure) (vp : Viewport) (smoothedLandmarks : Landmarks).

Lemma torsoEnds_defined (s11 s12 s23 s24 : NormalizedLandmark) :
  nth_error smoothedLandmarks 11 = Some s11 ->
  nth_error smoothedLandmarks 12 = Some s12 ->
  nth_error smoothedLandmarks 23 = Some s23 ->
  nth_error smoothedLandmarks 24 = Some s24 ->
  Overlay.torsoEnds smoothedLandmarks =
    Normal (((x s11 + x s12) / 2, (y s11 + y s12) / 2),
            ((x s23 + x s24) / 2, (y s23 + y s24) / 2)).
Proof.
  intros H11 H12 H23 H24. unfold Overlay.torsoEnds.
  rewrite H11, H12, H23, H24. reflexivity.
Qed.

(** The torso needs landmarks 11, 12, 23 and 24: an array that stops at or
    before index 24 makes line 484 or 485 throw. *)
Lemma torsoEnds_throws :
  (List.length smoothedLandmarks <= 24)%nat ->
  Overlay.torsoEnds smoothedLandmarks = Throw.
Proof.
  intros Hlen. unfold Overlay.torsoEnds.
  assert (H24 : nth_error smoothedLandmarks 24 = None)
    by (apply nth_error_None; exact Hlen).
  rewrite H24.
  destruct (nth_error smoothedLandmarks 11); [|reflexivity].
  destruct (nth_error smoothedLandmarks 12); [|reflexivity].
  destruct (nth_error smoothedLandmarks 23); reflexivity.
Qed.

Lemma drawJointWeld_defined (s11 s12 : NormalizedLandmark) (idx : nat)
  (sizeFactor : R) :
  nth_error smoothedLandmarks 11 = Some s11 ->
  nth_error smoothedLandmarks 12 = Some s12 ->
  Overlay.drawJointWeld vp smoothedLandmarks idx sizeFactor
    = Normal (weldOps vp smoothedLandmarks (x s11) (x s12) (idx, sizeFactor)).
Proof.
  intros H11 H12. unfold Overlay.drawJointWeld, weldOps.
  destruct (nth_error smoothedLandmarks idx) as [lm|]; [|reflexivity].
  destruct (orZero (visibility lm) <? 0.1); [reflexivity|].
  rewrite H11, H12. reflexivity.
Qed.

Lemma paintAnatomy_runs (s11 s12 s23 s24 : NormalizedLandmark) (fr : Frame) :
  nth_error smoothedLandmarks 11 = Some s11 ->
  nth_error smoothedLandmarks 12 = Some s12 ->
  nth_error smoothedLandmarks 23 = Some s23 ->
  nth_error smoothedLandmarks 24 = Some s24 ->
  paintAnatomy c vp smoothedLandmarks fr
    = (Normal tt, painted (anatomyOps c vp smoothedLandmarks s11 s12 s23 s24) fr).
Proof.
  intros H11 H12 H23 H24. unfold paintAnatomy.
  rewrite (mbind_Normal _ _ fr fr _
             (f_equal (fun r => (r, fr))
                (torsoEnds_defined s11 s12 s23 s24 H11 H12 H23 H24))).
  cbn [fst snd].
  rewrite (mbind_Normal _ _ fr (painted (Overlay.drawTorso vp (workoutType c)
             ((x s11 + x s12) / 2, (y s11 + y s12) / 2)
             ((x s23 + x s24) / 2, (y s23 + y s24) / 2)) fr) tt)
    by reflexivity.
  erewrite mbind_Normal;
    [| apply (forEach_paints _ (partOps c vp smoothedLandmarks));
       intros [[startIdx endIdx] partKey] fr' _; reflexivity ].
  rewrite (forEach_paints _ (weldOps vp smoothedLandmarks (x s11) (x s12))).
  - rewrite !painted_app. reflexivity.
  - intros [idx sizeFactor] fr' _. unfold mbind, liftc.
    rewrite (drawJointWeld_defined s11 s12 idx sizeFactor H11 H12).
    reflexivity.
Qed.

Lemma paintAnatomy_throws (fr : Frame) :
  Overlay.torsoEnds smoothedLandmarks = Throw ->
  paintAnatomy c vp smoothedLandmarks fr = (Throw, fr).
Proof.
  intros H. unfold paintAnatomy. apply mbind_Throw. unfold liftc.
  now rewrite H.
Qed.

Lemma scoreOf_defined (s11 s12 : NormalizedLandmark) :
  nth_error smoothedLandmarks 11 = Some s11 ->
  nth_error smoothedLandmarks 12 = Some s12 ->
  Tracking.scoreOf smoothedLandmarks =
    Normal (if Rabs (x s11 - x s12) <? 0.05
            then Tracking.rawScore smoothedLandmarks * 0.5
            else Tracking.rawScore smoothedLandmarks).
Proof.
  intros H11 H12. unfold Tracking.scoreOf. rewrite H11, H12. reflexivity.
Qed.

End Anatomy.

End Running.

(** ** Properties kept by every step of a frame *)

Section Stability.

Import Pipeline.

Variable P : Frame -> Prop.

Lemma stable_ret {A : Type} (a : A) : stable P (ret a).
Proof. intros fr H. exact H. Qed.

Lemma stable_liftc {A : Type} (r : completion A) : stable P (liftc r).
Proof. intros fr H. exact H. Qed.

Lemma stable_getState : stable P getState.
Proof. intros fr H. exact H. Qed.

Lemma stable_bind {A B : Type} (m : M A) (k : A -> M B) :
  stable P m -> (forall a, stable P (k a)) -> stable P (mbind m k).
Proof.
  intros Hm Hk fr H. unfold mbind.
  specialize (Hm fr H). destruct (m fr) as [[a|] fr']; cbn [snd] in *.
  - now apply Hk.
  - exact Hm.
Qed.

Lemma stable_forEach {A : Type} (f : A -> M unit) (l : list A) :
  (forall a, stable P (f a)) -> stable P (forEach f l).
Proof.
  intros Hf. induction l as [|a l IH]; cbn [forEach].
  - apply stable_ret.
  - apply stable_bind; [apply Hf | intros _; exact IH].
Qed.

(** [P] does not look at the canvas. *)
Hypothesis P_painted : forall ops fr, P fr -> P (painted ops fr).

Lemma stable_paint (ops : list CanvasOp) : stable P (paint ops).
Proof. intros fr H. exact (P_painted ops fr H). Qed.

Lemma stable_paintMask (i : Input) (vp : Viewport) :
  stable P (paintMask i vp).
Proof.
  unfold paintMask. apply stable_bind; [apply stable_getState|]. intros s.
  apply stable_bind; [|intros _; apply stable_paint].
  destruct (if segmentationMask i then true else _);
    [apply stable_paint | apply stable_ret].
Qed.

End Stability.

(** ** Full poses never make the analyzer throw *)

Lemma fullPose_nth (l : Landmarks) (k : nat) :
  fullPose l -> (k < 33)%nat -> exists lm, nth_error l k = Some lm.
Proof.
  intros Hl Hk. destruct (nth_error l k) as [lm|] eqn:E; [now exists lm|].
  apply nth_error_None in E. unfold fullPose in Hl. lia.
Qed.

Ltac split_ifs :=
  repeat match goal with
  | |- context [if ?b then _ else _] => destruct b; cbn [bind prop andb orb negb]
  end.

Lemma analyzePose_total (l : Landmarks) (workout : WorkoutType) (st : R) :
  fullPose l -> exists r, Analyzer.analyzePose l workout st = Normal r.
Proof.
  intros Hl.
  destruct (fullPose_nth l 11 Hl) as [ls H11]; [lia|].
  destruct (fullPose_nth l 12 Hl) as [rs H12]; [lia|].
  destruct (fullPose_nth l 13 Hl) as [le H13]; [lia|].
  destruct (fullPose_nth l 14 Hl) as [re H14]; [lia|].
  destruct (fullPose_nth l 15 Hl) as [lw H15]; [lia|].
  destruct (fullPose_nth l 16 Hl) as [rw H16]; [lia|].
  destruct (fullPose_nth l 23 Hl) as [lh H23]; [lia|].
  destruct (fullPose_nth l 24 Hl) as [rh H24]; [lia|].
  destruct (fullPose_nth l 25 Hl) as [lk H25]; [lia|].
  destruct (fullPose_nth l 26 Hl) as [rk H26]; [lia|].
  destruct (fullPose_nth l 27 Hl) as [la H27]; [lia|].
  destruct (fullPose_nth l 28 Hl) as [ra H28]; [lia|].
  destruct (fullPose_nth l 29 Hl) as [lheel H29]; [lia|].
  rewrite (analyzePose_unfold _ _ _ _ _ _ _ H11 H12 H23 H24). cbv zeta.
  destruct (bodyScaleOf ls rs lh rh <? 0.02); [eexists; reflexivity|].
  destruct workout.
  - unfold Analyzer.squatRules, Analyzer.kneeWidth, Analyzer.ankleWidth,
      Analyzer.orElse, Analyzer.returns, Analyzer.fallThrough.
    unfold Analyzer.leftKnee, Analyzer.rightKnee, Analyzer.leftAnkle,
      Analyzer.rightAnkle.
    rewrite H25, H26, H27, H28. cbn [bind prop].
    split_ifs; eexists; reflexivity.
  - unfold Analyzer.pushupRules, Analyzer.returns, Analyzer.fallThrough.
    unfold Analyzer.leftHip, Analyzer.leftShoulder, Analyzer.leftHeel.
    rewrite H23, H11, H29. cbn [bind prop].
    split_ifs; eexists; reflexivity.
  - unfold Analyzer.plankRules, Analyzer.returns, Analyzer.fallThrough.
    unfold Analyzer.leftHip, Analyzer.rightHip, Analyzer.leftAnkle,
      Analyzer.rightAnkle, Analyzer.leftShoulder, Analyzer.rightShoulder.
    rewrite H11, H12, H23, H24, H27, H28. cbn [bind prop].
    split_ifs; eexists; reflexivity.
  - unfold Analyzer.lungeRules, Analyzer.returns, Analyzer.fallThrough.
    split_ifs; eexists; reflexivity.
  - unfold Analyzer.bicepCurlRules, Analyzer.leftActive,
      Analyzer.rightActive, Analyzer.isVisible, Analyzer.leftArmRules,
      Analyzer.leftElbowDrift, Analyzer.rightArmRules,
      Analyzer.rightElbowDrift, Analyzer.orElse, Analyzer.returns,
      Analyzer.fallThrough.
    unfold Analyzer.leftWrist, Analyzer.rightWrist, Analyzer.leftHip,
      Analyzer.rightHip, Analyzer.leftElbow, Analyzer.leftShoulder,
      Analyzer.rightElbow, Analyzer.rightShoulder.
    rewrite H11, H12, H13, H14, H15, H16, H23, H24.
    destruct (calculateAngle_defined ls le lw) as [angle ->].
    cbn [bind prop].
    split_ifs; eexists; reflexivity.
  - unfold Analyzer.tricepRules, Analyzer.isVisible, Analyzer.returns,
      Analyzer.fallThrough.
    unfold Analyzer.leftWrist, Analyzer.rightWrist, Analyzer.leftElbow,
      Analyzer.leftShoulder, Analyzer.rightElbow, Analyzer.rightShoulder.
    rewrite H11, H12, H13, H14, H15, H16. cbn [bind prop].
    destruct (calculateAngle_defined ls le lw) as [angleL HL].
    destruct (calculateAngle_defined rs re rw) as [angleR HR].
    destruct (y le <? y re); cbn [bind prop]; rewrite ?HL, ?HR;
      split_ifs; eexists; reflexivity.
Qed.

(** Walk through a monadic block, leaving the steps that are not plain
    sequencing to [atom]. *)
Ltac stable_walk atom :=
  repeat first
    [ atom
    | match goal with
      | |- stable _ (Pipeline.ret _) => apply stable_ret
      | |- stable _ (Pipeline.liftc _) => apply stable_liftc
      | |- stable _ Pipeline.getState => apply stable_getState
      | |- stable _ (Pipeline.forEach _ _) =>
          apply stable_forEach; intros ?; cbv beta
      | |- stable _ (Pipeline.mbind _ _) =>
          apply stable_bind; [|intros ?]
      | |- stable _ (match ?d with _ => _ end) => is_var d; destruct d
      | |- stable _ (if ?b then _ else _) => destruct b
      | |- stable _ (match ?d with _ => _ end) => destruct d eqn:?
      end ].

(** An atomic step that leaves [P] as it is, up to computation. *)
Ltac stable_atom :=
  idtac;
  match goal with
  | |- stable _ (Pipeline.modify _) => intros ? ?; assumption
  | |- stable _ (Pipeline.paint _) => intros ? ?; assumption
  | |- stable _ (Pipeline.setScore _) => intros ? ?; assumption
  | |- stable _ (Pipeline.setQuality _) => intros ? ?; assumption
  | |- stable _ (Pipeline.callAnalyzePose _ _ _) => intros ? ?; assumption
  end.

(** ** Rate limit of the heuristic cue *)

Section RateLimit.

Import Pipeline.

Variables (c : Closure) (i : Input).

(** Nothing but [updateHeuristic] touches the cue, its timestamp or the log
    of analyzer calls. *)
Section Untouched.

Variable P : Frame -> Prop.
Hypothesis P_state :
  forall (f : State -> State) fr,
    heuristicFeedback (f (state fr)) = heuristicFeedback (state fr) ->
    lastHeuristicUpdateRef (f (state fr)) = lastHeuristicUpdateRef (state fr) ->
    lastValidLandmarksRef (f (state fr)) = lastValidLandmarksRef (state fr) ->
    P fr -> P (snd (modify f fr)).
Hypothesis P_paint : forall ops fr, P fr -> P (painted ops fr).
Hypothesis P_score : forall v fr, P fr -> P (snd (setScore v fr)).
Hypothesis P_quality : forall q fr, P fr -> P (snd (setQuality q fr)).

Ltac untouched_atom :=
  idtac;
  match goal with
  | |- stable _ (modify _) => intros ? ?; apply P_state; trivial
  | |- stable _ (paint _) => intros ? ?; apply P_paint; assumption
  | |- stable _ (setScore _) => intros ? ?; apply P_score; assumption
  | |- stable _ (setQuality _) => intros ? ?; apply P_quality; assumption
  end.

Lemma stable_trackLandmarks vp landmarks :
  stable P (trackLandmarks c vp landmarks).
Proof.
  unfold trackLandmarks, paintAnatomy, updateTrackingQuality.
  stable_walk untouched_atom.
Qed.

Lemma stable_updateStability landmarks : stable P (updateStability landmarks).
Proof. unfold updateStability. stable_walk untouched_atom. Qed.

Lemma stable_trackingLost : stable P (trackingLost i).
Proof. unfold trackingLost. stable_walk untouched_atom. Qed.

Lemma stable_withLandmarks landmarks :
  (forall l, landmarks = Some l -> stable P (updateHeuristic c i l)) ->
  stable P (withLandmarks c i landmarks).
Proof.
  intros Hh. unfold withLandmarks. cbv zeta.
  apply stable_bind; [apply (stable_paintMask P P_paint)|]. intros _.
  apply stable_bind.
  { destruct landmarks; [apply stable_trackLandmarks | apply stable_ret]. }
  intros _. apply stable_bind; [untouched_atom|]. intros _.
  destruct landmarks as [l|].
  - apply stable_bind; [apply stable_updateStability|]. intros _.
    now apply Hh.
  - apply stable_trackingLost.
Qed.

End Untouched.

End RateLimit.

Lemma stable_bind_post {A B : Type} (P : Pipeline.Frame -> Prop)
  (R : A -> Prop) (m : Pipeline.M A) (k : A -> Pipeline.M B) :
  (forall fr, P fr ->
     P (snd (m fr)) /\ forall a, fst (m fr) = Normal a -> R a) ->
  (forall a, R a -> stable P (k a)) ->
  stable P (Pipeline.mbind m k).
Proof.
  intros Hm Hk fr H. unfold Pipeline.mbind.
  destruct (Hm fr H) as [HP HR].
  destruct (m fr) as [[a|] fr']; cbn [fst snd] in *.
  - apply Hk; [now apply HR | exact HP].
  - exact HP.
Qed.

Section RateLimitFrame.

Import Pipeline.

Variables (c : Closure) (i : Input) (s : State).

Lemma cueUntouched_state (f : State -> State) (fr : Frame) :
  heuristicFeedback (f (state fr)) = heuristicFeedback (state fr) ->
  lastHeuristicUpdateRef (f (state fr)) = lastHeuristicUpdateRef (state fr) ->
  lastValidLandmarksRef (f (state fr)) = lastValidLandmarksRef (state fr) ->
  cueUntouched s fr -> cueUntouched s (snd (modify f fr)).
Proof.
  intros Hf Ht _ (H1 & H2 & H3). unfold cueUntouched. cbn.
  rewrite Hf, Ht. repeat split; assumption.
Qed.

Lemma evaluatedOnce_state (f : State -> State) (fr : Frame) :
  heuristicFeedback (f (state fr)) = heuristicFeedback (state fr) ->
  lastHeuristicUpdateRef (f (state fr)) = lastHeuristicUpdateRef (state fr) ->
  lastValidLandmarksRef (f (state fr)) = lastValidLandmarksRef (state fr) ->
  evaluatedOnce i s fr -> evaluatedOnce i s (snd (modify f fr)).
Proof.
  intros _ Ht Hv (H1 & H2). unfold evaluatedOnce. cbn.
  rewrite Ht, Hv. split; assumption.
Qed.

Lemma stable_noteMask (P : Frame -> Prop) :
  (forall (f : State -> State) fr,
     heuristicFeedback (f (state fr)) = heuristicFeedback (state fr) ->
     lastHeuristicUpdateRef (f (state fr))
       = lastHeuristicUpdateRef (state fr) ->
     lastValidLandmarksRef (f (state fr)) = lastValidLandmarksRef (state fr) ->
     P fr -> P (snd (modify f fr))) ->
  stable P (noteMask i).
Proof.
  intros HP. unfold noteMask.
  destruct (segmentationMask i); [|apply stable_ret].
  intros fr H. apply HP; trivial.
Qed.

(** Within the window [updateHeuristic] does nothing. *)
Lemma updateHeuristic_within_window (landmarks : Landmarks) :
  (heuristicNow i - lastHeuristicUpdateRef s <= 500)%Z ->
  stable (cueUntouched s) (updateHeuristic c i landmarks).
Proof.
  intros Hw fr H. pose proof H as (_ & Ht & _).
  unfold updateHeuristic, mbind, getState. rewrite Ht.
  replace (heuristicNow i - lastHeuristicUpdateRef s >? 500)%Z with false
    by (symmetry; rewrite Z.gtb_ltb; apply Z.ltb_ge; lia).
  rewrite andb_false_r. exact H.
Qed.

Lemma updateHeuristic_once (landmarks : Landmarks) :
  fullPose landmarks ->
  stable (evaluatedOnce i s) (updateHeuristic c i landmarks).
Proof.
  intros Hfull fr (Hv & Hcase).
  unfold updateHeuristic, mbind, getState.
  destruct (isActive c); cbn [andb]; [|split; assumption].
  destruct (heuristicNow i - lastHeuristicUpdateRef (state fr) >? 500)%Z
    eqn:Hgt; [|split; assumption].
  rewrite Z.gtb_ltb in Hgt. apply Z.ltb_lt in Hgt.
  unfold callAnalyzePose.
  destruct (analyzePose_total landmarks (workoutType c)
              (stabilityScoreRef (state fr)) Hfull) as [cue ->].
  cbn. split; [exact Hv|]. right.
  destruct Hcase as [[_ Ht] | (_ & _ & Ht)]; rewrite Ht in Hgt.
  - repeat split; [|lia].
    intros E. apply app_eq_nil in E. destruct E as [_ E]. discriminate.
  - lia.
Qed.

Lemma publish_state_untouched (fr : Frame) :
  heuristicFeedback (state (publish c i fr)) = heuristicFeedback (state fr) /\
  lastHeuristicUpdateRef (state (publish c i fr))
    = lastHeuristicUpdateRef (state fr) /\
  lastValidLandmarksRef (state (publish c i fr))
    = lastValidLandmarksRef (state fr) /\
  analyzerCalls (publish c i fr) = analyzerCalls fr.
Proof.
  unfold publish. destruct (_ || _ || _); repeat split; reflexivity.
Qed.

Lemma tryBlock_within_window :
  (heuristicNow i - lastHeuristicUpdateRef s <= 500)%Z ->
  stable (cueUntouched s) (tryBlock c i).
Proof.
  intros Hw. unfold tryBlock.
  apply stable_bind; [apply stable_noteMask, cueUntouched_state|]. intros _.
  apply stable_bind.
  - unfold persistLandmarks.
    stable_walk stable_atom.
  - intros landmarks.
    apply (stable_withLandmarks c i (cueUntouched s) cueUntouched_state).
    + intros ops fr H. exact H.
    + intros v fr H. exact H.
    + intros q fr H. exact H.
    + intros l _. now apply updateHeuristic_within_window.
Qed.

Lemma detectPose_within_window :
  (heuristicNow i - lastHeuristicUpdateRef s <= 500)%Z ->
  cueUntouched s (detectPose c i s).
Proof.
  intros Hw. unfold detectPose.
  destruct (negb (ready i) || zeroDims (dims i)).
  - repeat split.
  - pose proof (tryBlock_within_window Hw
                  (mkFrame s LOST 0 [ClearRect] [])) as H.
    specialize (H (conj eq_refl (conj eq_refl eq_refl))).
    destruct (publish_state_untouched
                (snd (tryBlock c i (mkFrame s LOST 0 [ClearRect] []))))
      as (E1 & E2 & _ & E4).
    unfold cueUntouched. rewrite E1, E2, E4. exact H.
Qed.

Lemma tryBlock_once :
  (forall l, detected i = Some l -> fullPose l) ->
  stable (evaluatedOnce i s) (tryBlock c i).
Proof.
  intros Hin. unfold tryBlock.
  apply stable_bind; [apply stable_noteMask, evaluatedOnce_state|]. intros _.
  apply (stable_bind_post (evaluatedOnce i s)
           (fun landmarks => forall l, landmarks = Some l -> fullPose l)).
  - intros fr (Hv & Hcase). unfold persistLandmarks.
    destruct (detected i) as [l|] eqn:E.
    + cbn. split; [split; [|exact Hcase]|].
      * intros l' [= <-]. now apply Hin.
      * intros a [= <-] l' [= <-]. now apply Hin.
    + unfold mbind, getState.
      destruct (lastValidLandmarksRef (state fr)) as [l|] eqn:El.
      * assert (Hkeep : evaluatedOnce i s fr).
        { split; [|exact Hcase].
          intros l0 Hl0. rewrite El in Hl0. now apply Hv. }
        destruct (now i - lastLandmarksTimeRef (state fr) <? 200)%Z;
          cbn; (split; [exact Hkeep|]).
        -- intros a [= <-] l' [= <-]. now apply Hv.
        -- intros a [= <-] l' Hl. discriminate.
      * assert (Hkeep : evaluatedOnce i s fr).
        { split; [|exact Hcase].
          intros l0 Hl0. rewrite El in Hl0. discriminate. }
        cbn. split; [exact Hkeep|].
        intros a [= <-] l' Hl. discriminate.
  - intros landmarks Hfull.
    apply (stable_withLandmarks c i (evaluatedOnce i s) evaluatedOnce_state).
    + intros ops fr H. exact H.
    + intros v fr H. exact H.
    + intros q fr H. exact H.
    + intros l El. apply updateHeuristic_once. now apply Hfull.
Qed.

Lemma detectPose_once :
  (forall l, detected i = Some l -> fullPose l) ->
  (forall l, lastValidLandmarksRef s = Some l -> fullPose l) ->
  evaluatedOnce i s (detectPose c i s).
Proof.
  intros Hin Hs. unfold detectPose.
  destruct (negb (ready i) || zeroDims (dims i)).
  - split; [exact Hs | left; split; reflexivity].
  - pose proof (tryBlock_once Hin (mkFrame s LOST 0 [ClearRect] [])) as H.
    specialize (H (conj Hs (or_introl (conj eq_refl eq_refl)))).
    destruct (publish_state_untouched
                (snd (tryBlock c i (mkFrame s LOST 0 [ClearRect] []))))
      as (_ & E2 & E3 & E4).
    unfold evaluatedOnce. rewrite E2, E3, E4. exact H.
Qed.

End RateLimitFrame.

Lemma spaced_after (last : Z) (ts : list Z) :
  spaced last ts ->
  forall k t, nth_error ts k = Some t -> (t - last > 500)%Z.
Proof.
  revert last. induction ts as [|t0 ts IH]; intros last Hs k t Hk.
  - destruct k; discriminate.
  - destruct Hs as [H0 Hs]. destruct k as [|k].
    + injection Hk as <-. exact H0.
    + cbn in Hk. specialize (IH t0 Hs k t Hk). lia.
Qed.

Lemma spaced_pairwise (last : Z) (ts : list Z) :
  spaced last ts ->
  forall j k tj tk, (j < k)%nat ->
    nth_error ts j = Some tj -> nth_error ts k = Some tk ->
    (tk - tj > 500)%Z.
Proof.
  revert last. induction ts as [|t0 ts IH]; intros last Hs j k tj tk Hjk Hj Hk.
  - destruct j; discriminate.
  - destruct Hs as [H0 Hs]. destruct k as [|k]; [lia|]. cbn in Hk.
    destruct j as [|j].
    + injection Hj as <-. exact (spaced_after t0 ts Hs k tk Hk).
    + cbn in Hj. apply (IH t0 Hs j k tj tk); [lia | assumption..].
Qed.

Lemma evaluationTimes_spaced :
  forall (frames : list (Pipeline.Closure * Pipeline.Input))
         (s : Pipeline.State),
    Forall (fun f => fullInput (snd f)) frames -> fullState s ->
    spaced (Pipeline.lastHeuristicUpdateRef s) (evaluationTimes frames s).
Proof.
  induction frames as [|[c i] frames IH]; intros s Hin Hs; [exact I|].
  inversion Hin as [|f frames' Hi Hrest]; subst. cbn [snd] in Hi.
  cbn [evaluationTimes]. cbv zeta.
  destruct (detectPose_once c i s Hi Hs) as [Hfull Hcase].
  specialize (IH (Pipeline.state (Pipeline.detectPose c i s)) Hrest Hfull).
  destruct Hcase as [[Hnil Ht] | (Hcalls & Hgap & Ht)].
  - rewrite Hnil. cbn [app]. rewrite <- Ht. exact IH.
  - destruct (Pipeline.analyzerCalls (Pipeline.detectPose c i s));
      [contradiction|].
    cbn [app spaced]. split; [exact Hgap|]. rewrite <- Ht. exact IH.
Qed.

(** X28: a frame whose time is within 500 ms of the stored time of the
    last evaluation ([lastHeuristicUpdateRef]) leaves the stored cue and
    that time as they are and does not call the analyzer; along any run of
    frames whose detections are full poses, from a state whose kept set is
    full, two calls of the analyzer are always more than 500 ms apart. *)
Theorem heuristic_evaluation_rate_limited :
  (forall (c : Pipeline.Closure) (i : Pipeline.Input) (s : Pipeline.State),
     (Pipeline.heuristicNow i - Pipeline.lastHeuristicUpdateRef s <= 500)%Z ->
     let fr := Pipeline.detectPose c i s in
     Pipeline.heuristicFeedback (Pipeline.state fr)
       = Pipeline.heuristicFeedback s /\
     Pipeline.lastHeuristicUpdateRef (Pipeline.state fr)
       = Pipeline.lastHeuristicUpdateRef s /\
     Pipeline.analyzerCalls fr = []) /\
  (forall (frames : list (Pipeline.Closure * Pipeline.Input))
          (s : Pipeline.State),
     Forall (fun f => fullInput (snd f)) frames -> fullState s ->
     forall (j k : nat) (tj tk : Z), (j < k)%nat ->
       nth_error (evaluationTimes frames s) j = Some tj ->
       nth_error (evaluationTimes frames s) k = Some tk ->
       (tk - tj > 500)%Z).
Proof.
  split.
  - intros c i s Hw. exact (detectPose_within_window c i s Hw).
  - intros frames s Hin Hs.
    exact (spaced_pairwise _ _ (evaluationTimes_spaced frames s Hin Hs)).
Qed.

(** ** One frame, step by step *)

Section OneFrame.

Import Pipeline.

Variables (c : Closure) (i : Input).

Lemma zeroDims_false (d : Dims) :
  videoWidth d <> 0 -> videoHeight d <> 0 ->
  containerWidth d <> 0 -> containerHeight d <> 0 ->
  zeroDims d = false.
Proof.
  intros H1 H2 H3 H4. unfold zeroDims.
  destruct (Req_dec_T (videoWidth d) 0); [contradiction|].
  destruct (Req_dec_T (videoHeight d) 0); [contradiction|].
  destruct (Req_dec_T (containerWidth d) 0); [contradiction|].
  destruct (Req_dec_T (containerHeight d) 0); [contradiction|].
  reflexivity.
Qed.

Lemma tryBlock_unfold (s : State) (q : Quality) (v : R)
  (cv : list CanvasOp) (calls : list AnalyzerCall) :
  tryBlock c i (mkFrame s q v cv calls)
    = withLandmarks c i (frameLandmarks i s)
        (mkFrame (persistedState i s) q v cv calls).
Proof.
  unfold tryBlock, noteMask, persistLandmarks, frameLandmarks, persistedState.
  destruct s as [tq ts hf tqr lsu lhu prev lastValid lastTime lastMask stab].
  unfold mbind, getState, modify, ret.
  destruct (segmentationMask i), (detected i) as [l|];
    cbn [state lastValidLandmarksRef lastLandmarksTimeRef
         set_lastMaskTimeRef];
    try reflexivity;
    destruct lastValid as [lv|]; try reflexivity;
    destruct (now i - lastTime <? 200)%Z; reflexivity.
Qed.

Lemma detectPose_unfold (s : State) :
  ready i = true -> zeroDims (dims i) = false ->
  detectPose c i s
    = publish c i
        (snd (withLandmarks c i (frameLandmarks i s)
                (mkFrame (persistedState i s) LOST 0 [ClearRect] []))).
Proof.
  intros Hr Hz. unfold detectPose. rewrite Hr, Hz. cbn [negb orb].
  now rewrite tryBlock_unfold.
Qed.

Lemma paintMask_runs (fr : Frame) :
  paintMask i (viewport (dims i)) fr
    = (Normal tt, painted (maskOps i (state fr)) fr).
Proof.
  unfold paintMask, maskOps, mbind, getState. cbv zeta.
  generalize (viewport (dims i)). intros vp.
  destruct (if segmentationMask i then true else _);
    unfold paint, painted, ret; cbn [state currentQuality currentScore canvas
                                     analyzerCalls];
    rewrite <- ?app_assoc; reflexivity.
Qed.

(** Lines 430-577 when nothing throws. *)
Lemma trackLandmarks_runs (landmarks sm : Landmarks)
  (s11 s12 s23 s24 : NormalizedLandmark) (fr : Frame) :
  Smoother.adaptiveSmoothLandmarks landmarks (prevLandmarksRef (state fr))
    = Normal sm ->
  nth_error sm 11 = Some s11 -> nth_error sm 12 = Some s12 ->
  nth_error sm 23 = Some s23 -> nth_error sm 24 = Some s24 ->
  let score := if Rabs (x s11 - x s12) <? 0.05
               then Tracking.rawScore sm * 0.5 else Tracking.rawScore sm in
  trackLandmarks c (viewport (dims i)) landmarks fr
    = (Normal tt,
       mkFrame (set_prevLandmarksRef (Some sm) (state fr))
         (Tracking.classify score) score
         (canvas fr ++ anatomyOps c (viewport (dims i)) sm s11 s12 s23 s24)
         (analyzerCalls fr)).
Proof.
  intros Hsm H11 H12 H23 H24 score.
  unfold trackLandmarks, mbind at 1, getState.
  unfold mbind at 1, liftc at 1. rewrite Hsm.
  rewrite (mbind_Normal _ _ _ _ _
             (paintAnatomy_runs c _ sm s11 s12 s23 s24 fr H11 H12 H23 H24)).
  unfold updateTrackingQuality, mbind, setScore, liftc, setQuality, modify.
  cbn [fst snd]. rewrite (scoreOf_defined sm s11 s12 H11 H12).
  reflexivity.
Qed.

(** Lines 430-577 when the smoother throws, or the torso's landmarks are
    not all there: nothing of the anatomy is painted, nothing is scored,
    and the retained set is not replaced. *)
Lemma trackLandmarks_throws (landmarks : Landmarks) (fr : Frame) :
  (Smoother.adaptiveSmoothLandmarks landmarks (prevLandmarksRef (state fr))
     = Throw \/
   exists sm,
     Smoother.adaptiveSmoothLandmarks landmarks (prevLandmarksRef (state fr))
       = Normal sm /\ Overlay.torsoEnds sm = Throw) ->
  trackLandmarks c (viewport (dims i)) landmarks fr = (Throw, fr).
Proof.
  intros [Hs | (sm & Hs & Ht)];
    unfold trackLandmarks, mbind at 1, getState;
    unfold mbind at 1, liftc at 1; rewrite Hs; [reflexivity|].
  apply mbind_Throw. now apply paintAnatomy_throws.
Qed.

End OneFrame.

(** ** Tracking loss and the grace window *)

Section TrackingLoss.

Import Pipeline.

Variables (c : Closure) (i : Input).

(** [publish] only writes the published quality, score and their
    timestamp. *)
Lemma publish_keeps (fr : Frame) :
  currentQuality (publish c i fr) = currentQuality fr /\
  currentScore (publish c i fr) = currentScore fr /\
  canvas (publish c i fr) = canvas fr /\
  prevLandmarksRef (state (publish c i fr)) = prevLandmarksRef (state fr) /\
  stabilityScoreRef (state (publish c i fr)) = stabilityScoreRef (state fr) /\
  lastLandmarksTimeRef (state (publish c i fr))
    = lastLandmarksTimeRef (state fr).
Proof.
  unfold publish. destruct (_ || _ || _); repeat split; reflexivity.
Qed.

(** A change of quality is published at once (line 623, first disjunct). *)
Lemma publish_on_change (fr : Frame) :
  currentQuality fr <> trackingQualityRef (state fr) ->
  trackingQuality (state (publish c i fr)) = currentQuality fr /\
  trackingScore (state (publish c i fr)) = currentScore fr /\
  trackingQualityRef (state (publish c i fr)) = currentQuality fr.
Proof.
  intros Hne. unfold publish.
  assert (E : Quality_eqb (currentQuality fr) (trackingQualityRef (state fr))
              = false).
  { destruct (currentQuality fr), (trackingQualityRef (state fr));
      try reflexivity; contradiction. }
  rewrite E. cbn [negb orb]. repeat split.
Qed.

Lemma persistedState_trackingQualityRef (s : State) :
  trackingQualityRef (persistedState i s) = trackingQualityRef s.
Proof.
  unfold persistedState.
  destruct (segmentationMask i), (detected i); reflexivity.
Qed.

Lemma persistedState_no_detection (s : State) :
  detected i = None ->
  lastValidLandmarksRef (persistedState i s) = lastValidLandmarksRef s /\
  lastLandmarksTimeRef (persistedState i s) = lastLandmarksTimeRef s /\
  prevLandmarksRef (persistedState i s) = prevLandmarksRef s /\
  stabilityScoreRef (persistedState i s) = stabilityScoreRef s.
Proof.
  intros Hd. unfold persistedState. rewrite Hd.
  destruct (segmentationMask i); repeat split; reflexivity.
Qed.

(** Lines 605-611 past the window. *)
Lemma withLandmarks_lost (fr : Frame) :
  (now i - lastLandmarksTimeRef (state fr) > 200)%Z ->
  withLandmarks c i None fr
    = (Normal tt,
       mkFrame (set_prevLandmarksRef None (state fr)) LOST 0
         ((canvas fr ++ maskOps i (state fr)) ++ [SetComposite source_over])
         (analyzerCalls fr)).
Proof.
  intros Hgap.
  assert (Hg : (now i - lastLandmarksTimeRef (state fr) >? 200)%Z = true)
    by (rewrite Z.gtb_ltb; apply Z.ltb_lt; lia).
  unfold withLandmarks. cbv zeta.
  rewrite (mbind_Normal _ _ _ _ _ (paintMask_runs i fr)).
  unfold mbind at 1, ret at 1. unfold mbind at 1, paint at 1.
  unfold trackingLost, mbind, getState, painted.
  cbn [state]. rewrite Hg. reflexivity.
Qed.

Lemma withLandmarks_analyzes (landmarks : Landmarks) :
  stable (analyzedOnly landmarks) (withLandmarks c i (Some landmarks)).
Proof.
  unfold withLandmarks, trackLandmarks, paintMask, paintAnatomy,
    updateTrackingQuality, updateStability, updateHeuristic.
  cbv zeta.
  stable_walk ltac:(first
    [ stable_atom
    | match goal with
      | |- stable _ (callAnalyzePose _ _ _) =>
          let fr := fresh "fr" in
          let H := fresh "H" in
          let call := fresh "call" in
          let Hin := fresh "Hin" in
          intros fr H call Hin; cbn in Hin; apply in_app_or in Hin;
          destruct Hin as [Hin | [<- | []]]; [now apply H | reflexivity]
      end ]).
Qed.

End TrackingLoss.

(** Nothing below line 344 writes the landmarks kept for the grace window
    or their timestamp. *)
Lemma withLandmarks_keeps_lastValid (c : Pipeline.Closure)
  (i : Pipeline.Input) (landmarks : option Landmarks)
  (kept : option Landmarks) (t : Z) :
  stable (fun fr =>
            Pipeline.lastValidLandmarksRef (Pipeline.state fr) = kept /\
            Pipeline.lastLandmarksTimeRef (Pipeline.state fr) = t)
         (Pipeline.withLandmarks c i landmarks).
Proof.
  unfold Pipeline.withLandmarks, Pipeline.trackLandmarks, Pipeline.paintMask,
    Pipeline.paintAnatomy, Pipeline.updateTrackingQuality,
    Pipeline.updateStability, Pipeline.updateHeuristic, Pipeline.trackingLost.
  cbv zeta. destruct landmarks; stable_walk stable_atom.
Qed.

Lemma sampleDims_nonzero : Pipeline.zeroDims sampleDims = false.
Proof. apply zeroDims_false; cbn; lra. Qed.

(** X29: on a frame without detection, once more than 200 ms have passed
    since landmarks were last supplied the frame's quality is LOST, its
    score 0 and the retained smoothed set is cleared (and LOST and 0 are
    published at once if the quality was not LOST before); when less than
    200 ms have passed the last valid landmark set is the frame's input,
    unchanged: the frame is processed on it, the analyzer is called on
    nothing else, and it stays the set kept for the grace window.  (A gap of
    exactly 200 ms is neither case.) *)
Theorem tracking_loss_resets_and_grace_window_reuses :
  forall (c : Pipeline.Closure) (i : Pipeline.Input) (s : Pipeline.State),
    Pipeline.ready i = true -> Pipeline.zeroDims (Pipeline.dims i) = false ->
    Pipeline.detected i = None ->
    ((Pipeline.now i - Pipeline.lastLandmarksTimeRef s > 200)%Z ->
     let fr := Pipeline.detectPose c i s in
     Pipeline.currentQuality fr = LOST /\
     Pipeline.currentScore fr = 0 /\
     Pipeline.prevLandmarksRef (Pipeline.state fr) = None /\
     (Pipeline.trackingQualityRef s <> LOST ->
      Pipeline.trackingQuality (Pipeline.state fr) = LOST /\
      Pipeline.trackingScore (Pipeline.state fr) = 0)) /\
    (forall lastValid : Landmarks,
       Pipeline.lastValidLandmarksRef s = Some lastValid ->
       (Pipeline.now i - Pipeline.lastLandmarksTimeRef s < 200)%Z ->
       let fr := Pipeline.detectPose c i s in
       frameLandmarks i s = Some lastValid /\
       fr = Pipeline.publish c i
              (snd (Pipeline.withLandmarks c i (Some lastValid)
                      (Pipeline.mkFrame (persistedState i s) LOST 0
                         [ClearRect] []))) /\
       (forall call, In call (Pipeline.analyzerCalls fr) ->
                     Pipeline.call_landmarks call = lastValid) /\
       Pipeline.lastValidLandmarksRef (Pipeline.state fr) = Some lastValid /\
       Pipeline.lastLandmarksTimeRef (Pipeline.state fr)
         = Pipeline.lastLandmarksTimeRef s).
Proof.
  intros c i s Hr Hz Hd.
  destruct (persistedState_no_detection i s Hd) as (Hv & Ht & Hp & Hst).
  split.
  - intros Hgap. cbv zeta. rewrite (detectPose_unfold c i s Hr Hz).
    assert (Hnone : frameLandmarks i s = None).
    { unfold frameLandmarks. rewrite Hd.
      destruct (Pipeline.lastValidLandmarksRef s); [|reflexivity].
      replace (Pipeline.now i - Pipeline.lastLandmarksTimeRef s <? 200)%Z
        with false by (symmetry; apply Z.ltb_ge; lia).
      reflexivity. }
    rewrite Hnone, withLandmarks_lost by (cbn [Pipeline.state]; lia).
    cbn [snd].
    match goal with
    | |- context [Pipeline.publish c i ?f] =>
        destruct (publish_keeps c i f) as (E1 & E2 & _ & E4 & _);
        pose proof (publish_on_change c i f) as Hpub
    end.
    rewrite E1, E2, E4. split; [reflexivity|]. split; [reflexivity|].
    split; [reflexivity|].
    intros Hq. cbn [Pipeline.currentQuality Pipeline.currentScore
                    Pipeline.state Pipeline.trackingQualityRef
                    Pipeline.set_prevLandmarksRef] in Hpub.
    rewrite persistedState_trackingQualityRef in Hpub.
    destruct Hpub as (P1 & P2 & _); [congruence|]. now split.
  - intros lastValid Hlast Hgrace. cbv zeta.
    assert (Hsome : frameLandmarks i s = Some lastValid).
    { unfold frameLandmarks. rewrite Hd, Hlast.
      replace (Pipeline.now i - Pipeline.lastLandmarksTimeRef s <? 200)%Z
        with true by (symmetry; apply Z.ltb_lt; lia).
      reflexivity. }
    rewrite (detectPose_unfold c i s Hr Hz), Hsome.
    split; [reflexivity|]. split; [reflexivity|].
    set (fr0 := Pipeline.mkFrame (persistedState i s) LOST 0 [ClearRect] []).
    destruct (publish_state_untouched c i
                (snd (Pipeline.withLandmarks c i (Some lastValid) fr0)))
      as (_ & _ & E3 & E4).
    destruct (publish_keeps c i
                (snd (Pipeline.withLandmarks c i (Some lastValid) fr0)))
      as (_ & _ & _ & _ & _ & E6).
    rewrite E3, E4, E6.
    split.
    + apply (withLandmarks_analyzes c i lastValid fr0).
      intros call [].
    + apply (withLandmarks_keeps_lastValid c i (Some lastValid)
               (Some lastValid) (Pipeline.lastLandmarksTimeRef s) fr0).
      subst fr0. cbn [Pipeline.state]. rewrite Hv, Ht, Hlast. now split.
Qed.

Lemma tracking_loss_resets_and_grace_window_reuses_witness :
  (Pipeline.currentQuality
     (Pipeline.detectPose sampleClosure (frameAt 1250 None) trackedState)
   = LOST /\
   Pipeline.currentScore
     (Pipeline.detectPose sampleClosure (frameAt 1250 None) trackedState)
   = 0 /\
   Pipeline.prevLandmarksRef
     (Pipeline.state
        (Pipeline.detectPose sampleClosure (frameAt 1250 None) trackedState))
   = None) /\
  frameLandmarks (frameAt 1150 None) trackedState = Some stillPose.
Proof.
  split.
  - destruct (proj1 (tracking_loss_resets_and_grace_window_reuses
                       sampleClosure (frameAt 1250 None) trackedState eq_refl
                       sampleDims_nonzero eq_refl))
      as (H1 & H2 & H3 & _); [cbn; lia|].
    repeat split; assumption.
  - apply (proj2 (tracking_loss_resets_and_grace_window_reuses sampleClosure
                    (frameAt 1150 None) trackedState eq_refl
                    sampleDims_nonzero eq_refl) stillPose eq_refl).
    cbn. lia.
Defined.

(** ** The stability score *)

Lemma hypot_nonneg_0 (a : R) : 0 <= a -> hypot a 0 = a.
Proof.
  intros H. unfold hypot.
  replace (a * a + 0 * 0) with (a * a) by lra. now apply sqrt_square.
Qed.

Lemma hypot_0_0 : hypot 0 0 = 0.
Proof. apply hypot_nonneg_0. lra. Qed.

Lemma metricOf_ge_local (gv : R) (cur p : NormalizedLandmark) :
  hypot (x cur - x p) (y cur - y p) <= Smoother.metricOf gv cur p.
Proof. unfold Smoother.metricOf. apply Rmax_l. Qed.

Lemma blendFactor_saturates (metric : R) :
  0.025 <= metric -> Smoother.blendFactor metric = 0.92.
Proof.
  intros H.
  destruct (blendFactor_above metric) as (t & Ht & Et & ->); [lra|].
  rewrite Rmin_left in Et by (now apply ratio_ge_1). subst t. lra.
Qed.

Lemma adaptiveSmoothLandmarks_full (current : Landmarks)
  (prev : option Landmarks) :
  fullPose current -> (forall p, prev = Some p -> fullPose p) ->
  exists sm,
    Smoother.adaptiveSmoothLandmarks current prev = Normal sm /\ fullPose sm.
Proof.
  intros Hc Hp. destruct prev as [p|].
  - destruct (adaptiveSmoothLandmarks_returns current p) as [sm Hsm].
    { rewrite Hc, (Hp p eq_refl). lia. }
    exists sm. split; [exact Hsm|].
    unfold fullPose. unfold Smoother.adaptiveSmoothLandmarks in Hsm.
    rewrite (mapFrom_length _ _ _ _ Hsm). exact Hc.
  - exists current. split; [reflexivity | exact Hc].
Qed.

Lemma hipMidpoint_defined (l : Landmarks) (l23 l24 : NormalizedLandmark) :
  nth_error l 23 = Some l23 -> nth_error l 24 = Some l24 ->
  Pipeline.hipMidpoint l
    = Normal ((x l23 + x l24) / 2, (y l23 + y l24) / 2).
Proof.
  intros H23 H24. unfold Pipeline.hipMidpoint. rewrite H23, H24. reflexivity.
Qed.

Section StabilityScore.

Import Pipeline.

Variables (c : Closure) (i : Input).

(** Lines 586-597 when the hips are there. *)
Lemma updateStability_runs (landmarks retained : Landmarks)
  (l23 l24 r23 r24 : NormalizedLandmark) (fr : Frame) :
  prevLandmarksRef (state fr) = Some retained ->
  nth_error landmarks 23 = Some l23 -> nth_error landmarks 24 = Some l24 ->
  nth_error retained 23 = Some r23 -> nth_error retained 24 = Some r24 ->
  updateStability landmarks fr
    = (Normal tt,
       mkFrame
         (set_stabilityScoreRef
            (stabilityScoreRef (state fr) * 0.9
             + hypot ((x l23 + x l24) / 2 - (x r23 + x r24) / 2)
                     ((y l23 + y l24) / 2 - (y r23 + y r24) / 2) * 0.1)
            (state fr))
         (currentQuality fr) (currentScore fr) (canvas fr)
         (analyzerCalls fr)).
Proof.
  intros Hp H23 H24 R23 R24.
  unfold updateStability, mbind at 1, getState. rewrite Hp.
  unfold mbind, liftc.
  rewrite (hipMidpoint_defined landmarks l23 l24 H23 H24).
  rewrite (hipMidpoint_defined retained r23 r24 R23 R24).
  reflexivity.
Qed.

(** [updateHeuristic] writes neither the retained set nor the score. *)
Lemma updateHeuristic_keeps_stability (landmarks : Landmarks)
  (retained : option Landmarks) (v : R) :
  stable (fun fr => prevLandmarksRef (state fr) = retained /\
                    stabilityScoreRef (state fr) = v)
         (updateHeuristic c i landmarks).
Proof. unfold updateHeuristic. stable_walk stable_atom. Qed.

(** On a full pose nothing throws before [updateHeuristic]: the frame
    reaches it with this frame's smoothed set retained and the score moved
    by the distance between the hips of the frame's landmarks and the hips
    of that set. *)
Lemma withLandmarks_reaches_heuristic (landmarks sm : Landmarks)
  (l23 l24 s23 s24 : NormalizedLandmark) (fr : Frame) :
  Smoother.adaptiveSmoothLandmarks landmarks (prevLandmarksRef (state fr))
    = Normal sm ->
  fullPose sm ->
  nth_error landmarks 23 = Some l23 -> nth_error landmarks 24 = Some l24 ->
  nth_error sm 23 = Some s23 -> nth_error sm 24 = Some s24 ->
  exists F,
    withLandmarks c i (Some landmarks) fr = updateHeuristic c i landmarks F /\
    state F
    = set_stabilityScoreRef
        (stabilityScoreRef (state fr) * 0.9
         + hypot ((x l23 + x l24) / 2 - (x s23 + x s24) / 2)
                 ((y l23 + y l24) / 2 - (y s23 + y s24) / 2) * 0.1)
        (set_prevLandmarksRef (Some sm) (state fr)) /\
    analyzerCalls F = analyzerCalls fr.
Proof.
  intros Hsm Hfull L23 L24 S23 S24.
  destruct (fullPose_nth sm 11 Hfull) as [s11 S11]; [lia|].
  destruct (fullPose_nth sm 12 Hfull) as [s12 S12]; [lia|].
  eexists. split.
  - unfold withLandmarks. cbv zeta.
    rewrite (mbind_Normal _ _ _ _ _ (paintMask_runs i fr)).
    erewrite mbind_Normal;
      [| apply (trackLandmarks_runs c i landmarks sm s11 s12 s23 s24);
         [exact Hsm | assumption..] ].
    unfold mbind at 1, paint at 1.
    erewrite mbind_Normal;
      [| apply (updateStability_runs landmarks sm l23 l24 s23 s24);
         [reflexivity | assumption..] ].
    reflexivity.
  - split; reflexivity.
Qed.

Lemma withLandmarks_stability (landmarks sm : Landmarks)
  (l23 l24 s23 s24 : NormalizedLandmark) (fr : Frame) :
  Smoother.adaptiveSmoothLandmarks landmarks (prevLandmarksRef (state fr))
    = Normal sm ->
  fullPose sm ->
  nth_error landmarks 23 = Some l23 -> nth_error landmarks 24 = Some l24 ->
  nth_error sm 23 = Some s23 -> nth_error sm 24 = Some s24 ->
  let fr' := snd (withLandmarks c i (Some landmarks) fr) in
  prevLandmarksRef (state fr') = Some sm /\
  stabilityScoreRef (state fr')
    = stabilityScoreRef (state fr) * 0.9
      + hypot ((x l23 + x l24) / 2 - (x s23 + x s24) / 2)
              ((y l23 + y l24) / 2 - (y s23 + y s24) / 2) * 0.1.
Proof.
  intros Hsm Hfull L23 L24 S23 S24.
  destruct (withLandmarks_reaches_heuristic landmarks sm l23 l24 s23 s24 fr
              Hsm Hfull L23 L24 S23 S24) as (F & -> & HF & _).
  cbv zeta.
  apply (updateHeuristic_keeps_stability landmarks _ _ F).
  rewrite HF. split; reflexivity.
Qed.

(** [updateHeuristic] on a full pose: past the window of an active session
    it calls the analyzer once, on the frame's landmarks and the current
    score, and stores the cue and the time; otherwise it does nothing. *)
Lemma updateHeuristic_runs (landmarks : Landmarks) (F : Frame) :
  fullPose landmarks ->
  let F' := snd (updateHeuristic c i landmarks F) in
  prevLandmarksRef (state F') = prevLandmarksRef (state F) /\
  stabilityScoreRef (state F') = stabilityScoreRef (state F) /\
  if isActive c
     && (heuristicNow i - lastHeuristicUpdateRef (state F) >? 500)%Z
  then
    analyzerCalls F'
    = (analyzerCalls F
       ++ [mkCall landmarks (workoutType c) (stabilityScoreRef (state F))])%list
    /\ lastHeuristicUpdateRef (state F') = heuristicNow i
    /\ Analyzer.analyzePose landmarks (workoutType c)
         (stabilityScoreRef (state F))
       = Normal (heuristicFeedback (state F'))
  else
    analyzerCalls F' = analyzerCalls F
    /\ lastHeuristicUpdateRef (state F') = lastHeuristicUpdateRef (state F)
    /\ heuristicFeedback (state F') = heuristicFeedback (state F).
Proof.
  intros Hfull. cbv zeta. unfold updateHeuristic, mbind, getState.
  destruct (isActive c
            && (heuristicNow i - lastHeuristicUpdateRef (state F) >? 500)%Z).
  - unfold callAnalyzePose.
    destruct (analyzePose_total landmarks (workoutType c)
                (stabilityScoreRef (state F)) Hfull) as [cue ->].
    cbn. repeat split.
  - cbn. repeat split.
Qed.

Lemma withLandmarks_none_keeps_stability (fr : Frame) :
  stabilityScoreRef (state (snd (withLandmarks c i None fr)))
    = stabilityScoreRef (state fr).
Proof.
  assert (H : stable (fun fr' => stabilityScoreRef (state fr')
                                 = stabilityScoreRef (state fr))
                     (withLandmarks c i None)).
  { unfold withLandmarks, paintMask, trackingLost. cbv zeta.
    stable_walk stable_atom. }
  now apply H.
Qed.

End StabilityScore.

Lemma persistedState_keeps (i : Pipeline.Input) (s : Pipeline.State) :
  Pipeline.prevLandmarksRef (persistedState i s) = Pipeline.prevLandmarksRef s
  /\ Pipeline.stabilityScoreRef (persistedState i s)
     = Pipeline.stabilityScoreRef s.
Proof.
  unfold persistedState.
  destruct (Pipeline.segmentationMask i), (Pipeline.detected i);
    split; reflexivity.
Qed.

(** One whole frame on landmarks that smooth to a full pose [sm]: the set
    retained afterwards is [sm], and the score has moved by the distance
    between the hips of the frame's landmarks and the hips of [sm]. *)
Lemma detectPose_stability (c : Pipeline.Closure) (i : Pipeline.Input)
  (s : Pipeline.State) (landmarks sm : Landmarks)
  (l23 l24 s23 s24 : NormalizedLandmark) :
  Pipeline.ready i = true -> Pipeline.zeroDims (Pipeline.dims i) = false ->
  frameLandmarks i s = Some landmarks ->
  Smoother.adaptiveSmoothLandmarks landmarks (Pipeline.prevLandmarksRef s)
    = Normal sm ->
  fullPose sm ->
  nth_error landmarks 23 = Some l23 -> nth_error landmarks 24 = Some l24 ->
  nth_error sm 23 = Some s23 -> nth_error sm 24 = Some s24 ->
  Pipeline.prevLandmarksRef (Pipeline.state (Pipeline.detectPose c i s))
    = Some sm /\
  Pipeline.stabilityScoreRef (Pipeline.state (Pipeline.detectPose c i s))
    = Pipeline.stabilityScoreRef s * 0.9
      + hypot ((x l23 + x l24) / 2 - (x s23 + x s24) / 2)
              ((y l23 + y l24) / 2 - (y s23 + y s24) / 2) * 0.1.
Proof.
  intros Hr Hz Hl Hsm Hfull L23 L24 S23 S24.
  rewrite (detectPose_unfold c i s Hr Hz), Hl.
  destruct (persistedState_keeps i s) as [Hp Hst].
  set (fr0 := Pipeline.mkFrame (persistedState i s) LOST 0 [ClearRect] []).
  assert (Hsm0 : Smoother.adaptiveSmoothLandmarks landmarks
                   (Pipeline.prevLandmarksRef (Pipeline.state fr0))
                 = Normal sm)
    by (subst fr0; cbn [Pipeline.state]; rewrite Hp; exact Hsm).
  pose proof (withLandmarks_stability c i landmarks sm l23 l24 s23 s24 fr0
                Hsm0 Hfull L23 L24 S23 S24) as H.
  cbv zeta in H. destruct H as [H1 H2].
  destruct (publish_keeps c i
              (snd (Pipeline.withLandmarks c i (Some landmarks) fr0)))
    as (_ & _ & _ & E4 & E5 & _).
  rewrite E4, E5, H1, H2. subst fr0. cbn [Pipeline.state]. rewrite Hst.
  split; reflexivity.
Qed.

(** What the code computes: on every frame that works on a full pose (the
    retained set, if any, being a full pose too) the score becomes
    [stabilityScore * 0.9 + movement * 0.1], where [movement] is the
    Euclidean distance between the hip midpoint of the frame's landmarks as
    supplied and the hip midpoint of the set found in [prevLandmarksRef],
    which line 577 has overwritten with this frame's own smoothed set by
    then; on a frame with no landmarks to work on the score is left as it
    is. *)
Theorem stability_moves_by_distance_to_retained_set :
  forall (c : Pipeline.Closure) (i : Pipeline.Input) (s : Pipeline.State),
    Pipeline.ready i = true -> Pipeline.zeroDims (Pipeline.dims i) = false ->
    (forall landmarks : Landmarks,
       frameLandmarks i s = Some landmarks -> fullPose landmarks ->
       (forall p, Pipeline.prevLandmarksRef s = Some p -> fullPose p) ->
       let fr := Pipeline.detectPose c i s in
       exists (retained : Landmarks) (l23 l24 r23 r24 : NormalizedLandmark),
         Pipeline.prevLandmarksRef (Pipeline.state fr) = Some retained /\
         nth_error landmarks 23 = Some l23 /\
         nth_error landmarks 24 = Some l24 /\
         nth_error retained 23 = Some r23 /\
         nth_error retained 24 = Some r24 /\
         let movement :=
           hypot ((x l23 + x l24) / 2 - (x r23 + x r24) / 2)
                 ((y l23 + y l24) / 2 - (y r23 + y r24) / 2) in
         Pipeline.stabilityScoreRef (Pipeline.state fr)
           = Pipeline.stabilityScoreRef s * 0.9 + movement * 0.1) /\
    (frameLandmarks i s = None ->
     Pipeline.stabilityScoreRef (Pipeline.state (Pipeline.detectPose c i s))
       = Pipeline.stabilityScoreRef s).
Proof.
  intros c i s Hr Hz. split.
  - intros landmarks Hl Hfull Hprev. cbv zeta.
    destruct (adaptiveSmoothLandmarks_full landmarks
                (Pipeline.prevLandmarksRef s) Hfull Hprev) as (sm & Hsm & Hs).
    destruct (fullPose_nth landmarks 23 Hfull) as [l23 L23]; [lia|].
    destruct (fullPose_nth landmarks 24 Hfull) as [l24 L24]; [lia|].
    destruct (fullPose_nth sm 23 Hs) as [s23 S23]; [lia|].
    destruct (fullPose_nth sm 24 Hs) as [s24 S24]; [lia|].
    destruct (detectPose_stability c i s landmarks sm l23 l24 s23 s24
                Hr Hz Hl Hsm Hs L23 L24 S23 S24) as [H1 H2].
    exists sm, l23, l24, s23, s24. repeat split; assumption.
  - intros Hl. rewrite (detectPose_unfold c i s Hr Hz), Hl.
    destruct (publish_keeps c i
                (snd (Pipeline.withLandmarks c i None
                        (Pipeline.mkFrame (persistedState i s) LOST 0
                           [ClearRect] []))))
      as (_ & _ & _ & _ & E5 & _).
    rewrite E5, withLandmarks_none_keeps_stability. cbn [Pipeline.state].
    apply persistedState_keeps.
Qed.

Lemma poseOf_full (f : nat -> NormalizedLandmark) : fullPose (poseOf f).
Proof. reflexivity. Qed.

(** Smoothing [movedPose] over [stillPose]: a hip moved by 0.1, far above
    the upper threshold, so it is blended at 0.92. *)
Lemma movedPose_smoothed :
  exists sm,
    Smoother.adaptiveSmoothLandmarks movedPose (Some stillPose) = Normal sm /\
    fullPose sm /\
    nth_error sm 23 = Some (mkLandmark (lerp 0.5 0.6 0.92) (lerp 0.5 0.5 0.92)
                              (lerp 0 0 0.92) (Some 0.9)) /\
    nth_error sm 24 = Some (mkLandmark (lerp 0.5 0.6 0.92) (lerp 0.5 0.5 0.92)
                              (lerp 0 0 0.92) (Some 0.9)).
Proof.
  destruct (adaptiveSmoothLandmarks_full movedPose (Some stillPose)
              (poseOf_full _)) as (sm & Hsm & Hfull).
  { intros p [= <-]. apply poseOf_full. }
  assert (Hhip : forall k, k = 23%nat \/ k = 24%nat ->
            nth_error sm k
            = Some (mkLandmark (lerp 0.5 0.6 0.92) (lerp 0.5 0.5 0.92)
                      (lerp 0 0 0.92) (Some 0.9))).
  { intros k Hk.
    assert (Hc : nth_error movedPose k = Some (lmAt 0.6 0.5))
      by (destruct Hk as [-> | ->]; reflexivity).
    destruct (adaptiveSmoothLandmarks_nth _ _ _ _ _ Hsm Hc) as (p & Hp & Ho).
    assert (Ep : p = lmAt 0.5 0.5).
    { destruct Hk as [-> | ->]; cbn in Hp; now injection Hp as <-. }
    subst p. cbv zeta in Ho. rewrite Ho.
    rewrite blendFactor_saturates; [reflexivity|].
    eapply Rle_trans; [|apply metricOf_ge_local].
    cbn [x y lmAt].
    replace (0.6 - 0.5) with 0.1 by lra. replace (0.5 - 0.5) with 0 by lra.
    rewrite hypot_nonneg_0; lra. }
  exists sm. split; [exact Hsm|]. split; [exact Hfull|].
  split; apply Hhip; [now left | now right].
Qed.

(** C1: the code departs from the claim.  The claim has the distance
    between this frame's smoothed hip midpoint and the previous frame's, and
    no update without a previous set.  Line 577 stores this frame's smoothed
    set in [prevLandmarksRef] before lines 586-594 read it as the previous
    one, so the guard of line 586 never fails and the previous frame is not
    what the hips are compared with.  On a subject tracked at rest whose
    hips move by 0.1 the claim gives 0 * 0.9 + 0.092 * 0.1 = 0.0092 and the
    code 0.0008 (the distance from the frame's raw hips to its own smoothed
    hips is 0.008); after a tracking loss, with no retained set, the claim
    leaves the score at 0.01 and the code decays it to 0.009. *)
Lemma stability_update_differs_from_claim :
  (claimedStability trackedState movedPose = Normal 0.0092 /\
   Pipeline.stabilityScoreRef
     (Pipeline.state
        (Pipeline.detectPose sampleClosure (frameAt 1033 (Some movedPose))
           trackedState))
   = 0.0008) /\
  (claimedStability lostState stillPose = Normal 0.01 /\
   Pipeline.stabilityScoreRef
     (Pipeline.state
        (Pipeline.detectPose sampleClosure (frameAt 2000 (Some stillPose))
           lostState))
   = 0.009).
Proof.
  split; split.
  - destruct movedPose_smoothed as (sm & Hsm & Hfull & S23 & S24).
    unfold claimedStability. cbn [Pipeline.prevLandmarksRef trackedState
                                  Pipeline.stabilityScoreRef].
    rewrite Hsm. cbn [bind].
    rewrite (hipMidpoint_defined sm _ _ S23 S24).
    rewrite (hipMidpoint_defined stillPose (lmAt 0.5 0.5) (lmAt 0.5 0.5)
               eq_refl eq_refl).
    cbn [bind fst snd x y lmAt]. f_equal. unfold lerp.
    replace ((0.5 + (0.6 - 0.5) * 0.92 + (0.5 + (0.6 - 0.5) * 0.92)) / 2
             - (0.5 + 0.5) / 2) with 0.092 by lra.
    replace ((0.5 + (0.5 - 0.5) * 0.92 + (0.5 + (0.5 - 0.5) * 0.92)) / 2
             - (0.5 + 0.5) / 2) with 0 by lra.
    rewrite hypot_nonneg_0; lra.
  - destruct movedPose_smoothed as (sm & Hsm & Hfull & S23 & S24).
    destruct (detectPose_stability sampleClosure
                (frameAt 1033 (Some movedPose)) trackedState movedPose sm
                (lmAt 0.6 0.5) (lmAt 0.6 0.5) _ _
                eq_refl sampleDims_nonzero eq_refl Hsm Hfull
                eq_refl eq_refl S23 S24) as [_ ->].
    cbn [Pipeline.stabilityScoreRef trackedState x y lmAt]. unfold lerp.
    replace ((0.6 + 0.6) / 2
             - (0.5 + (0.6 - 0.5) * 0.92 + (0.5 + (0.6 - 0.5) * 0.92)) / 2)
      with 0.008 by lra.
    replace ((0.5 + 0.5) / 2
             - (0.5 + (0.5 - 0.5) * 0.92 + (0.5 + (0.5 - 0.5) * 0.92)) / 2)
      with 0 by lra.
    rewrite hypot_nonneg_0; lra.
  - reflexivity.
  - destruct (detectPose_stability sampleClosure
                (frameAt 2000 (Some stillPose)) lostState stillPose stillPose
                (lmAt 0.5 0.5) (lmAt 0.5 0.5) (lmAt 0.5 0.5) (lmAt 0.5 0.5)
                eq_refl sampleDims_nonzero eq_refl eq_refl (poseOf_full _)
                eq_refl eq_refl eq_refl eq_refl) as [_ ->].
    cbn [Pipeline.stabilityScoreRef lostState x y lmAt].
    replace ((0.5 + 0.5) / 2 - (0.5 + 0.5) / 2) with 0 by lra.
    rewrite hypot_0_0. lra.
Qed.

Lemma stability_moves_by_distance_to_retained_set_witness :
  exists (retained : Landmarks) (l23 l24 r23 r24 : NormalizedLandmark),
    Pipeline.prevLandmarksRef
      (Pipeline.state
         (Pipeline.detectPose sampleClosure (frameAt 1033 (Some movedPose))
            trackedState)) = Some retained /\
    nth_error movedPose 23 = Some l23 /\ nth_error movedPose 24 = Some l24 /\
    nth_error retained 23 = Some r23 /\ nth_error retained 24 = Some r24 /\
    Pipeline.stabilityScoreRef
      (Pipeline.state
         (Pipeline.detectPose sampleClosure (frameAt 1033 (Some movedPose))
            trackedState))
    = Pipeline.stabilityScoreRef trackedState * 0.9
      + hypot ((x l23 + x l24) / 2 - (x r23 + x r24) / 2)
              ((y l23 + y l24) / 2 - (y r23 + y r24) / 2) * 0.1.
Proof.
  apply (proj1 (stability_moves_by_distance_to_retained_set sampleClosure
                  (frameAt 1033 (Some movedPose)) trackedState eq_refl
                  sampleDims_nonzero) movedPose eq_refl (poseOf_full _)).
  intros p [= <-]. apply poseOf_full.
Defined.

(** ** Tracking quality *)

Lemma classify_spec (score : R) :
  (Tracking.classify score = GOOD <-> score > 0.8) /\
  (Tracking.classify score = POOR <-> 0.5 < score <= 0.8) /\
  (Tracking.classify score = LOST <-> score <= 0.5).
Proof.
  unfold Tracking.classify.
  cases_R; repeat split; intros; try discriminate; try reflexivity; lra.
Qed.

Lemma torsoEnds_cases (sm : Landmarks) :
  (exists s11 s12 s23 s24,
     nth_error sm 11 = Some s11 /\ nth_error sm 12 = Some s12 /\
     nth_error sm 23 = Some s23 /\ nth_error sm 24 = Some s24) \/
  Overlay.torsoEnds sm = Throw.
Proof.
  unfold Overlay.torsoEnds.
  destruct (nth_error sm 11) as [s11|]; [|now right].
  destruct (nth_error sm 12) as [s12|]; [|now right].
  destruct (nth_error sm 23) as [s23|]; [|now right].
  destruct (nth_error sm 24) as [s24|]; [|now right].
  left. exists s11, s12, s23, s24. repeat split.
Qed.

Section QualityOfFrame.

Import Pipeline.

Variables (c : Closure) (i : Input).

Lemma classified_trackLandmarks (landmarks : Landmarks) :
  stable classified (trackLandmarks c (viewport (dims i)) landmarks).
Proof.
  intros fr H.
  destruct (Smoother.adaptiveSmoothLandmarks landmarks
              (prevLandmarksRef (state fr))) as [sm|] eqn:Hsm.
  - destruct (torsoEnds_cases sm)
      as [(s11 & s12 & s23 & s24 & S11 & S12 & S23 & S24) | Ht].
    + rewrite (trackLandmarks_runs c i landmarks sm s11 s12 s23 s24 fr
                 Hsm S11 S12 S23 S24).
      reflexivity.
    + rewrite trackLandmarks_throws; [exact H|].
      right. exists sm. now split.
  - rewrite trackLandmarks_throws; [exact H | now left].
Qed.

Lemma classified_trackingLost : stable classified (trackingLost i).
Proof.
  intros fr H. unfold trackingLost, mbind, getState.
  destruct (now i - lastLandmarksTimeRef (state fr) >? 200)%Z; [|exact H].
  unfold classified. cbn. symmetry. apply classify_spec. lra.
Qed.

Lemma classified_tryBlock : stable classified (tryBlock c i).
Proof.
  unfold tryBlock, noteMask, persistLandmarks, withLandmarks. cbv zeta.
  stable_walk ltac:(first
    [ stable_atom
    | apply classified_trackLandmarks
    | apply classified_trackingLost
    | match goal with
      | |- stable _ (paintMask _ _) =>
          unfold paintMask
      | |- stable _ (updateStability _) => unfold updateStability
      | |- stable _ (updateHeuristic _ _ _) => unfold updateHeuristic
      end ]).
Qed.

Lemma detectPose_classified (s : State) : classified (detectPose c i s).
Proof.
  assert (H0 : forall cv, classified (mkFrame s LOST 0 cv [])).
  { intros cv. unfold classified. cbn. symmetry. apply classify_spec. lra. }
  unfold detectPose. destruct (negb (ready i) || zeroDims (dims i)).
  - apply H0.
  - pose proof (classified_tryBlock _ (H0 [ClearRect])) as H.
    unfold classified in *.
    destruct (publish_keeps c i
                (snd (tryBlock c i (mkFrame s LOST 0 [ClearRect] []))))
      as (E1 & E2 & _).
    now rewrite E1, E2.
Qed.

End QualityOfFrame.

(** C4: the classification is a function of the score alone: GOOD exactly
    when [score > 0.8], POOR exactly when [0.5 < score <= 0.8], LOST
    otherwise; 0.81, 0.8, 0.51, 0.5 and 0.2 classify as GOOD, POOR, POOR,
    LOST and LOST; and the quality of every frame is the class of that
    frame's score. *)
Theorem classify_thresholds :
  (forall score,
     (Tracking.classify score = GOOD <-> score > 0.8) /\
     (Tracking.classify score = POOR <-> 0.5 < score <= 0.8) /\
     (Tracking.classify score = LOST <-> score <= 0.5)) /\
  Tracking.classify 0.81 = GOOD /\
  Tracking.classify 0.8 = POOR /\
  Tracking.classify 0.51 = POOR /\
  Tracking.classify 0.5 = LOST /\
  Tracking.classify 0.2 = LOST /\
  (forall (c : Pipeline.Closure) (i : Pipeline.Input) (s : Pipeline.State),
     Pipeline.currentQuality (Pipeline.detectPose c i s)
     = Tracking.classify (Pipeline.currentScore (Pipeline.detectPose c i s))).
Proof.
  split; [exact classify_spec|].
  split; [apply classify_spec; lra|]. split; [apply classify_spec; lra|].
  split; [apply classify_spec; lra|]. split; [apply classify_spec; lra|].
  split; [apply classify_spec; lra|].
  exact detectPose_classified.
Qed.

(** ** The overlay and missing landmarks *)

Section MissingLandmarks.

Variables (vp : Viewport) (workout : WorkoutType) (sm : Landmarks).

(** [drawMusclePart] paints nothing when an end point is missing, and one
    shape when both are there (line 437). *)
Lemma drawMusclePart_missing (startIdx endIdx : nat) (key : PartKey) :
  nth_error sm startIdx = None \/ nth_error sm endIdx = None ->
  Overlay.drawMusclePart vp workout sm startIdx endIdx key = [].
Proof.
  intros [H | H]; unfold Overlay.drawMusclePart; rewrite H;
    [reflexivity | destruct (nth_error sm startIdx); reflexivity].
Qed.

Lemma drawMusclePart_present (startIdx endIdx : nat) (key : PartKey)
  (a b : NormalizedLandmark) :
  nth_error sm startIdx = Some a -> nth_error sm endIdx = Some b ->
  Overlay.drawMusclePart vp workout sm startIdx endIdx key
    = [Overlay.musclePartOp vp workout a b key].
Proof.
  intros Ha Hb. unfold Overlay.drawMusclePart. now rewrite Ha, Hb.
Qed.

End MissingLandmarks.

(** With the torso's four landmarks there, the frame paints the torso, then
    every muscle part whose two end points are there and no other, then the
    welds. *)
Lemma anatomy_painted_when_torso_present (c : Pipeline.Closure)
  (i : Pipeline.Input) (landmarks sm : Landmarks)
  (s11 s12 s23 s24 : NormalizedLandmark) (fr : Pipeline.Frame) :
  Smoother.adaptiveSmoothLandmarks landmarks
    (Pipeline.prevLandmarksRef (Pipeline.state fr)) = Normal sm ->
  nth_error sm 11 = Some s11 -> nth_error sm 12 = Some s12 ->
  nth_error sm 23 = Some s23 -> nth_error sm 24 = Some s24 ->
  Pipeline.canvas
    (snd (Pipeline.trackLandmarks c (viewport (Pipeline.dims i)) landmarks fr))
  = (Pipeline.canvas fr
     ++ anatomyOps c (viewport (Pipeline.dims i)) sm s11 s12 s23 s24)%list.
Proof.
  intros Hsm S11 S12 S23 S24.
  now rewrite (trackLandmarks_runs c i landmarks sm s11 s12 s23 s24 fr
                 Hsm S11 S12 S23 S24).
Qed.

(** With a landmark array that stops before index 25, the first frame
    paints nothing of the anatomy: lines 484-485 throw before any shape is
    drawn, and the [catch] ends the frame. *)
Lemma short_pose_aborts_rendering (c : Pipeline.Closure) (i : Pipeline.Input)
  (s : Pipeline.State) (landmarks : Landmarks) :
  Pipeline.ready i = true -> Pipeline.zeroDims (Pipeline.dims i) = false ->
  Pipeline.detected i = Some landmarks ->
  (List.length landmarks <= 24)%nat ->
  Pipeline.prevLandmarksRef s = None ->
  Pipeline.canvas (Pipeline.detectPose c i s)
    = ClearRect :: maskOps i (persistedState i s).
Proof.
  intros Hr Hz Hd Hlen Hp.
  rewrite (detectPose_unfold c i s Hr Hz).
  assert (Hl : frameLandmarks i s = Some landmarks)
    by (unfold frameLandmarks; now rewrite Hd).
  rewrite Hl. unfold Pipeline.withLandmarks. cbv zeta.
  rewrite (mbind_Normal _ _ _ _ _ (paintMask_runs i _)).
  rewrite (mbind_Throw _ _ _
             (painted (maskOps i (persistedState i s))
                (Pipeline.mkFrame (persistedState i s) LOST 0 [ClearRect] []))).
  - destruct (publish_keeps c i
                (painted (maskOps i (persistedState i s))
                   (Pipeline.mkFrame (persistedState i s) LOST 0
                      [ClearRect] []))) as (_ & _ & E3 & _).
    cbn [snd]. rewrite E3. reflexivity.
  - apply trackLandmarks_throws. right. exists landmarks.
    cbn [Pipeline.state painted].
    rewrite (proj1 (persistedState_keeps i s)), Hp.
    split; [reflexivity | now apply torsoEnds_throws].
Qed.

(** C9 fails on the code at [hiplessPose].  Both end points of the left
    upper arm (11 and 13) are there and [drawMusclePart] would paint it, but
    landmark 24 is read unguarded for the torso: the frame's canvas holds the
    clearing and the compositing mode only, no shape at all. *)
Theorem missing_hip_aborts_the_frame :
  nth_error hiplessPose 24 = None /\
  Overlay.drawMusclePart (viewport sampleDims) SQUAT hiplessPose 11 13
    upperArm
  = [Overlay.musclePartOp (viewport sampleDims) SQUAT (armsDownPose 11)
       (armsDownPose 13) upperArm] /\
  Pipeline.canvas
    (Pipeline.detectPose sampleClosure (frameAt 1000 (Some hiplessPose))
       Pipeline.initialState)
  = [ClearRect; SetComposite source_over].
Proof.
  split; [reflexivity|]. split.
  - apply drawMusclePart_present; reflexivity.
  - rewrite (short_pose_aborts_rendering sampleClosure
               (frameAt 1000 (Some hiplessPose)) Pipeline.initialState
               hiplessPose eq_refl sampleDims_nonzero eq_refl);
      [reflexivity | cbn; lia | reflexivity].
Qed.

(** ** A whole frame on a full pose *)

(** What one frame does to the heuristic state when it works on a full
    pose: nothing throws, the retained set stays a full pose, and the
    analyzer runs exactly when the session is active and more than 500 ms
    have passed, on the frame's landmarks and the score just updated. *)
Lemma detectPose_full_frame (c : Pipeline.Closure) (i : Pipeline.Input)
  (s : Pipeline.State) (landmarks : Landmarks) :
  Pipeline.ready i = true -> Pipeline.zeroDims (Pipeline.dims i) = false ->
  frameLandmarks i s = Some landmarks -> fullPose landmarks ->
  (forall p, Pipeline.prevLandmarksRef s = Some p -> fullPose p) ->
  let fr := Pipeline.detectPose c i s in
  (forall p, Pipeline.prevLandmarksRef (Pipeline.state fr) = Some p ->
             fullPose p) /\
  if Pipeline.isActive c
     && (Pipeline.heuristicNow i - Pipeline.lastHeuristicUpdateRef s >? 500)%Z
  then
    Pipeline.analyzerCalls fr
    = [Pipeline.mkCall landmarks (Pipeline.workoutType c)
         (Pipeline.stabilityScoreRef (Pipeline.state fr))]
    /\ Pipeline.lastHeuristicUpdateRef (Pipeline.state fr)
       = Pipeline.heuristicNow i
    /\ Analyzer.analyzePose landmarks (Pipeline.workoutType c)
         (Pipeline.stabilityScoreRef (Pipeline.state fr))
       = Normal (Pipeline.heuristicFeedback (Pipeline.state fr))
  else
    Pipeline.analyzerCalls fr = []
    /\ Pipeline.lastHeuristicUpdateRef (Pipeline.state fr)
       = Pipeline.lastHeuristicUpdateRef s
    /\ Pipeline.heuristicFeedback (Pipeline.state fr)
       = Pipeline.heuristicFeedback s.
Proof.
  intros Hr Hz Hl Hfull Hprev. cbv zeta.
  destruct (adaptiveSmoothLandmarks_full landmarks
              (Pipeline.prevLandmarksRef s) Hfull Hprev) as (sm & Hsm & Hs).
  destruct (fullPose_nth landmarks 23 Hfull) as [l23 L23]; [lia|].
  destruct (fullPose_nth landmarks 24 Hfull) as [l24 L24]; [lia|].
  destruct (fullPose_nth sm 23 Hs) as [s23 S23]; [lia|].
  destruct (fullPose_nth sm 24 Hs) as [s24 S24]; [lia|].
  rewrite (detectPose_unfold c i s Hr Hz), Hl.
  destruct (persistedState_keeps i s) as [Hp Hst].
  set (fr0 := Pipeline.mkFrame (persistedState i s) LOST 0 [ClearRect] []).
  assert (Hsm0 : Smoother.adaptiveSmoothLandmarks landmarks
                   (Pipeline.prevLandmarksRef (Pipeline.state fr0))
                 = Normal sm)
    by (subst fr0; cbn [Pipeline.state]; rewrite Hp; exact Hsm).
  destruct (withLandmarks_reaches_heuristic c i landmarks sm l23 l24 s23 s24
              fr0 Hsm0 Hs L23 L24 S23 S24) as (F & -> & HF & HFc).
  pose proof (updateHeuristic_runs c i landmarks F Hfull) as Hh.
  cbv zeta in Hh. destruct Hh as (Hp' & Hst' & Hh).
  destruct (publish_state_untouched c i
              (snd (Pipeline.updateHeuristic c i landmarks F)))
    as (E1 & E2 & _ & E4).
  destruct (publish_keeps c i
              (snd (Pipeline.updateHeuristic c i landmarks F)))
    as (_ & _ & _ & E5 & E6 & _).
  rewrite E1, E2, E4, E5, E6, Hp', Hst'.
  assert (HlastF : Pipeline.lastHeuristicUpdateRef (Pipeline.state F)
                   = Pipeline.lastHeuristicUpdateRef s).
  { rewrite HF. subst fr0. cbn [Pipeline.state]. unfold persistedState.
    destruct (Pipeline.segmentationMask i), (Pipeline.detected i);
      reflexivity. }
  assert (HfbF : Pipeline.heuristicFeedback (Pipeline.state F)
                 = Pipeline.heuristicFeedback s).
  { rewrite HF. subst fr0. cbn [Pipeline.state]. unfold persistedState.
    destruct (Pipeline.segmentationMask i), (Pipeline.detected i);
      reflexivity. }
  rewrite HlastF, HfbF, HFc in Hh. split.
  - rewrite HF. cbn. intros p [= <-]. exact Hs.
  - exact Hh.
Qed.

(** Of three frames of an active session at 1000, 1200 and 1600 ms, the
    first and the third call the analyzer. *)
Lemma evaluationTimes_of_three_frames :
  evaluationTimes
    [ (activeClosure, frameAt 1000 (Some stillPose));
      (activeClosure, frameAt 1200 (Some stillPose));
      (activeClosure, frameAt 1600 (Some stillPose)) ]
    Pipeline.initialState
  = [1000; 1600]%Z.
Proof.
  cbn [evaluationTimes]. cbv zeta.
  pose proof (detectPose_full_frame activeClosure
                (frameAt 1000 (Some stillPose)) Pipeline.initialState
                stillPose eq_refl sampleDims_nonzero eq_refl (poseOf_full _))
    as H1.
  cbv zeta in H1. destruct H1 as (P1 & C1 & T1 & _); [discriminate|].
  set (s1 := Pipeline.state _) in *.
  pose proof (detectPose_full_frame activeClosure
                (frameAt 1200 (Some stillPose)) s1
                stillPose eq_refl sampleDims_nonzero eq_refl (poseOf_full _)
                P1) as H2.
  cbv zeta in H2. rewrite T1 in H2. destruct H2 as (P2 & C2 & T2 & _).
  set (s2 := Pipeline.state (Pipeline.detectPose _ (frameAt 1200 _) _)) in *.
  pose proof (detectPose_full_frame activeClosure
                (frameAt 1600 (Some stillPose)) s2
                stillPose eq_refl sampleDims_nonzero eq_refl (poseOf_full _)
                P2) as H3.
  cbv zeta in H3. rewrite T2 in H3. destruct H3 as (_ & C3 & _).
  rewrite C1, C2, C3. reflexivity.
Qed.

(** A frame with a detection keeps the landmarks as detected, with the
    time of the frame, for the grace window. *)
Lemma detection_is_kept (c : Pipeline.Closure) (i : Pipeline.Input)
  (s : Pipeline.State) (landmarks : Landmarks) :
  Pipeline.ready i = true -> Pipeline.zeroDims (Pipeline.dims i) = false ->
  Pipeline.detected i = Some landmarks ->
  Pipeline.lastValidLandmarksRef (Pipeline.state (Pipeline.detectPose c i s))
    = Some landmarks /\
  Pipeline.lastLandmarksTimeRef (Pipeline.state (Pipeline.detectPose c i s))
    = Pipeline.now i.
Proof.
  intros Hr Hz Hd. rewrite (detectPose_unfold c i s Hr Hz).
  set (fr0 := Pipeline.mkFrame (persistedState i s) LOST 0 [ClearRect] []).
  destruct (publish_state_untouched c i
              (snd (Pipeline.withLandmarks c i (frameLandmarks i s) fr0)))
    as (_ & _ & E3 & _).
  destruct (publish_keeps c i
              (snd (Pipeline.withLandmarks c i (frameLandmarks i s) fr0)))
    as (_ & _ & _ & _ & _ & E6).
  rewrite E3, E6.
  apply (withLandmarks_keeps_lastValid c i (frameLandmarks i s)
           (Some landmarks) (Pipeline.now i) fr0).
  subst fr0. cbn [Pipeline.state]. unfold persistedState. rewrite Hd.
  split; reflexivity.
Qed.

(** * Further properties of the code *)

(** ** The angle at a joint *)

Lemma atan2_bound (v u : R) : - PI < atan2 v u <= PI.
Proof.
  pose proof PI_RGT_0 as Hpi. pose proof (atan_bound (v / u)) as Hb.
  unfold atan2.
  destruct (Rlt_dec 0 u) as [Hu|Hu]; [lra|].
  destruct (Rlt_dec u 0) as [Hu'|Hu'].
  - assert (Hinv : / u < 0) by (apply Rinv_lt_0_compat; exact Hu').
    destruct (Rle_dec 0 v) as [Hv|Hv].
    + assert (v / u <= 0) by (unfold Rdiv; nra).
      assert (atan (v / u) <= 0).
      { destruct (Req_dec (v / u) 0) as [E|E].
        - rewrite E, atan_0. lra.
        - rewrite <- atan_0. left. apply atan_increasing. lra. }
      lra.
    + assert (0 < v / u) by (unfold Rdiv; nra).
      assert (0 < atan (v / u))
        by (rewrite <- atan_0; apply atan_increasing; assumption).
      lra.
  - destruct (Rlt_dec 0 v); [lra|]. destruct (Rlt_dec v 0); lra.
Qed.

(** The fold of lines 20-21 brings any difference of two directions into
    [0, 180]. *)
Lemma fold_angle_range (r : R) :
  - (2 * PI) < r < 2 * PI ->
  let angle := Rabs (r * 180 / PI) in
  0 <= (if angle >? 180 then 360 - angle else angle) <= 180.
Proof.
  intros Hr angle. pose proof PI_RGT_0 as Hpi.
  assert (Hu : -2 < r / PI < 2).
  { split.
    - apply Rmult_lt_reg_r with PI; [exact Hpi|]. unfold Rdiv.
      rewrite Rmult_assoc, Rinv_l by lra. lra.
    - apply Rmult_lt_reg_r with PI; [exact Hpi|]. unfold Rdiv.
      rewrite Rmult_assoc, Rinv_l by lra. lra. }
  assert (E : r * 180 / PI = 180 * (r / PI)) by (unfold Rdiv; ring).
  assert (Ha : 0 <= angle < 360).
  { subst angle. rewrite E. unfold Rabs.
    destruct (Rcase_abs (180 * (r / PI))); lra. }
  destruct (Rgtb_spec angle 180); lra.
Qed.

Lemma calculateAngle_unfold (a b c : NormalizedLandmark) :
  calculateAngle (Some a) (Some b) (Some c)
  = Normal (let radians := atan2 (y c - y b) (x c - x b)
                           - atan2 (y a - y b) (x a - x b) in
            let angle := Rabs (radians * 180 / PI) in
            if angle >? 180 then 360 - angle else angle).
Proof. reflexivity. Qed.

(** X1: [calculateAngle] returns exactly when its three points are there,
    and then the angle it gives lies in [0, 180] and does not depend on
    which of the two end points comes first. *)
Theorem calculateAngle_is_an_inner_angle :
  forall a b c : option NormalizedLandmark,
    ((exists angle, calculateAngle a b c = Normal angle)
     <-> a <> None /\ b <> None /\ c <> None) /\
    (forall angle, calculateAngle a b c = Normal angle ->
       0 <= angle <= 180 /\ calculateAngle c b a = Normal angle).
Proof.
  intros [a|] [b|] [c|]; split;
    try (split; [intros [angle H]; discriminate H
                | intros (Ha & Hb & Hc); congruence]);
    try (intros angle H; discriminate H).
  - split; [intros _; repeat split; discriminate|].
    intros _. eexists. apply calculateAngle_unfold.
  - intros angle H. rewrite calculateAngle_unfold in H.
    injection H as H. subst angle. cbv zeta. split.
    + apply fold_angle_range.
      pose proof (atan2_bound (y c - y b) (x c - x b)).
      pose proof (atan2_bound (y a - y b) (x a - x b)). lra.
    + rewrite calculateAngle_unfold. cbv zeta. f_equal.
      set (u := atan2 (y c - y b) (x c - x b)).
      set (v := atan2 (y a - y b) (x a - x b)).
      replace ((v - u) * 180 / PI) with (- ((u - v) * 180 / PI))
        by (unfold Rdiv; ring).
      rewrite Rabs_Ropp. reflexivity.
Qed.

Lemma atan2_scale (t v u : R) : 0 < t -> atan2 (t * v) (t * u) = atan2 v u.
Proof.
  intros Ht. unfold atan2.
  destruct (Rlt_dec 0 u).
  - destruct (Rlt_dec 0 (t * u)); [|exfalso; nra]. f_equal. field. lra.
  - destruct (Rlt_dec 0 (t * u)); [exfalso; nra|].
    destruct (Rlt_dec u 0).
    + destruct (Rlt_dec (t * u) 0); [|exfalso; nra].
      replace (t * v / (t * u)) with (v / u) by (field; lra).
      destruct (Rle_dec 0 v); destruct (Rle_dec 0 (t * v));
        try reflexivity; exfalso; nra.
    + destruct (Rlt_dec (t * u) 0); [exfalso; nra|].
      destruct (Rlt_dec 0 v); destruct (Rlt_dec 0 (t * v));
        try (exfalso; nra); try reflexivity.
      destruct (Rlt_dec v 0); destruct (Rlt_dec (t * v) 0);
        try (exfalso; nra); reflexivity.
Qed.

Lemma atan2_opposite (v u : R) :
  u <> 0 \/ v <> 0 -> Rabs (atan2 v u - atan2 (- v) (- u)) = PI.
Proof.
  intros Hne. pose proof PI_RGT_0 as Hpi. unfold atan2.
  assert (Eq : forall a, a <> 0 -> - v / - a = v / a)
    by (intros a Ha; field; exact Ha).
  destruct (Rlt_dec 0 u).
  - destruct (Rlt_dec 0 (- u)); [exfalso; lra|].
    destruct (Rlt_dec (- u) 0); [|exfalso; lra].
    rewrite Eq by lra.
    destruct (Rle_dec 0 (- v)).
    + replace (atan (v / u) - (atan (v / u) + PI)) with (- PI) by ring.
      rewrite Rabs_Ropp. apply Rabs_right. lra.
    + replace (atan (v / u) - (atan (v / u) - PI)) with PI by ring.
      apply Rabs_right. lra.
  - destruct (Rlt_dec u 0).
    + destruct (Rlt_dec 0 (- u)); [|exfalso; lra].
      rewrite Eq by lra.
      destruct (Rle_dec 0 v).
      * replace (atan (v / u) + PI - atan (v / u)) with PI by ring.
        apply Rabs_right. lra.
      * replace (atan (v / u) - PI - atan (v / u)) with (- PI) by ring.
        rewrite Rabs_Ropp. apply Rabs_right. lra.
    + destruct (Rlt_dec 0 (- u)); [exfalso; lra|].
      destruct (Rlt_dec (- u) 0); [exfalso; lra|].
      destruct (Rlt_dec 0 v).
      * destruct (Rlt_dec 0 (- v)); [exfalso; lra|].
        destruct (Rlt_dec (- v) 0); [|exfalso; lra].
        replace (PI / 2 - - (PI / 2)) with PI by field.
        apply Rabs_right. lra.
      * destruct (Rlt_dec v 0); [|exfalso; lra].
        destruct (Rlt_dec 0 (- v)); [|exfalso; lra].
        replace (- (PI / 2) - PI / 2) with (- PI) by field.
        rewrite Rabs_Ropp. apply Rabs_right. lra.
Qed.

Lemma degrees_abs (r : R) : Rabs (r * 180 / PI) = Rabs r * 180 / PI.
Proof.
  pose proof PI_RGT_0 as Hpi.
  replace (r * 180 / PI) with (r * (180 / PI)) by (unfold Rdiv; ring).
  rewrite Rabs_mult. rewrite (Rabs_right (180 / PI)).
  - unfold Rdiv. ring.
  - apply Rle_ge. apply Rlt_le. apply Rdiv_lt_0_compat; lra.
Qed.

(** A joint on the segment between its two neighbours, and strictly
    inside it, is straight. *)
Lemma calculateAngle_straight (a b c : NormalizedLandmark) (t : R) :
  0 < t -> x a <> x b \/ y a <> y b ->
  x c - x b = t * (x b - x a) -> y c - y b = t * (y b - y a) ->
  calculateAngle (Some a) (Some b) (Some c) = Normal 180.
Proof.
  intros Ht Hne Ex Ey. pose proof PI_RGT_0 as Hpi.
  rewrite calculateAngle_unfold. cbv zeta.
  rewrite Ex, Ey, atan2_scale by exact Ht.
  replace (y a - y b) with (- (y b - y a)) by ring.
  replace (x a - x b) with (- (x b - x a)) by ring.
  rewrite degrees_abs, atan2_opposite by (destruct Hne; [left|right]; lra).
  replace (PI * 180 / PI) with 180 by (field; lra).
  rewrite Rgtb_false by lra. reflexivity.
Qed.



(** ** What the analyzer needs, and what it can say *)

Lemma nth_error_defined (l : Landmarks) (k : nat) :
  (k < List.length l)%nat -> exists lm, nth_error l k = Some lm.
Proof.
  intros Hk. destruct (nth_error l k) as [lm|] eqn:E; [now exists lm|].
  apply nth_error_None in E. lia.
Qed.

Ltac unfold_rules :=
  unfold Analyzer.analyzePose, Analyzer.bodyScale, Analyzer.torsoHeight,
    Analyzer.shoulderWidth, Analyzer.squatRules, Analyzer.kneeWidth,
    Analyzer.ankleWidth, Analyzer.pushupRules, Analyzer.lungeRules,
    Analyzer.plankRules, Analyzer.bicepCurlRules, Analyzer.leftActive,
    Analyzer.rightActive, Analyzer.leftArmRules,
    Analyzer.leftElbowDrift, Analyzer.rightArmRules,
    Analyzer.rightElbowDrift, Analyzer.tricepRules, Analyzer.isVisible,
    Analyzer.orElse, Analyzer.returns, Analyzer.fallThrough;
  unfold Analyzer.leftShoulder, Analyzer.rightShoulder, Analyzer.leftElbow,
    Analyzer.rightElbow, Analyzer.leftWrist, Analyzer.rightWrist,
    Analyzer.leftHip, Analyzer.rightHip, Analyzer.leftKnee,
    Analyzer.rightKnee, Analyzer.leftAnkle, Analyzer.rightAnkle,
    Analyzer.leftHeel, Analyzer.rightHeel.

Lemma analyzePose_throws_without_hip (l : Landmarks) (workout : WorkoutType)
  (st : R) :
  nth_error l 24 = None -> Analyzer.analyzePose l workout st = Throw.
Proof.
  intros H24. unfold_rules. rewrite H24.
  destruct (nth_error l 11), (nth_error l 12), (nth_error l 23); reflexivity.
Qed.

Lemma analyzePose_returns (l : Landmarks) (workout : WorkoutType) (st : R) :
  (30 <= List.length l)%nat ->
  exists r, Analyzer.analyzePose l workout st = Normal r.
Proof.
  intros Hl.
  destruct (nth_error_defined l 11) as [ls H11]; [lia|].
  destruct (nth_error_defined l 12) as [rs H12]; [lia|].
  destruct (nth_error_defined l 13) as [le H13]; [lia|].
  destruct (nth_error_defined l 14) as [re H14]; [lia|].
  destruct (nth_error_defined l 15) as [lw H15]; [lia|].
  destruct (nth_error_defined l 16) as [rw H16]; [lia|].
  destruct (nth_error_defined l 23) as [lh H23]; [lia|].
  destruct (nth_error_defined l 24) as [rh H24]; [lia|].
  destruct (nth_error_defined l 25) as [lk H25]; [lia|].
  destruct (nth_error_defined l 26) as [rk H26]; [lia|].
  destruct (nth_error_defined l 27) as [la H27]; [lia|].
  destruct (nth_error_defined l 28) as [ra H28]; [lia|].
  destruct (nth_error_defined l 29) as [lheel H29]; [lia|].
  rewrite (analyzePose_unfold _ _ _ _ _ _ _ H11 H12 H23 H24). cbv zeta.
  destruct (bodyScaleOf ls rs lh rh <? 0.02); [eexists; reflexivity|].
  destruct (calculateAngle_defined ls le lw) as [angleL HL].
  destruct (calculateAngle_defined rs re rw) as [angleR HR].
  destruct workout; unfold_rules;
    rewrite ?H11, ?H12, ?H13, ?H14, ?H15, ?H16, ?H23, ?H24, ?H25, ?H26,
      ?H27, ?H28, ?H29; cbn [bind prop]; rewrite ?HL.
  1-5: split_ifs; eexists; reflexivity.
  destruct (y le <? y re); cbn [bind prop]; rewrite ?HL, ?HR;
    split_ifs; eexists; reflexivity.
Qed.

(** X3: the analyzer needs the two hips before anything else it decides,
    and uses no landmark past index 29: on an array that stops before the
    right hip (24) it throws, whatever the exercise, and on an array of 30 or
    more landmarks it returns. *)
Theorem analyzePose_throws_or_returns_by_length :
  forall (landmarks : Landmarks) (workout : WorkoutType) (stabilityScore : R),
    ((List.length landmarks <= 24)%nat ->
     Analyzer.analyzePose landmarks workout stabilityScore = Throw) /\
    ((30 <= List.length landmarks)%nat ->
     exists r,
       Analyzer.analyzePose landmarks workout stabilityScore = Normal r).
Proof.
  intros l workout st. split.
  - intros Hl. apply analyzePose_throws_without_hip.
    apply nth_error_None. exact Hl.
  - apply analyzePose_returns.
Qed.

(** Open the analyzer on an arbitrary array: every read and every test, in
    the order the source makes them. *)
Ltac walk_rules l :=
  repeat (cbn [bind prop];
          match goal with
          | |- context [nth_error l ?k] => destruct (nth_error l k)
          | |- context [calculateAngle (Some ?a) (Some ?b) (Some ?c)] =>
              let angle := fresh "angle" in
              destruct (calculateAngle_defined a b c) as [angle ->]
          | |- context [if ?b then _ else _] => destruct b
          end).

(** Whatever the landmarks, a cue the analyzer returns is one of the
    strings of the exercise's [case], and none of them is empty. *)
Lemma analyzePose_cue_cases (l : Landmarks) (workout : WorkoutType) (st : R)
  (cue : string) :
  Analyzer.analyzePose l workout st = Normal (Some cue) ->
  In cue (cuesOf workout) /\ cue <> EmptyString.
Proof.
  destruct workout; unfold_rules; walk_rules l;
    intros H; try discriminate H;
    injection H as <-; (split; [simpl; tauto | discriminate]).
Qed.

(** A subject in a wide stance, moving. *)
Lemma lunge_sample_cue :
  Analyzer.analyzePose (poseOf kneesInPose) LUNGE 0.01
  = Normal (Some "Balance & Control").
Proof.
  rewrite (analyzePose_unfold (poseOf kneesInPose) LUNGE 0.01
             (kneesInPose 11) (kneesInPose 12) (kneesInPose 23)
             (kneesInPose 24) eq_refl eq_refl eq_refl eq_refl).
  cbv zeta. rewrite Rltb_false by (cbv [kneesInPose]; solve_abs).
  unfold Analyzer.lungeRules. rewrite Rgtb_true by lra. reflexivity.
Qed.

(** X4: each exercise has its own cues: whatever the landmarks and the
    stability score, a cue that [analyzePose] returns for an exercise is one
    of the strings of that exercise's [case], and it is not the empty
    string. *)
Theorem analyzePose_cue_is_of_the_exercise :
  forall (landmarks : Landmarks) (workout : WorkoutType) (stabilityScore : R)
         (cue : string),
    Analyzer.analyzePose landmarks workout stabilityScore = Normal (Some cue) ->
    In cue (cuesOf workout) /\ cue <> EmptyString.
Proof.
  intros landmarks workout stabilityScore cue H.
  exact (analyzePose_cue_cases landmarks workout stabilityScore cue H).
Qed.

Lemma analyzePose_cue_is_of_the_exercise_witness :
  In "Balance & Control" (cuesOf LUNGE)
  /\ "Balance & Control" <> EmptyString.
Proof.
  exact (analyzePose_cue_is_of_the_exercise (poseOf kneesInPose) LUNGE 0.01
           "Balance & Control" lunge_sample_cue).
Defined.

(** ** Which cue can come when *)

(** As [walk_rules], keeping what each test decided. *)
Ltac walk_tests l :=
  repeat (cbn [bind prop andb orb negb];
          match goal with
          | |- context [nth_error l ?k] => destruct (nth_error l k)
          | |- context [calculateAngle (Some ?a) (Some ?b) (Some ?c)] =>
              let angle := fresh "angle" in
              destruct (calculateAngle_defined a b c) as [angle ->]
          | |- context [Rltb ?a ?b] => destruct (Rltb_spec a b)
          | |- context [Rgtb ?a ?b] => destruct (Rgtb_spec a b)
          | |- context [if ?b then _ else _] => destruct b
          end).

(** X5: steadiness and range never mix: a cue that asks the subject to
    hold still ("Balance & Control", "Keep Torso Still", "Hold Steady!") is
    given only at a stability score above 0.002, a cue about the range of a
    movement ("Curl up fully", "Full Range needed", "Extend Up", "Lower
    Behind Head") only at one below 0.001. *)
Theorem steadiness_and_range_cues_never_mix :
  forall (landmarks : Landmarks) (workout : WorkoutType) (stabilityScore : R)
         (cue : string),
    Analyzer.analyzePose landmarks workout stabilityScore = Normal (Some cue) ->
    (In cue steadinessCues -> stabilityScore > 0.002) /\
    (In cue rangeCues -> stabilityScore < 0.001).
Proof.
  intros l workout st cue.
  destruct workout; unfold_rules; walk_tests l;
    intros H; try discriminate H;
    injection H as <-;
    (split; intros Hin; cbn [In steadinessCues rangeCues] in Hin;
     repeat match goal with
            | H : _ \/ _ |- _ => destruct H
            | H : False |- _ => destruct H
            | H : @eq string _ _ |- _ => discriminate H
            end; lra).
Qed.

Lemma steadiness_and_range_cues_never_mix_witness :
  (In "Balance & Control" steadinessCues -> 0.01 > 0.002) /\
  (In "Balance & Control" rangeCues -> 0.01 < 0.001).
Proof.
  exact (steadiness_and_range_cues_never_mix (poseOf kneesInPose) LUNGE 0.01
           "Balance & Control" lunge_sample_cue).
Defined.

(** X6: no cue about an arm that is not seen working: in the bicep
    curl a cue about the left arm ("Tuck Left Elbow", "Curl up fully") is
    given only when the left wrist is above the left hip and visible above
    0.5, and "Tuck Right Elbow" only when the right wrist is above the right
    hip and visible above 0.5; in the tricep extension any cue at all needs
    the elbow and the wrist of the active arm (the one with the higher
    elbow) visible above 0.5. *)
Theorem arm_cues_need_a_visible_arm :
  forall (landmarks : Landmarks) (stabilityScore : R) (cue : string),
    (Analyzer.analyzePose landmarks BICEP_CURL stabilityScore
       = Normal (Some cue) ->
     (cue = "Tuck Left Elbow" \/ cue = "Curl up fully" ->
      exists lw lh,
        nth_error landmarks 15 = Some lw /\ nth_error landmarks 23 = Some lh /\
        y lw < y lh /\ orZero (visibility lw) > 0.5) /\
     (cue = "Tuck Right Elbow" ->
      exists rw rh,
        nth_error landmarks 16 = Some rw /\ nth_error landmarks 24 = Some rh /\
        y rw < y rh /\ orZero (visibility rw) > 0.5)) /\
    (Analyzer.analyzePose landmarks TRICEP_EXTENSION stabilityScore
       = Normal (Some cue) ->
     exists le re elbow wrist,
       nth_error landmarks 13 = Some le /\ nth_error landmarks 14 = Some re /\
       nth_error landmarks (if y le <? y re then 13 else 14) = Some elbow /\
       nth_error landmarks (if y le <? y re then 15 else 16) = Some wrist /\
       orZero (visibility elbow) > 0.5 /\ orZero (visibility wrist) > 0.5).
Proof.
  intros l st cue. split.
  - unfold_rules; walk_tests l; intros H; try discriminate H;
      injection H as <-;
      (split; [intros [E|E] | intros E]; try discriminate E;
       eexists; eexists; repeat split; try reflexivity; assumption).
  - unfold_rules.
    destruct (nth_error l 11) as [ls|]; [|intros H; discriminate H].
    destruct (nth_error l 12) as [rs|]; [|intros H; discriminate H].
    destruct (nth_error l 23) as [lh|];
      [|cbn [bind prop]; intros H; discriminate H].
    destruct (nth_error l 24) as [rh|];
      [|cbn [bind prop]; intros H; discriminate H].
    destruct (nth_error l 13) as [le|] eqn:E13;
      [|cbn [bind prop];
        match goal with |- context [if ?b then _ else _] => destruct b end;
        intros H; discriminate H].
    destruct (nth_error l 14) as [re|] eqn:E14;
      [|cbn [bind prop];
        match goal with |- context [if ?b then _ else _] => destruct b end;
        intros H; discriminate H].
    cbn [bind prop].
    destruct (nth_error l 15) as [lw|] eqn:E15;
      destruct (nth_error l 16) as [rw|] eqn:E16;
      destruct (y le <? y re) eqn:Hlt; walk_tests l;
      intros H; try discriminate H;
      (exists le, re; eexists; eexists; rewrite Hlt;
       repeat split; try reflexivity; try eassumption).
Qed.

(** ** A straight arm in the bicep curl *)

(** X7: a straight, still, working left arm is told to curl: in the
    bicep curl, with [bodyScale >= 0.02], when the left wrist is above the
    left hip and visible above 0.5, the left elbow is no further from the
    shoulder than 0.9 shoulder widths sideways and lies on the line from
    shoulder to wrist, strictly between them, and the stability score is
    below 0.001, the answer is "Curl up fully". *)
Theorem straight_still_arm_is_told_to_curl :
  forall (landmarks : Landmarks) (stabilityScore t : R)
         (ls rs le lw rw lh rh : NormalizedLandmark),
    nth_error landmarks 11 = Some ls -> nth_error landmarks 12 = Some rs ->
    nth_error landmarks 13 = Some le -> nth_error landmarks 15 = Some lw ->
    nth_error landmarks 16 = Some rw ->
    nth_error landmarks 23 = Some lh -> nth_error landmarks 24 = Some rh ->
    0.02 <= bodyScaleOf ls rs lh rh ->
    y lw < y lh -> orZero (visibility lw) > 0.5 ->
    Rabs (x le - x ls) <= Rabs (x ls - x rs) * 0.9 ->
    0 < t -> x ls <> x le \/ y ls <> y le ->
    x lw - x le = t * (x le - x ls) -> y lw - y le = t * (y le - y ls) ->
    stabilityScore < 0.001 ->
    Analyzer.analyzePose landmarks BICEP_CURL stabilityScore
    = Normal (Some "Curl up fully").
Proof.
  intros l st t ls rs le lw rw lh rh H11 H12 H13 H15 H16 H23 H24
    Hscale Hup Hvis Hdrift Ht Hne Ex Ey Hst.
  rewrite (analyzePose_unfold _ _ _ _ _ _ _ H11 H12 H23 H24). cbv zeta.
  rewrite Rltb_false by exact Hscale.
  unfold Analyzer.bicepCurlRules, Analyzer.leftActive, Analyzer.rightActive,
    Analyzer.leftArmRules, Analyzer.leftElbowDrift, Analyzer.isVisible,
    Analyzer.orElse, Analyzer.returns, Analyzer.fallThrough.
  unfold Analyzer.leftWrist, Analyzer.rightWrist, Analyzer.leftHip,
    Analyzer.rightHip, Analyzer.leftElbow, Analyzer.leftShoulder.
  rewrite H11, H13, H15, H16, H23, H24. cbn [bind prop].
  rewrite (Rltb_true (y lw) (y lh)) by exact Hup. cbn [bind prop].
  rewrite (Rgtb_true (orZero (visibility lw)) 0.5) by exact Hvis.
  destruct (y rw <? y rh); cbn [bind prop];
    try destruct (orZero (visibility rw) >? 0.5); cbn [bind prop];
    rewrite (Rgtb_false (Rabs (x le - x ls)) (Rabs (x ls - x rs) * 0.9))
      by exact Hdrift;
    rewrite (calculateAngle_straight ls le lw t Ht Hne Ex Ey);
    cbn [bind]; rewrite (Rgtb_true 180 160) by lra;
    rewrite (Rltb_true st 0.001) by exact Hst;
    reflexivity.
Qed.

Lemma straight_still_arm_is_told_to_curl_witness :
  Analyzer.analyzePose (poseOf armUpPose) BICEP_CURL 0
  = Normal (Some "Curl up fully").
Proof.
  apply (straight_still_arm_is_told_to_curl (poseOf armUpPose) 0 1
           (armUpPose 11) (armUpPose 12) (armUpPose 13) (armUpPose 15)
           (armUpPose 16) (armUpPose 23) (armUpPose 24));
    try reflexivity; cbv [armUpPose].
  - solve_abs.
  - cbn. lra.
  - cbn. lra.
  - solve_abs.
  - lra.
  - right. cbn. lra.
  - cbn. lra.
  - cbn. lra.
  - lra.
Defined.

(** ** The cue does not depend on where the subject stands *)





(** ** The smoother on short, still and fast frames *)

(** X9: with a previous set, the smoother returns exactly when that set is
    at least as long as the current one, and throws otherwise (it reads
    [prev[i].x] past the end); what it returns has as many landmarks as the
    current set, and without a previous set it returns the current set as it
    is. *)
Theorem adaptiveSmoothLandmarks_returns_iff_prev_covers :
  forall (current prev : Landmarks),
    ((exists out,
        Smoother.adaptiveSmoothLandmarks current (Some prev) = Normal out)
     <-> (List.length current <= List.length prev)%nat) /\
    ((List.length prev < List.length current)%nat ->
     Smoother.adaptiveSmoothLandmarks current (Some prev) = Throw) /\
    (forall (p : option Landmarks) (out : Landmarks),
       Smoother.adaptiveSmoothLandmarks current p = Normal out ->
       List.length out = List.length current) /\
    Smoother.adaptiveSmoothLandmarks current None = Normal current.
Proof.
  intros current prev.
  assert (Hiff : (exists out,
             Smoother.adaptiveSmoothLandmarks current (Some prev) = Normal out)
          <-> (List.length current <= List.length prev)%nat).
  { split; [|apply adaptiveSmoothLandmarks_returns].
    intros [out Hout].
    destruct (Nat.le_gt_cases (List.length current) (List.length prev))
      as [Hle|Hgt]; [exact Hle|exfalso].
    destruct (nth_error_defined current (List.length prev) Hgt) as [c Hc].
    destruct (adaptiveSmoothLandmarks_nth _ _ _ _ _ Hout Hc) as (p & Hp & _).
    assert (Hnone : nth_error prev (List.length prev) = None)
      by (apply nth_error_None; lia).
    congruence. }
  split; [exact Hiff|]. split; [|split].
  - intros Hgt.
    destruct (Smoother.adaptiveSmoothLandmarks current (Some prev))
      as [out|] eqn:E; [|reflexivity].
    exfalso. assert (List.length current <= List.length prev)%nat
      by (apply Hiff; now exists out). lia.
  - intros [p|] out Hout.
    + exact (mapFrom_length _ _ _ _ Hout).
    + injection Hout as <-. reflexivity.
  - reflexivity.
Qed.

Lemma hypot_nonneg (a b : R) : 0 <= hypot a b.
Proof. unfold hypot. apply sqrt_pos. Qed.

(** The sum and the count of the core loop, when no core landmark moved
    by more than [eps]. *)
Lemma coreStep_fold_bound (current prev : Landmarks) (eps : R) :
  (forall k c p, nth_error current k = Some c -> nth_error prev k = Some p ->
     hypot (x c - x p) (y c - y p) <= eps) ->
  forall (idxs : list nat) (acc : R * nat),
    0 <= fst acc <= eps * INR (snd acc) ->
    let r := fold_left (Smoother.coreStep current prev) idxs acc in
    0 <= fst r <= eps * INR (snd r).
Proof.
  intros Heps. induction idxs as [|idx idxs IH]; intros acc Hacc.
  - exact Hacc.
  - cbn [fold_left]. apply IH. unfold Smoother.coreStep.
    destruct (nth_error current idx) as [c|] eqn:Ec; [|exact Hacc].
    destruct (nth_error prev idx) as [p|] eqn:Ep; [|exact Hacc].
    cbn [fst snd]. rewrite S_INR.
    pose proof (Heps idx c p Ec Ep). pose proof (hypot_nonneg (x c - x p)
                                                    (y c - y p)).
    lra.
Qed.

Lemma globalVelocity_bound (current prev : Landmarks) (eps : R) :
  0 <= eps ->
  (forall k c p, nth_error current k = Some c -> nth_error prev k = Some p ->
     hypot (x c - x p) (y c - y p) <= eps) ->
  0 <= Smoother.globalVelocity current prev <= eps.
Proof.
  intros H0 Heps. unfold Smoother.globalVelocity.
  pose proof (coreStep_fold_bound current prev eps Heps Smoother.coreIndices
                (0, O)) as Hb.
  cbv zeta in Hb.
  destruct (fold_left (Smoother.coreStep current prev) Smoother.coreIndices
              (0, O)) as [t n].
  cbn [fst snd] in Hb. specialize (Hb ltac:(cbn [INR]; lra)).
  destruct (Nat.ltb_spec 0 n) as [Hn|Hn]; [|lra].
  assert (Hpos : 0 < INR n) by (apply lt_0_INR; exact Hn).
  split.
  - apply Rmult_le_reg_r with (INR n); [exact Hpos|].
    unfold Rdiv. rewrite Rmult_assoc, Rinv_l by lra. lra.
  - apply Rmult_le_reg_r with (INR n); [exact Hpos|].
    unfold Rdiv. rewrite Rmult_assoc, Rinv_l by lra. lra.
Qed.

(** X10: jitter is damped as hard as the smoother can: when no landmark is
    further than 0.0005 from its previous position, every landmark is
    blended with factor 0.08, the core velocity being no larger than the
    landmarks' own. *)
Theorem adaptiveSmoothLandmarks_damps_jitter :
  forall (current prev out : Landmarks),
    (forall k c p, nth_error current k = Some c -> nth_error prev k = Some p ->
       hypot (x c - x p) (y c - y p) <= 0.0005) ->
    Smoother.adaptiveSmoothLandmarks current (Some prev) = Normal out ->
    forall (k : nat) (c : NormalizedLandmark),
      nth_error current k = Some c ->
      exists p,
        nth_error prev k = Some p /\
        nth_error out k =
          Some {| x := lerp (x p) (x c) 0.08;
                  y := lerp (y p) (y c) 0.08;
                  z := lerp (z p) (z c) 0.08;
                  visibility := visibility c |}.
Proof.
  intros current prev out Hj Hout k c Hc.
  destruct (adaptiveSmoothLandmarks_nth _ _ _ _ _ Hout Hc) as (p & Hp & Ho).
  exists p. split; [exact Hp|]. cbv zeta in Ho. rewrite Ho.
  rewrite blendFactor_below; [reflexivity|].
  unfold Smoother.metricOf. cbv zeta.
  pose proof (Hj k c p Hc Hp).
  pose proof (globalVelocity_bound current prev 0.0005 ltac:(lra) Hj).
  apply Rmax_lub; lra.
Qed.

Lemma lerp_same (a alpha : R) : lerp a a alpha = a.
Proof. unfold lerp. ring. Qed.

Lemma hypot_same (a b : R) : hypot (a - a) (b - b) = 0.
Proof.
  replace (a - a) with 0 by ring. replace (b - b) with 0 by ring.
  apply hypot_0_0.
Qed.

(** A subject that does not move at all is left where it is. *)
Lemma adaptiveSmoothLandmarks_fixed (l : Landmarks) :
  Smoother.adaptiveSmoothLandmarks l (Some l) = Normal l.
Proof.
  destruct (adaptiveSmoothLandmarks_returns l l (Nat.le_refl _))
    as [out Hout].
  rewrite Hout. f_equal. apply nth_error_ext. intros k.
  destruct (nth_error l k) as [c|] eqn:Ec.
  - destruct (adaptiveSmoothLandmarks_nth _ _ _ _ _ Hout Ec) as (p & Hp & Ho).
    cbv zeta in Ho. rewrite Ec in Hp. injection Hp as <-.
    rewrite Ho, !lerp_same. destruct c; reflexivity.
  - apply nth_error_None. rewrite (mapFrom_length _ _ _ _ Hout).
    apply nth_error_None. exact Ec.
Qed.

Lemma adaptiveSmoothLandmarks_damps_jitter_witness :
  exists p,
    nth_error stillPose 23 = Some p /\
    nth_error stillPose 23 =
      Some {| x := lerp (x p) (x (lmAt 0.5 0.5)) 0.08;
              y := lerp (y p) (y (lmAt 0.5 0.5)) 0.08;
              z := lerp (z p) (z (lmAt 0.5 0.5)) 0.08;
              visibility := visibility (lmAt 0.5 0.5) |}.
Proof.
  apply (adaptiveSmoothLandmarks_damps_jitter stillPose stillPose stillPose).
  - intros k c p Hc Hp. rewrite Hc in Hp. injection Hp as <-.
    rewrite hypot_same. lra.
  - apply adaptiveSmoothLandmarks_fixed.
  - reflexivity.
Defined.

Lemma globalVelocity_of_core (current prev : Landmarks)
  (c11 c12 c23 c24 p11 p12 p23 p24 : NormalizedLandmark) :
  nth_error current 11 = Some c11 -> nth_error prev 11 = Some p11 ->
  nth_error current 12 = Some c12 -> nth_error prev 12 = Some p12 ->
  nth_error current 23 = Some c23 -> nth_error prev 23 = Some p23 ->
  nth_error current 24 = Some c24 -> nth_error prev 24 = Some p24 ->
  Smoother.globalVelocity current prev
  = (hypot (x c11 - x p11) (y c11 - y p11)
     + hypot (x c12 - x p12) (y c12 - y p12)
     + hypot (x c23 - x p23) (y c23 - y p23)
     + hypot (x c24 - x p24) (y c24 - y p24)) / 4.
Proof.
  intros C11 P11 C12 P12 C23 P23 C24 P24.
  unfold Smoother.globalVelocity, Smoother.coreIndices.
  cbn [fold_left]. unfold Smoother.coreStep.
  rewrite C11, P11, C12, P12, C23, P23, C24, P24. cbn [fst snd Nat.ltb Nat.leb].
  replace (INR 4) with 4 by (cbn [INR]; ring).
  f_equal. ring.
Qed.

(** X11: a fast move of the body overrides a landmark's own stillness: when
    each of the four core landmarks (shoulders and hips) moved by at least
    0.025 / 0.6 since the previous set, every landmark of the frame is
    blended with factor 0.92, however little it moved itself. *)
Theorem adaptiveSmoothLandmarks_follows_fast_core :
  forall (current prev out : Landmarks),
    (forall idx, In idx Smoother.coreIndices ->
       exists c p,
         nth_error current idx = Some c /\ nth_error prev idx = Some p /\
         0.025 <= hypot (x c - x p) (y c - y p) * 0.6) ->
    Smoother.adaptiveSmoothLandmarks current (Some prev) = Normal out ->
    forall (k : nat) (c : NormalizedLandmark),
      nth_error current k = Some c ->
      exists p,
        nth_error prev k = Some p /\
        nth_error out k =
          Some {| x := lerp (x p) (x c) 0.92;
                  y := lerp (y p) (y c) 0.92;
                  z := lerp (z p) (z c) 0.92;
                  visibility := visibility c |}.
Proof.
  intros current prev out Hcore Hout k c Hc.
  destruct (Hcore 11%nat) as (c11 & p11 & C11 & P11 & M11);
    [cbn; tauto|].
  destruct (Hcore 12%nat) as (c12 & p12 & C12 & P12 & M12);
    [cbn; tauto|].
  destruct (Hcore 23%nat) as (c23 & p23 & C23 & P23 & M23);
    [cbn; tauto|].
  destruct (Hcore 24%nat) as (c24 & p24 & C24 & P24 & M24);
    [cbn; tauto|].
  destruct (adaptiveSmoothLandmarks_nth _ _ _ _ _ Hout Hc) as (p & Hp & Ho).
  exists p. split; [exact Hp|]. cbv zeta in Ho. rewrite Ho.
  rewrite blendFactor_saturates; [reflexivity|].
  unfold Smoother.metricOf. cbv zeta.
  rewrite (globalVelocity_of_core _ _ _ _ _ _ _ _ _ _
             C11 P11 C12 P12 C23 P23 C24 P24).
  eapply Rle_trans; [|apply Rmax_r]. lra.
Qed.

(** The still pose, and the same pose one tenth of the picture to the
    right. *)
Lemma adaptiveSmoothLandmarks_follows_fast_core_witness :
  exists out p,
    Smoother.adaptiveSmoothLandmarks (map (translate 0.1 0 0) stillPose)
      (Some stillPose) = Normal out /\
    nth_error stillPose 0 = Some p /\
    nth_error out 0 =
      Some {| x := lerp (x p) (x (translate 0.1 0 0 (lmAt 0.5 0.5))) 0.92;
              y := lerp (y p) (y (translate 0.1 0 0 (lmAt 0.5 0.5))) 0.92;
              z := lerp (z p) (z (translate 0.1 0 0 (lmAt 0.5 0.5))) 0.92;
              visibility := visibility (translate 0.1 0 0 (lmAt 0.5 0.5)) |}.
Proof.
  destruct (adaptiveSmoothLandmarks_returns
              (map (translate 0.1 0 0) stillPose) stillPose)
    as [out Hout]; [cbn; lia|].
  destruct (adaptiveSmoothLandmarks_follows_fast_core
              (map (translate 0.1 0 0) stillPose) stillPose out)
    with (k := O) (c := translate 0.1 0 0 (lmAt 0.5 0.5))
    as (p & Hp & Ho).
  - intros idx Hidx.
    exists (translate 0.1 0 0 (lmAt 0.5 0.5)), (lmAt 0.5 0.5).
    assert (Hm : 0.025 <= hypot (x (translate 0.1 0 0 (lmAt 0.5 0.5))
                                 - x (lmAt 0.5 0.5))
                            (y (translate 0.1 0 0 (lmAt 0.5 0.5))
                             - y (lmAt 0.5 0.5)) * 0.6).
    { cbn [translate lmAt x y].
      replace (0.5 + 0.1 - 0.5) with 0.1 by lra.
      replace (0.5 + 0 - 0.5) with 0 by lra.
      rewrite hypot_nonneg_0 by lra. lra. }
    cbn [Smoother.coreIndices In] in Hidx.
    destruct Hidx as [<-|[<-|[<-|[<-|[]]]]];
      (split; [reflexivity | split; [reflexivity | exact Hm]]).
  - exact Hout.
  - reflexivity.
  - exists out, p. split; [exact Hout | split; [exact Hp | exact Ho]].
Defined.

(** ** The placement of the video *)



(** ** The tracking score *)

Lemma visStep_fold_bound (sm : Landmarks) :
  (forall k lm, nth_error sm k = Some lm -> 0 <= orZero (visibility lm) <= 1) ->
  forall (idxs : list nat) (acc : R * nat),
    0 <= fst acc <= INR (snd acc) ->
    let r := fold_left (Tracking.visStep sm) idxs acc in
    0 <= fst r <= INR (snd r).
Proof.
  intros Hv. induction idxs as [|idx idxs IH]; intros acc Hacc.
  - exact Hacc.
  - cbn [fold_left]. apply IH. unfold Tracking.visStep.
    destruct (nth_error sm idx) as [lm|] eqn:E; [|exact Hacc].
    cbn [fst snd]. rewrite S_INR. pose proof (Hv idx lm E). lra.
Qed.

Lemma rawScore_range (sm : Landmarks) :
  (forall k lm, nth_error sm k = Some lm -> 0 <= orZero (visibility lm) <= 1) ->
  0 <= Tracking.rawScore sm <= 1.
Proof.
  intros Hv. unfold Tracking.rawScore.
  pose proof (visStep_fold_bound sm Hv (seq 11 12) (0, O)) as Hb.
  cbv zeta in Hb.
  destruct (fold_left (Tracking.visStep sm) (seq 11 12) (0, O)) as [t n].
  cbn [fst snd] in Hb. specialize (Hb ltac:(cbn [INR]; lra)).
  destruct (Nat.ltb_spec 0 n) as [Hn|Hn]; [|lra].
  assert (Hpos : 0 < INR n) by (apply lt_0_INR; exact Hn).
  split.
  - apply Rmult_le_reg_r with (INR n); [exact Hpos|].
    unfold Rdiv. rewrite Rmult_assoc, Rinv_l by lra. lra.
  - apply Rmult_le_reg_r with (INR n); [exact Hpos|].
    unfold Rdiv. rewrite Rmult_assoc, Rinv_l by lra. lra.
Qed.

(** The smoother hands the visibilities on as they are. *)
Lemma adaptiveSmoothLandmarks_visibility (current : Landmarks)
  (prev : option Landmarks) (sm : Landmarks) (k : nat)
  (o : NormalizedLandmark) :
  Smoother.adaptiveSmoothLandmarks current prev = Normal sm ->
  nth_error sm k = Some o ->
  exists c, nth_error current k = Some c /\ visibility o = visibility c.
Proof.
  intros Hsm Ho. destruct prev as [prev|].
  - assert (Hlen : List.length sm = List.length current)
      by exact (mapFrom_length _ _ _ _ Hsm).
    destruct (nth_error current k) as [c|] eqn:Ec.
    + destruct (adaptiveSmoothLandmarks_nth _ _ _ _ _ Hsm Ec)
        as (p & _ & Ho').
      cbv zeta in Ho'. rewrite Ho in Ho'. injection Ho' as ->.
      exists c. split; reflexivity.
    + apply nth_error_None in Ec.
      assert (nth_error sm k = None) by (apply nth_error_None; lia).
      congruence.
  - injection Hsm as <-. exists o. split; [exact Ho | reflexivity].
Qed.

Section ScoreOfFrame.

Import Pipeline.

Variables (c : Closure) (i : Input).

Lemma fractions_trackLandmarks (landmarks : Landmarks) :
  (forall k lm, nth_error landmarks k = Some lm ->
     0 <= orZero (visibility lm) <= 1) ->
  stable fractions (trackLandmarks c (viewport (dims i)) landmarks).
Proof.
  intros Hv fr H.
  destruct (Smoother.adaptiveSmoothLandmarks landmarks
              (prevLandmarksRef (state fr))) as [sm|] eqn:Hsm.
  - destruct (torsoEnds_cases sm)
      as [(s11 & s12 & s23 & s24 & S11 & S12 & S23 & S24) | Ht].
    + rewrite (trackLandmarks_runs c i landmarks sm s11 s12 s23 s24 fr
                 Hsm S11 S12 S23 S24).
      cbv zeta. destruct H as [_ H]. split; [|exact H]. cbn [snd currentScore].
      assert (Hraw : 0 <= Tracking.rawScore sm <= 1).
      { apply rawScore_range. intros k o Ho.
        destruct (adaptiveSmoothLandmarks_visibility _ _ _ _ _ Hsm Ho)
          as (lm & Hlm & ->).
        exact (Hv k lm Hlm). }
      destruct (Rabs (x s11 - x s12) <? 0.05); lra.
    + rewrite trackLandmarks_throws; [exact H|].
      right. exists sm. now split.
  - rewrite trackLandmarks_throws; [exact H | now left].
Qed.

Lemma fractions_withLandmarks (landmarks : option Landmarks) :
  (forall l k lm, landmarks = Some l -> nth_error l k = Some lm ->
     0 <= orZero (visibility lm) <= 1) ->
  stable fractions (withLandmarks c i landmarks).
Proof.
  intros Hv. unfold withLandmarks, paintMask, updateStability,
    updateHeuristic, trackingLost. cbv zeta.
  destruct landmarks as [l|].
  - stable_walk ltac:(first
      [ stable_atom
      | match goal with
        | |- stable _ (trackLandmarks _ _ _) =>
            apply fractions_trackLandmarks; intros k lm; now apply Hv
        end ]).
  - stable_walk ltac:(first
      [ stable_atom
      | match goal with
        | |- stable _ (setScore 0) =>
            intros fr0 [_ H0]; split; [cbn; lra | exact H0]
        | |- stable _ (setQuality _) => intros fr0 H0; exact H0
        end ]).
Qed.

End ScoreOfFrame.

(** X13: the score is a fraction: as long as the visibilities of the
    landmarks a frame works on lie in [0, 1], the score of the frame and the
    score published to the view stay in [0, 1], so that the ring of the score
    is drawn with an offset between 0 and its full length 125.6. *)
Theorem tracking_score_is_a_fraction :
  forall (c : Pipeline.Closure) (i : Pipeline.Input) (s : Pipeline.State),
    (forall l k lm, frameLandmarks i s = Some l -> nth_error l k = Some lm ->
       0 <= orZero (visibility lm) <= 1) ->
    0 <= Pipeline.trackingScore s <= 1 ->
    let fr := Pipeline.detectPose c i s in
    0 <= Pipeline.currentScore fr <= 1 /\
    0 <= Pipeline.trackingScore (Pipeline.state fr) <= 1 /\
    0 <= Presentation.strokeDashoffset
           (Pipeline.trackingScore (Pipeline.state fr)) <= 125.6.
Proof.
  intros c i s Hv Hs fr.
  assert (H : fractions fr).
  { subst fr. unfold Pipeline.detectPose.
    destruct (negb (Pipeline.ready i) || Pipeline.zeroDims (Pipeline.dims i)).
    - split; [cbn; lra | exact Hs].
    - rewrite tryBlock_unfold.
      match goal with
      | |- fractions (Pipeline.publish c i (snd (?m ?f))) =>
          assert (H : fractions (snd (m f)))
      end.
      { apply fractions_withLandmarks; [exact Hv|].
        split; [cbn; lra|]. cbn [Pipeline.state].
        unfold persistedState.
        destruct (Pipeline.segmentationMask i), (Pipeline.detected i);
          exact Hs. }
      destruct H as [H1 H2]. unfold Pipeline.publish.
      match goal with
      | |- fractions (if ?b then _ else _) => destruct b
      end; split; try assumption; cbn; assumption. }
  destruct H as [H1 H2]. split; [exact H1|]. split; [exact H2|].
  unfold Presentation.strokeDashoffset. lra.
Qed.

Lemma stillPose_landmark (k : nat) (lm : NormalizedLandmark) :
  nth_error stillPose k = Some lm -> lm = lmAt 0.5 0.5.
Proof.
  intros H. apply nth_error_In in H. unfold stillPose, poseOf in H.
  apply in_map_iff in H. destruct H as (j & <- & _). reflexivity.
Qed.

Lemma tracking_score_is_a_fraction_witness :
  0 <= Pipeline.currentScore
         (Pipeline.detectPose sampleClosure (frameAt 1000 (Some stillPose))
            Pipeline.initialState) <= 1 /\
  0 <= Pipeline.trackingScore
         (Pipeline.state
            (Pipeline.detectPose sampleClosure (frameAt 1000 (Some stillPose))
               Pipeline.initialState)) <= 1 /\
  0 <= Presentation.strokeDashoffset
         (Pipeline.trackingScore
            (Pipeline.state
               (Pipeline.detectPose sampleClosure
                  (frameAt 1000 (Some stillPose)) Pipeline.initialState)))
    <= 125.6.
Proof.
  apply (tracking_score_is_a_fraction sampleClosure
           (frameAt 1000 (Some stillPose)) Pipeline.initialState).
  - intros l k lm Hl Hlm. cbn in Hl. injection Hl as <-.
    rewrite (stillPose_landmark k lm Hlm). cbn. lra.
  - cbn. lra.
Defined.

(** X14: a subject whose shoulders are less than 0.05 apart is never
    tracked: the score is halved, and with visibilities of at most 1 it is at
    most 0.5, which is LOST. *)
Theorem narrow_shoulders_are_lost :
  forall (smoothedLandmarks : Landmarks) (s11 s12 : NormalizedLandmark)
         (fr : Pipeline.Frame),
    (forall k lm, nth_error smoothedLandmarks k = Some lm ->
       0 <= orZero (visibility lm) <= 1) ->
    nth_error smoothedLandmarks 11 = Some s11 ->
    nth_error smoothedLandmarks 12 = Some s12 ->
    Rabs (x s11 - x s12) < 0.05 ->
    let fr' := snd (Pipeline.updateTrackingQuality smoothedLandmarks fr) in
    Pipeline.currentScore fr' = Tracking.rawScore smoothedLandmarks * 0.5 /\
    Pipeline.currentScore fr' <= 0.5 /\
    Pipeline.currentQuality fr' = LOST.
Proof.
  intros sm s11 s12 fr Hv H11 H12 Hw fr'.
  pose proof (rawScore_range sm Hv) as Hraw.
  assert (E : Pipeline.updateTrackingQuality sm fr
              = (Normal tt,
                 Pipeline.mkFrame (Pipeline.state fr) LOST
                   (Tracking.rawScore sm * 0.5) (Pipeline.canvas fr)
                   (Pipeline.analyzerCalls fr))).
  { unfold Pipeline.updateTrackingQuality, Pipeline.mbind, Pipeline.setScore,
      Pipeline.liftc, Pipeline.setQuality.
    rewrite (scoreOf_defined sm s11 s12 H11 H12).
    rewrite Rltb_true by exact Hw. cbn.
    replace (Tracking.classify (Tracking.rawScore sm * 0.5)) with LOST;
      [reflexivity|].
    symmetry. apply classify_spec. lra. }
  subst fr'. rewrite E. cbn. repeat split; lra.
Qed.

Lemma narrow_shoulders_are_lost_witness :
  Pipeline.currentScore
    (snd (Pipeline.updateTrackingQuality stillPose
            (Pipeline.mkFrame Pipeline.initialState LOST 0 [] [])))
  = Tracking.rawScore stillPose * 0.5 /\
  Pipeline.currentScore
    (snd (Pipeline.updateTrackingQuality stillPose
            (Pipeline.mkFrame Pipeline.initialState LOST 0 [] [])))
  <= 0.5 /\
  Pipeline.currentQuality
    (snd (Pipeline.updateTrackingQuality stillPose
            (Pipeline.mkFrame Pipeline.initialState LOST 0 [] [])))
  = LOST.
Proof.
  apply (narrow_shoulders_are_lost stillPose (lmAt 0.5 0.5) (lmAt 0.5 0.5)).
  - intros k lm Hlm. rewrite (stillPose_landmark k lm Hlm). cbn. lra.
  - reflexivity.
  - reflexivity.
  - cbn. replace (0.5 - 0.5) with 0 by ring. rewrite Rabs_R0. lra.
Defined.

(** ** An idle session *)

Section IdleSession.

Import Pipeline.

Variables (c : Closure) (i : Input) (s : State).

Lemma updateHeuristic_idle (landmarks : Landmarks) :
  isActive c = false ->
  stable (cueUntouched s) (updateHeuristic c i landmarks).
Proof.
  intros Hidle fr H. unfold updateHeuristic, mbind, getState.
  rewrite Hidle. exact H.
Qed.

Lemma tryBlock_idle :
  isActive c = false -> stable (cueUntouched s) (tryBlock c i).
Proof.
  intros Hidle. unfold tryBlock.
  apply stable_bind; [apply stable_noteMask, cueUntouched_state|]. intros _.
  apply stable_bind.
  - unfold persistLandmarks. stable_walk stable_atom.
  - intros landmarks.
    apply (stable_withLandmarks c i (cueUntouched s) (cueUntouched_state s)).
    + intros ops fr H. exact H.
    + intros v fr H. exact H.
    + intros q fr H. exact H.
    + intros l _. now apply updateHeuristic_idle.
Qed.

End IdleSession.

(** X15: while the session is not active ([isActive] false) a frame never
    calls [analyzePose] and leaves the heuristic cue and the time of its last
    evaluation as they were, whatever the frame holds and however long ago
    that evaluation was. *)
Theorem idle_session_never_evaluates :
  forall (c : Pipeline.Closure) (i : Pipeline.Input) (s : Pipeline.State),
    Pipeline.isActive c = false ->
    let fr := Pipeline.detectPose c i s in
    Pipeline.analyzerCalls fr = [] /\
    Pipeline.heuristicFeedback (Pipeline.state fr)
      = Pipeline.heuristicFeedback s /\
    Pipeline.lastHeuristicUpdateRef (Pipeline.state fr)
      = Pipeline.lastHeuristicUpdateRef s.
Proof.
  intros c i s Hidle fr. subst fr.
  assert (H : cueUntouched s (Pipeline.detectPose c i s)).
  { unfold Pipeline.detectPose.
    destruct (negb (Pipeline.ready i) || Pipeline.zeroDims (Pipeline.dims i)).
    - repeat split.
    - pose proof (tryBlock_idle c i s Hidle
                    (Pipeline.mkFrame s LOST 0 [ClearRect] [])) as H.
      specialize (H (conj eq_refl (conj eq_refl eq_refl))).
      destruct (publish_state_untouched c i
                  (snd (Pipeline.tryBlock c i
                          (Pipeline.mkFrame s LOST 0 [ClearRect] []))))
        as (E1 & E2 & _ & E4).
      unfold cueUntouched. rewrite E1, E2, E4. exact H. }
  destruct H as (H1 & H2 & H3). repeat split; assumption.
Qed.

Lemma idle_session_never_evaluates_witness :
  Pipeline.analyzerCalls
    (Pipeline.detectPose sampleClosure (frameAt 5000 (Some stillPose))
       Pipeline.initialState) = [] /\
  Pipeline.heuristicFeedback
    (Pipeline.state
       (Pipeline.detectPose sampleClosure (frameAt 5000 (Some stillPose))
          Pipeline.initialState))
  = Pipeline.heuristicFeedback Pipeline.initialState /\
  Pipeline.lastHeuristicUpdateRef
    (Pipeline.state
       (Pipeline.detectPose sampleClosure (frameAt 5000 (Some stillPose))
          Pipeline.initialState))
  = Pipeline.lastHeuristicUpdateRef Pipeline.initialState.
Proof.
  apply (idle_session_never_evaluates sampleClosure
           (frameAt 5000 (Some stillPose)) Pipeline.initialState).
  reflexivity.
Defined.

(** ** What the view is told *)

Lemma Quality_eqb_eq (a b : Quality) :
  Pipeline.Quality_eqb a b = true <-> a = b.
Proof. destruct a, b; cbn; split; congruence. Qed.

Section Published.

Import Pipeline.

Variables (c : Closure) (i : Input).

Lemma tryBlock_keeps_published (qRef q : Quality) (score : R) (t : Z) :
  stable (publishedAs qRef q score t) (tryBlock c i).
Proof.
  unfold tryBlock, noteMask, persistLandmarks, withLandmarks, paintMask,
    trackLandmarks, paintAnatomy, updateTrackingQuality, updateStability,
    updateHeuristic, trackingLost.
  cbv zeta. stable_walk stable_atom.
Qed.

End Published.

(** X16: after every frame that ran, the quality the view was told is the
    quality of that frame; the score may lag, but only while the frame's
    score is within 0.1 of the score the running closure saw and the last
    update is at most 100 ms old. *)
Theorem published_quality_is_the_frames :
  forall (c : Pipeline.Closure) (i : Pipeline.Input) (s : Pipeline.State),
    Pipeline.ready i = true -> Pipeline.zeroDims (Pipeline.dims i) = false ->
    let fr := Pipeline.detectPose c i s in
    Pipeline.trackingQualityRef (Pipeline.state fr)
      = Pipeline.currentQuality fr /\
    (Pipeline.trackingQuality s = Pipeline.trackingQualityRef s ->
     Pipeline.trackingQuality (Pipeline.state fr)
       = Pipeline.currentQuality fr) /\
    ((Pipeline.trackingScore (Pipeline.state fr) = Pipeline.currentScore fr /\
      Pipeline.lastScoreUpdateRef (Pipeline.state fr)
        = Pipeline.currentTime i) \/
     (Pipeline.trackingScore (Pipeline.state fr) = Pipeline.trackingScore s /\
      Pipeline.lastScoreUpdateRef (Pipeline.state fr)
        = Pipeline.lastScoreUpdateRef s /\
      Rabs (Pipeline.currentScore fr - Pipeline.seenTrackingScore c) <= 0.1 /\
      (Pipeline.currentTime i - Pipeline.lastScoreUpdateRef s <= 100)%Z)).
Proof.
  intros c i s Hr Hz fr. subst fr. unfold Pipeline.detectPose.
  rewrite Hr, Hz. cbn [negb orb].
  pose proof (tryBlock_keeps_published c i
                (Pipeline.trackingQualityRef s) (Pipeline.trackingQuality s)
                (Pipeline.trackingScore s) (Pipeline.lastScoreUpdateRef s)
                (Pipeline.mkFrame s LOST 0 [ClearRect] [])
                (conj eq_refl (conj eq_refl (conj eq_refl eq_refl))))
    as (P1 & P2 & P3 & P4).
  set (F := snd (Pipeline.tryBlock c i
                   (Pipeline.mkFrame s LOST 0 [ClearRect] []))) in *.
  clearbody F. unfold Pipeline.publish.
  destruct (Pipeline.Quality_eqb (Pipeline.currentQuality F)
              (Pipeline.trackingQualityRef (Pipeline.state F))) eqn:Eq;
    cbn [negb orb].
  - apply Quality_eqb_eq in Eq.
    destruct (Rgtb_spec (Rabs (Pipeline.currentScore F
                                - Pipeline.seenTrackingScore c)) 0.1);
      cbn [orb].
    + cbn. repeat split; try reflexivity. left. split; reflexivity.
    + destruct (Pipeline.currentTime i
                - Pipeline.lastScoreUpdateRef (Pipeline.state F) >? 100)%Z
        eqn:Et.
      * cbn. repeat split; try reflexivity. left. split; reflexivity.
      * rewrite Z.gtb_ltb in Et. apply Z.ltb_ge in Et. rewrite P4 in Et.
        split; [now symmetry|]. split; [congruence|].
        right. repeat split; try assumption. lra.
  - cbn. repeat split; try reflexivity. left. split; reflexivity.
Qed.

Lemma published_quality_is_the_frames_witness :
  Pipeline.trackingQualityRef
    (Pipeline.state
       (Pipeline.detectPose sampleClosure (frameAt 1000 (Some stillPose))
          Pipeline.initialState))
  = Pipeline.currentQuality
      (Pipeline.detectPose sampleClosure (frameAt 1000 (Some stillPose))
         Pipeline.initialState).
Proof.
  exact (proj1 (published_quality_is_the_frames sampleClosure
                  (frameAt 1000 (Some stillPose)) Pipeline.initialState
                  eq_refl sampleDims_nonzero)).
Defined.

(** ** The stability score is not negative *)

Section StabilitySign.

Import Pipeline.

Variables (c : Closure) (i : Input).

Lemma nonneg_updateStability (landmarks : Landmarks) :
  stable stabilityNonneg (updateStability landmarks).
Proof.
  intros fr [H1 H2]. unfold updateStability, mbind, getState, liftc.
  destruct (prevLandmarksRef (state fr)) as [prev|]; [|split; assumption].
  destruct (hipMidpoint landmarks) as [cur|]; [|split; assumption].
  destruct (hipMidpoint prev) as [old|]; [|split; assumption].
  split; [|exact H2]. cbn.
  pose proof (hypot_nonneg (fst cur - fst old) (snd cur - snd old)). lra.
Qed.

Lemma nonneg_updateHeuristic (landmarks : Landmarks) :
  stable stabilityNonneg (updateHeuristic c i landmarks).
Proof.
  intros fr [H1 H2]. unfold updateHeuristic, mbind, getState.
  destruct (isActive c
            && (heuristicNow i - lastHeuristicUpdateRef (state fr) >? 500)%Z);
    [|split; assumption].
  assert (H3 : Forall (fun call => 0 <= call_stabilityScore call)
                 (analyzerCalls fr
                  ++ [mkCall landmarks (workoutType c)
                        (stabilityScoreRef (state fr))])).
  { apply Forall_app. split; [exact H2|].
    constructor; [exact H1 | constructor]. }
  unfold callAnalyzePose.
  destruct (Analyzer.analyzePose landmarks (workoutType c)
              (stabilityScoreRef (state fr))); split; assumption.
Qed.

Lemma nonneg_tryBlock : stable stabilityNonneg (tryBlock c i).
Proof.
  unfold tryBlock, noteMask, persistLandmarks, withLandmarks, paintMask,
    trackLandmarks, paintAnatomy, updateTrackingQuality, trackingLost.
  cbv zeta.
  stable_walk ltac:(first
    [ stable_atom
    | match goal with
      | |- stable _ (updateStability _) => apply nonneg_updateStability
      | |- stable _ (updateHeuristic _ _ _) => apply nonneg_updateHeuristic
      end ]).
Qed.

End StabilitySign.

(** X17: the stability score never becomes negative: from a state whose
    score is not negative every frame, whether it returns or throws, leaves
    a score that is not negative, and hands [analyzePose] no negative one. *)
Theorem stability_score_is_never_negative :
  forall (c : Pipeline.Closure) (i : Pipeline.Input) (s : Pipeline.State),
    0 <= Pipeline.stabilityScoreRef s ->
    let fr := Pipeline.detectPose c i s in
    0 <= Pipeline.stabilityScoreRef (Pipeline.state fr) /\
    forall call, In call (Pipeline.analyzerCalls fr) ->
                 0 <= Pipeline.call_stabilityScore call.
Proof.
  intros c i s Hs fr. subst fr.
  assert (H : stabilityNonneg (Pipeline.detectPose c i s)).
  { unfold Pipeline.detectPose.
    destruct (negb (Pipeline.ready i) || Pipeline.zeroDims (Pipeline.dims i)).
    - split; [exact Hs | constructor].
    - pose proof (nonneg_tryBlock c i
                    (Pipeline.mkFrame s LOST 0 [ClearRect] [])
                    (conj Hs (Forall_nil _))) as [H1 H2].
      destruct (publish_keeps c i
                  (snd (Pipeline.tryBlock c i
                          (Pipeline.mkFrame s LOST 0 [ClearRect] []))))
        as (_ & _ & _ & _ & E5 & _).
      destruct (publish_state_untouched c i
                  (snd (Pipeline.tryBlock c i
                          (Pipeline.mkFrame s LOST 0 [ClearRect] []))))
        as (_ & _ & _ & E4).
      split; [rewrite E5; exact H1 | rewrite E4; exact H2]. }
  destruct H as [H1 H2]. split; [exact H1|].
  intros call Hin. rewrite Forall_forall in H2. now apply H2.
Qed.

Lemma stability_score_is_never_negative_witness :
  0 <= Pipeline.stabilityScoreRef
         (Pipeline.state
            (Pipeline.detectPose activeClosure (frameAt 1000 (Some stillPose))
               Pipeline.initialState)).
Proof.
  assert (H : 0 <= Pipeline.stabilityScoreRef Pipeline.initialState)
    by (cbn; lra).
  exact (proj1 (stability_score_is_never_negative activeClosure
                  (frameAt 1000 (Some stillPose)) Pipeline.initialState H)).
Defined.

(** ** What is on the canvas *)

Section Canvas.

Import Pipeline.

Variables (c : Closure) (i : Input) (pre : list CanvasOp).

Let P := anatomyAfter (workoutType c) pre.

Lemma anatomyAfter_paint (ops : list CanvasOp) :
  Forall (anatomyOp (workoutType c)) ops -> stable P (paint ops).
Proof.
  intros Hops fr (rest & E & Hrest). exists (rest ++ ops)%list. split.
  - cbn. rewrite E. now rewrite app_assoc.
  - apply Forall_app. now split.
Qed.

Lemma drawMusclePart_anatomy (vp : Viewport) (sm : Landmarks)
  (startIdx endIdx : nat) (key : PartKey) :
  Forall (anatomyOp (workoutType c))
    (Overlay.drawMusclePart vp (workoutType c) sm startIdx endIdx key).
Proof.
  unfold Overlay.drawMusclePart.
  destruct (nth_error sm startIdx); [|constructor].
  destruct (nth_error sm endIdx); [|constructor].
  constructor; [|constructor].
  unfold Overlay.musclePartOp, Overlay.shapeBetween. cbv zeta.
  cbn [anatomyOp].
  destruct (includes (TARGET_SEGMENTS (workoutType c)) key);
    (split; [reflexivity|]); cbn [alpha];
    match goal with |- context [if ?b then _ else _] => destruct b end; lra.
Qed.

Lemma drawTorso_anatomy (vp : Viewport) (torsoStart torsoEnd : R * R) :
  Forall (anatomyOp (workoutType c))
    (Overlay.drawTorso vp (workoutType c) torsoStart torsoEnd).
Proof.
  unfold Overlay.drawTorso, Overlay.shapeBetween. cbv zeta.
  constructor; [|constructor]. cbn [anatomyOp].
  destruct (includes (TARGET_SEGMENTS (workoutType c)) torso);
    (split; [reflexivity | cbn [alpha]; lra]).
Qed.

Lemma drawJointWeld_anatomy (vp : Viewport) (sm : Landmarks) (idx : nat)
  (sizeFactor : R) (ops : list CanvasOp) :
  Overlay.drawJointWeld vp sm idx sizeFactor = Normal ops ->
  Forall (anatomyOp (workoutType c)) ops.
Proof.
  unfold Overlay.drawJointWeld.
  destruct (nth_error sm idx) as [lm|]; [|intros [= <-]; constructor].
  destruct (orZero (visibility lm) <? 0.1); [intros [= <-]; constructor|].
  destruct (nth_error sm 11); [|discriminate].
  destruct (nth_error sm 12); [|discriminate].
  cbn [bind prop]. intros [= <-].
  constructor; [reflexivity | constructor].
Qed.

Lemma anatomyAfter_withLandmarks_rest (landmarks : option Landmarks) :
  stable P
    (mbind (match landmarks with
            | Some landmarks => trackLandmarks c (viewport (dims i)) landmarks
            | None => ret tt
            end)
       (fun _ =>
          mbind (paint [SetComposite source_over])
            (fun _ =>
               match landmarks with
               | Some landmarks =>
                   mbind (updateStability landmarks)
                     (fun _ => updateHeuristic c i landmarks)
               | None => trackingLost i
               end))).
Proof.
  unfold trackLandmarks, paintAnatomy, updateTrackingQuality, updateStability,
    updateHeuristic, trackingLost.
  stable_walk ltac:(first
    [ match goal with
      | |- stable _ (paint [SetComposite source_over]) =>
          apply anatomyAfter_paint; constructor; [exact I | constructor]
      | |- stable _ (paint (Overlay.drawTorso _ _ _ _)) =>
          apply anatomyAfter_paint, drawTorso_anatomy
      | |- stable _ (paint (Overlay.drawMusclePart _ _ _ _ _ _)) =>
          apply anatomyAfter_paint, drawMusclePart_anatomy
      | |- stable _ (mbind (liftc (Overlay.drawJointWeld _ _ _ _)) _) =>
          apply (stable_bind_post P
                   (fun ops => Forall (anatomyOp (workoutType c)) ops));
          [ intros fr H; split;
            [ exact H
            | intros ops Hops; exact (drawJointWeld_anatomy _ _ _ _ _ Hops) ]
          | intros ops Hops; apply anatomyAfter_paint; exact Hops ]
      end
    | stable_atom ]).
Qed.

End Canvas.

Lemma maskOps_persisted (i : Pipeline.Input) (s : Pipeline.State) :
  maskOps i (persistedState i s) = maskOps i s.
Proof.
  unfold maskOps, persistedState.
  destruct (Pipeline.segmentationMask i), (Pipeline.detected i); reflexivity.
Qed.

(** A frame that runs clears the canvas, paints the mask, and then nothing
    but anatomy. *)
Lemma canvas_after_clear (c : Pipeline.Closure) (i : Pipeline.Input)
  (s : Pipeline.State) :
  Pipeline.ready i = true -> Pipeline.zeroDims (Pipeline.dims i) = false ->
  exists rest,
    Pipeline.canvas (Pipeline.detectPose c i s)
    = (ClearRect :: maskOps i s ++ rest)%list /\
    Forall (anatomyOp (Pipeline.workoutType c)) rest.
Proof.
  intros Hr Hz. rewrite (detectPose_unfold c i s Hr Hz).
  destruct (publish_keeps c i
              (snd (Pipeline.withLandmarks c i (frameLandmarks i s)
                      (Pipeline.mkFrame (persistedState i s) LOST 0
                         [ClearRect] []))))
    as (_ & _ & E & _).
  rewrite E. unfold Pipeline.withLandmarks. cbv zeta.
  rewrite (mbind_Normal _ _ _ _ _ (paintMask_runs i _)).
  cbn [Pipeline.state].
  rewrite maskOps_persisted.
  apply (anatomyAfter_withLandmarks_rest c i
           (ClearRect :: maskOps i s) (frameLandmarks i s)).
  exists []. split; [|constructor].
  unfold painted. cbn [Pipeline.canvas]. now rewrite app_nil_r.
Qed.


Lemma clearAndMask_maskOps (i : Pipeline.Input) (s : Pipeline.State) :
  (ClearRect :: maskOps i s)%list = clearAndMask i s.
Proof.
  unfold maskOps, clearAndMask. cbv zeta.
  destruct (Pipeline.segmentationMask i); cbn [orb]; [reflexivity|].
  destruct (Pipeline.now i - Pipeline.lastMaskTimeRef s <? 200)%Z;
    reflexivity.
Qed.

(** X18: every frame that runs clears the canvas once, paints the body
    mask next (when a mask came with the frame or the last one is less than
    200 ms old, and then in [source-atop] mode), and after that nothing but
    anatomy: muscle shapes in orange for the target parts of the exercise and
    in green for the others, never more opaque than 0.6 nor less than 0.3,
    welds, and the return to [source-over]; this holds for a frame that
    throws as well. *)
Theorem canvas_is_clear_mask_then_anatomy :
  forall (c : Pipeline.Closure) (i : Pipeline.Input) (s : Pipeline.State),
    Pipeline.ready i = true -> Pipeline.zeroDims (Pipeline.dims i) = false ->
    let vp := viewport (Pipeline.dims i) in
    exists rest,
      Pipeline.canvas (Pipeline.detectPose c i s)
      = ((ClearRect ::
          if Pipeline.segmentationMask i
             || (Pipeline.now i - Pipeline.lastMaskTimeRef s <? 200)%Z
          then [DrawMask (- offsetX vp) (- offsetY vp)
                  (renderedWidth vp) (renderedHeight vp);
                SetComposite source_atop]
          else [SetComposite source_over]) ++ rest)%list /\
      Forall (anatomyOp (Pipeline.workoutType c)) rest.
Proof.
  intros c i s Hr Hz vp.
  destruct (canvas_after_clear c i s Hr Hz) as (rest & E & Hrest).
  exists rest. split; [|exact Hrest].
  rewrite E. change (ClearRect :: maskOps i s ++ rest)%list
    with ((ClearRect :: maskOps i s) ++ rest)%list.
  rewrite clearAndMask_maskOps. reflexivity.
Qed.

Lemma canvas_is_clear_mask_then_anatomy_witness :
  exists rest,
    Pipeline.canvas
      (Pipeline.detectPose sampleClosure (frameAt 1000 (Some stillPose))
         Pipeline.initialState)
    = ((ClearRect ::
        if Pipeline.segmentationMask (frameAt 1000 (Some stillPose))
           || (Pipeline.now (frameAt 1000 (Some stillPose))
               - Pipeline.lastMaskTimeRef Pipeline.initialState <? 200)%Z
        then [DrawMask (- offsetX (viewport sampleDims))
                (- offsetY (viewport sampleDims))
                (renderedWidth (viewport sampleDims))
                (renderedHeight (viewport sampleDims));
              SetComposite source_atop]
        else [SetComposite source_over]) ++ rest)%list /\
    Forall (anatomyOp (Pipeline.workoutType sampleClosure)) rest.
Proof.
  exact (canvas_is_clear_mask_then_anatomy sampleClosure
           (frameAt 1000 (Some stillPose)) Pipeline.initialState
           eq_refl sampleDims_nonzero).
Defined.

(** ** A subject that stands still *)

(** X19: while the subject stands still the stability score decays
    geometrically: along a run of frames that all detect the full pose the
    smoother already retains, the retained set stays that pose and each frame
    multiplies the score by 0.9. *)
Theorem still_subject_stability_decays :
  forall (l : Landmarks) (frames : list (Pipeline.Closure * Pipeline.Input))
         (s : Pipeline.State),
    fullPose l -> Pipeline.prevLandmarksRef s = Some l ->
    Forall (showsPose l) frames ->
    Pipeline.prevLandmarksRef (runFrames frames s) = Some l /\
    Pipeline.stabilityScoreRef (runFrames frames s)
    = Pipeline.stabilityScoreRef s * 0.9 ^ List.length frames.
Proof.
  intros l frames. induction frames as [|[c i] frames IH];
    intros s Hfull Hprev Hframes.
  - cbn. split; [exact Hprev | ring].
  - inversion Hframes as [|f fs (Hr & Hz & Hd) Hrest]; subst.
    cbn [snd] in Hr, Hz, Hd.
    destruct (fullPose_nth l 23 Hfull) as [l23 H23]; [lia|].
    destruct (fullPose_nth l 24 Hfull) as [l24 H24]; [lia|].
    assert (Hl : frameLandmarks i s = Some l)
      by (unfold frameLandmarks; now rewrite Hd).
    assert (Hsm : Smoother.adaptiveSmoothLandmarks l
                    (Pipeline.prevLandmarksRef s) = Normal l)
      by (rewrite Hprev; apply adaptiveSmoothLandmarks_fixed).
    destruct (detectPose_stability c i s l l l23 l24 l23 l24
                Hr Hz Hl Hsm Hfull H23 H24 H23 H24) as [Ep Es].
    rewrite hypot_same in Es.
    cbn [runFrames List.length].
    destruct (IH (Pipeline.state (Pipeline.detectPose c i s)) Hfull Ep Hrest)
      as [IHp IHs].
    split; [exact IHp|]. rewrite IHs, Es. cbn [pow]. ring.
Qed.

(** Two frames of the still pose, from a score of 0.01. *)
Lemma still_subject_stability_decays_witness :
  Pipeline.stabilityScoreRef
    (runFrames [ (sampleClosure, frameAt 1033 (Some stillPose));
                 (sampleClosure, frameAt 1066 (Some stillPose)) ]
       (Pipeline.set_stabilityScoreRef 0.01 trackedState))
  = Pipeline.stabilityScoreRef
      (Pipeline.set_stabilityScoreRef 0.01 trackedState) * 0.9 ^ 2.
Proof.
  apply (still_subject_stability_decays stillPose
           [ (sampleClosure, frameAt 1033 (Some stillPose));
             (sampleClosure, frameAt 1066 (Some stillPose)) ]
           (Pipeline.set_stabilityScoreRef 0.01 trackedState)).
  - apply poseOf_full.
  - reflexivity.
  - repeat constructor; apply sampleDims_nonzero.
Defined.

(** ** A frame on which the cue is due *)



(** ** The grace window, from one frame to the next *)

(** X21: a detection serves the frames of the next 200 ms: after a frame
    that detected a pose at time [t], a frame without detection works on
    that very pose when its own time is less than 200 ms after [t], and on
    nothing otherwise. *)
Theorem detection_serves_the_grace_window :
  forall (c : Pipeline.Closure) (i next : Pipeline.Input)
         (s : Pipeline.State) (landmarks : Landmarks),
    Pipeline.ready i = true -> Pipeline.zeroDims (Pipeline.dims i) = false ->
    Pipeline.detected i = Some landmarks ->
    Pipeline.detected next = None ->
    frameLandmarks next (Pipeline.state (Pipeline.detectPose c i s))
    = if (Pipeline.now next - Pipeline.now i <? 200)%Z
      then Some landmarks else None.
Proof.
  intros c i next s landmarks Hr Hz Hd Hn.
  destruct (detection_is_kept c i s landmarks Hr Hz Hd) as [E1 E2].
  unfold frameLandmarks. rewrite Hn, E1, E2. reflexivity.
Qed.

Lemma detection_serves_the_grace_window_witness :
  frameLandmarks (frameAt 1150 None)
    (Pipeline.state
       (Pipeline.detectPose sampleClosure (frameAt 1000 (Some stillPose))
          Pipeline.initialState))
  = if (Pipeline.now (frameAt 1150 None)
        - Pipeline.now (frameAt 1000 (Some stillPose)) <? 200)%Z
    then Some stillPose else None.
Proof.
  exact (detection_serves_the_grace_window sampleClosure
           (frameAt 1000 (Some stillPose)) (frameAt 1150 None)
           Pipeline.initialState stillPose eq_refl sampleDims_nonzero
           eq_refl eq_refl).
Defined.

(** ** The banner *)

(** X22: the banner shows the coach's feedback when there is some, under
    the heading "Coach Gemini"; otherwise it shows what [analyzePose]
    answered, under "Form Correction", and is not rendered when that was no
    cue: no cue of the analyzer is ever swallowed as an empty string. *)
Theorem banner_shows_the_coach_or_the_cue :
  forall (landmarks : Landmarks) (workout : WorkoutType) (stabilityScore : R)
         (answer feedback : option string),
    Analyzer.analyzePose landmarks workout stabilityScore = Normal answer ->
    Presentation.banner feedback answer
    = match feedback with
      | Some (String a text) => Some ("Coach Gemini", String a text)
      | _ =>
          match answer with
          | Some cue => Some ("Form Correction", cue)
          | None => None
          end
      end.
Proof.
  intros landmarks workout st answer feedback H.
  assert (Hcue : forall cue, answer = Some cue ->
                   exists a text, cue = String a text).
  { intros cue ->.
    destruct (analyzePose_cue_cases _ _ _ _ H) as [_ Hne].
    destruct cue as [|a text]; [contradiction|]. now exists a, text. }
  unfold Presentation.banner, Presentation.activeFeedback,
    Presentation.isHeuristic.
  destruct feedback as [[|a text]|]; cbn [Presentation.truthy negb andb];
    try reflexivity;
    (destruct answer as [cue|]; [|reflexivity];
     destruct (Hcue cue eq_refl) as (b & t & ->); reflexivity).
Qed.

Lemma banner_shows_the_coach_or_the_cue_witness :
  Presentation.banner None (Some "Balance & Control")
  = Some ("Form Correction", "Balance & Control").
Proof.
  exact (banner_shows_the_coach_or_the_cue (poseOf kneesInPose) LUNGE 0.01
           (Some "Balance & Control") None lunge_sample_cue).
Defined.

(** ** The mask, from one frame to the next *)

Section MaskTime.

Import Pipeline.

Variables (c : Closure) (i : Input).

Lemma withLandmarks_keeps_lastMask (landmarks : option Landmarks) (t : Z) :
  stable (fun fr => lastMaskTimeRef (state fr) = t)
         (withLandmarks c i landmarks).
Proof.
  unfold withLandmarks, paintMask, trackLandmarks, paintAnatomy,
    updateTrackingQuality, updateStability, updateHeuristic, trackingLost.
  cbv zeta. stable_walk stable_atom.
Qed.

Lemma detectPose_lastMask (s : State) :
  ready i = true -> zeroDims (dims i) = false ->
  lastMaskTimeRef (state (detectPose c i s))
  = if segmentationMask i then now i else lastMaskTimeRef s.
Proof.
  intros Hr Hz. rewrite (detectPose_unfold c i s Hr Hz).
  match goal with
  | |- context [publish c i ?f] =>
      assert (E : lastMaskTimeRef (state (publish c i f))
                  = lastMaskTimeRef (state f))
        by (unfold publish; destruct (_ || _ || _); reflexivity)
  end.
  rewrite E.
  apply (withLandmarks_keeps_lastMask (frameLandmarks i s)).
  cbn [state]. unfold persistedState.
  destruct (segmentationMask i), (detected i); reflexivity.
Qed.

End MaskTime.

(** X23: a body mask serves the frames of the next 200 ms: after a frame
    that came with a mask at time [t], a frame without one still paints the
    mask, in [source-atop] mode, when its own time is less than 200 ms after
    [t], and paints no mask, in [source-over] mode, otherwise. *)
Theorem mask_serves_the_grace_window :
  forall (c next_c : Pipeline.Closure) (i next : Pipeline.Input)
         (s : Pipeline.State),
    Pipeline.ready i = true -> Pipeline.zeroDims (Pipeline.dims i) = false ->
    Pipeline.segmentationMask i = true ->
    Pipeline.ready next = true ->
    Pipeline.zeroDims (Pipeline.dims next) = false ->
    Pipeline.segmentationMask next = false ->
    let vp := viewport (Pipeline.dims next) in
    exists rest,
      Pipeline.canvas
        (Pipeline.detectPose next_c next
           (Pipeline.state (Pipeline.detectPose c i s)))
      = ((ClearRect ::
          if (Pipeline.now next - Pipeline.now i <? 200)%Z
          then [DrawMask (- offsetX vp) (- offsetY vp)
                  (renderedWidth vp) (renderedHeight vp);
                SetComposite source_atop]
          else [SetComposite source_over]) ++ rest)%list /\
      Forall (anatomyOp (Pipeline.workoutType next_c)) rest.
Proof.
  intros c next_c i next s Hr Hz Hm Hr' Hz' Hm' vp.
  destruct (canvas_after_clear next_c next
              (Pipeline.state (Pipeline.detectPose c i s)) Hr' Hz')
    as (rest & E & Hrest).
  exists rest. split; [|exact Hrest]. rewrite E.
  change (ClearRect :: maskOps next
            (Pipeline.state (Pipeline.detectPose c i s)) ++ rest)%list
    with ((ClearRect :: maskOps next
             (Pipeline.state (Pipeline.detectPose c i s))) ++ rest)%list.
  rewrite clearAndMask_maskOps. unfold clearAndMask. cbv zeta.
  rewrite Hm'. rewrite (detectPose_lastMask c i s Hr Hz), Hm. reflexivity.
Qed.

Lemma mask_serves_the_grace_window_witness :
  exists rest,
    Pipeline.canvas
      (Pipeline.detectPose sampleClosure (frameAt 1100 None)
         (Pipeline.state
            (Pipeline.detectPose sampleClosure
               (Pipeline.mkInput true sampleDims 1000 None true 1000 1000)
               Pipeline.initialState)))
    = ((ClearRect ::
        if (Pipeline.now (frameAt 1100 None)
            - Pipeline.now
                (Pipeline.mkInput true sampleDims 1000 None true 1000 1000)
            <? 200)%Z
        then [DrawMask (- offsetX (viewport sampleDims))
                (- offsetY (viewport sampleDims))
                (renderedWidth (viewport sampleDims))
                (renderedHeight (viewport sampleDims));
              SetComposite source_atop]
        else [SetComposite source_over]) ++ rest)%list /\
    Forall (anatomyOp (Pipeline.workoutType sampleClosure)) rest.
Proof.
  exact (mask_serves_the_grace_window sampleClosure sampleClosure
           (Pipeline.mkInput true sampleDims 1000 None true 1000 1000)
           (frameAt 1100 None) Pipeline.initialState
           eq_refl sampleDims_nonzero eq_refl eq_refl sampleDims_nonzero
           eq_refl).
Defined.

(** ** The whole anatomy of a full pose *)

Section WholeAnatomy.

Import Pipeline.

Variables (c : Closure) (i : Input).



End WholeAnatomy.





(** ** Full poses in, full poses retained *)

Section RetainedSets.

Import Pipeline.

Variables (c : Closure) (i : Input).

Lemma withLandmarks_none_prev_full :
  stable (fun fr => forall p, prevLandmarksRef (state fr) = Some p ->
                              fullPose p)
         (withLandmarks c i None).
Proof.
  unfold withLandmarks, paintMask, trackingLost. cbv zeta.
  stable_walk ltac:(first
    [ stable_atom
    | match goal with
      | |- stable _ (modify (set_prevLandmarksRef None)) =>
          intros fr0 H0 p Hp; discriminate Hp
      end ]).
Qed.

End RetainedSets.

(** X25: full poses in, full poses retained: when the detections are
    33-landmark poses and the two sets the state retains (the smoothed set
    and the set kept for the grace window) are full, they are full again
    after the frame, whatever the frame did; so along a run of such frames
    the smoother is never handed a set shorter than the pose. *)
Theorem full_poses_keep_the_retained_sets_full :
  forall (frames : list (Pipeline.Closure * Pipeline.Input))
         (s : Pipeline.State),
    Forall (fun f => fullInput (snd f)) frames -> fullRefs s ->
    fullRefs (runFrames frames s).
Proof.
  induction frames as [|[c i] frames IH]; intros s Hin [Hprev Hvalid];
    [split; assumption|].
  inversion Hin as [|f fs Hi Hrest]; subst. cbn [snd] in Hi.
  cbn [runFrames]. apply IH; [exact Hrest|]. split.
  - destruct (Pipeline.ready i) eqn:Hr;
      [destruct (Pipeline.zeroDims (Pipeline.dims i)) eqn:Hz|].
    + unfold Pipeline.detectPose. rewrite Hr, Hz. exact Hprev.
    + destruct (frameLandmarks i s) as [l|] eqn:Hl.
      * assert (Hfull : fullPose l).
        { unfold frameLandmarks in Hl.
          destruct (Pipeline.detected i) as [d|] eqn:Hd.
          - injection Hl as <-. now apply Hi.
          - destruct (Pipeline.lastValidLandmarksRef s) as [v|] eqn:Hv;
              [|discriminate].
            destruct (Pipeline.now i - Pipeline.lastLandmarksTimeRef s
                      <? 200)%Z; [|discriminate].
            injection Hl as <-. now apply Hvalid. }
        pose proof (detectPose_full_frame c i s l Hr Hz Hl Hfull Hprev) as H.
        cbv zeta in H. exact (proj1 H).
      * rewrite (detectPose_unfold c i s Hr Hz), Hl.
        match goal with
        | |- context [Pipeline.publish c i ?f] =>
            destruct (publish_keeps c i f) as (_ & _ & _ & E & _)
        end.
        rewrite E. apply withLandmarks_none_prev_full.
        cbn [Pipeline.state].
        rewrite (proj1 (persistedState_keeps i s)). exact Hprev.
    + unfold Pipeline.detectPose. rewrite Hr. exact Hprev.
  - exact (proj1 (detectPose_once c i s Hi Hvalid)).
Qed.

Lemma full_poses_keep_the_retained_sets_full_witness :
  fullRefs
    (runFrames [ (sampleClosure, frameAt 1000 (Some stillPose));
                 (sampleClosure, frameAt 1033 (Some movedPose));
                 (sampleClosure, frameAt 1300 None) ]
       Pipeline.initialState).
Proof.
  apply (full_poses_keep_the_retained_sets_full
           [ (sampleClosure, frameAt 1000 (Some stillPose));
             (sampleClosure, frameAt 1033 (Some movedPose));
             (sampleClosure, frameAt 1300 None) ]
           Pipeline.initialState).
  - repeat apply Forall_cons; try apply Forall_nil;
      intros l Hl; cbn [snd Pipeline.detected frameAt] in Hl;
      try discriminate Hl; injection Hl as <-; apply poseOf_full.
  - split; intros p Hp; discriminate Hp.
Defined.

(** ** A truncated pose, and a pose found again *)

(** X26: a pose that stops before the right hip aborts the frame before
    anything is drawn or measured: whatever set is retained, a frame that
    works on at most 24 landmarks paints the clearing and the mask only,
    stays at quality LOST with score 0, calls [analyzePose] not at all and
    leaves the retained smoothed set, the stability score and the cue as they
    were. *)
Theorem truncated_pose_aborts_the_frame :
  forall (c : Pipeline.Closure) (i : Pipeline.Input) (s : Pipeline.State)
         (landmarks : Landmarks),
    Pipeline.ready i = true -> Pipeline.zeroDims (Pipeline.dims i) = false ->
    frameLandmarks i s = Some landmarks ->
    (List.length landmarks <= 24)%nat ->
    let fr := Pipeline.detectPose c i s in
    Pipeline.canvas fr = clearAndMask i s /\
    Pipeline.currentQuality fr = LOST /\ Pipeline.currentScore fr = 0 /\
    Pipeline.analyzerCalls fr = [] /\
    Pipeline.prevLandmarksRef (Pipeline.state fr)
      = Pipeline.prevLandmarksRef s /\
    Pipeline.stabilityScoreRef (Pipeline.state fr)
      = Pipeline.stabilityScoreRef s /\
    Pipeline.heuristicFeedback (Pipeline.state fr)
      = Pipeline.heuristicFeedback s.
Proof.
  intros c i s l Hr Hz Hl Hlen fr. subst fr.
  rewrite (detectPose_unfold c i s Hr Hz), Hl.
  set (F := painted (maskOps i (persistedState i s))
              (Pipeline.mkFrame (persistedState i s) LOST 0 [ClearRect] [])).
  assert (E : Pipeline.withLandmarks c i (Some l)
                (Pipeline.mkFrame (persistedState i s) LOST 0 [ClearRect] [])
              = (Throw, F)).
  { unfold Pipeline.withLandmarks. cbv zeta.
    rewrite (mbind_Normal _ _ _ _ _ (paintMask_runs i _)).
    apply mbind_Throw. apply trackLandmarks_throws.
    destruct (Smoother.adaptiveSmoothLandmarks l
                (Pipeline.prevLandmarksRef
                   (Pipeline.state
                      (painted (maskOps i (persistedState i s))
                         (Pipeline.mkFrame (persistedState i s) LOST 0
                            [ClearRect] []))))) as [sm|] eqn:Hsm;
      [right | now left].
    exists sm. split; [exact Hsm|]. apply torsoEnds_throws.
    assert (Hsame : List.length sm = List.length l).
    { destruct (Pipeline.prevLandmarksRef _) as [p|] in Hsm.
      - exact (mapFrom_length _ _ _ _ Hsm).
      - injection Hsm as <-. reflexivity. }
    lia. }
  rewrite E. cbn [snd].
  destruct (publish_keeps c i F) as (E1 & E2 & E3 & E4 & E5 & _).
  destruct (publish_state_untouched c i F) as (U1 & _ & _ & U4).
  rewrite E1, E2, E3, E4, E5, U1, U4. clear E.
  destruct (persistedState_keeps i s) as [K1 K2].
  subst F. cbn [painted Pipeline.state Pipeline.currentQuality
                Pipeline.currentScore Pipeline.canvas Pipeline.analyzerCalls].
  rewrite K1, K2, maskOps_persisted.
  change ([ClearRect] ++ maskOps i s)%list with (ClearRect :: maskOps i s).
  rewrite clearAndMask_maskOps. repeat split.
  unfold persistedState.
  destruct (Pipeline.segmentationMask i), (Pipeline.detected i); reflexivity.
Qed.

Lemma truncated_pose_aborts_the_frame_witness :
  Pipeline.canvas
    (Pipeline.detectPose activeClosure (frameAt 1000 (Some hiplessPose))
       trackedState)
  = clearAndMask (frameAt 1000 (Some hiplessPose)) trackedState.
Proof.
  refine (proj1 (truncated_pose_aborts_the_frame activeClosure
                   (frameAt 1000 (Some hiplessPose)) trackedState
                   hiplessPose eq_refl sampleDims_nonzero eq_refl _)).
  unfold hiplessPose. rewrite length_firstn. apply Nat.le_min_l.
Defined.

(** X27: a pose found again is taken as it is: once more than 200 ms
    have passed without a detection the retained smoothed set is dropped, and
    the first full pose detected after that is retained unsmoothed. *)
Theorem reacquired_pose_is_not_smoothed :
  forall (c next_c : Pipeline.Closure) (i next : Pipeline.Input)
         (s : Pipeline.State) (landmarks : Landmarks),
    Pipeline.ready i = true -> Pipeline.zeroDims (Pipeline.dims i) = false ->
    Pipeline.detected i = None ->
    (Pipeline.now i - Pipeline.lastLandmarksTimeRef s > 200)%Z ->
    Pipeline.ready next = true ->
    Pipeline.zeroDims (Pipeline.dims next) = false ->
    Pipeline.detected next = Some landmarks -> fullPose landmarks ->
    let lost := Pipeline.state (Pipeline.detectPose c i s) in
    Pipeline.prevLandmarksRef lost = None /\
    Pipeline.prevLandmarksRef
      (Pipeline.state (Pipeline.detectPose next_c next lost))
    = Some landmarks.
Proof.
  intros c next_c i next s l Hr Hz Hd Hgap Hr' Hz' Hd' Hfull lost.
  assert (Hlost : Pipeline.prevLandmarksRef lost = None).
  { subst lost. rewrite (detectPose_unfold c i s Hr Hz).
    assert (Hnone : frameLandmarks i s = None).
    { unfold frameLandmarks. rewrite Hd.
      destruct (Pipeline.lastValidLandmarksRef s); [|reflexivity].
      replace (Pipeline.now i - Pipeline.lastLandmarksTimeRef s <? 200)%Z
        with false by (symmetry; apply Z.ltb_ge; lia).
      reflexivity. }
    rewrite Hnone.
    match goal with
    | |- context [Pipeline.publish c i ?f] =>
        destruct (publish_keeps c i f) as (_ & _ & _ & E & _)
    end.
    rewrite E, withLandmarks_lost; [reflexivity|].
    cbn [Pipeline.state].
    destruct (persistedState_no_detection i s Hd) as (_ & -> & _).
    exact Hgap. }
  split; [exact Hlost|].
  destruct (fullPose_nth l 23 Hfull) as [l23 H23]; [lia|].
  destruct (fullPose_nth l 24 Hfull) as [l24 H24]; [lia|].
  refine (proj1 (detectPose_stability next_c next lost l l l23 l24 l23 l24
                   Hr' Hz' _ _ Hfull H23 H24 H23 H24)).
  - unfold frameLandmarks. now rewrite Hd'.
  - rewrite Hlost. reflexivity.
Qed.

Lemma reacquired_pose_is_not_smoothed_witness :
  Pipeline.prevLandmarksRef
    (Pipeline.state
       (Pipeline.detectPose sampleClosure (frameAt 1250 None) trackedState))
  = None /\
  Pipeline.prevLandmarksRef
    (Pipeline.state
       (Pipeline.detectPose sampleClosure (frameAt 1283 (Some movedPose))
          (Pipeline.state
             (Pipeline.detectPose sampleClosure (frameAt 1250 None)
                trackedState))))
  = Some movedPose.
Proof.
  refine (reacquired_pose_is_not_smoothed sampleClosure sampleClosure
            (frameAt 1250 None) (frameAt 1283 (Some movedPose)) trackedState
            movedPose eq_refl sampleDims_nonzero eq_refl _ eq_refl
            sampleDims_nonzero eq_refl (poseOf_full _)).
  cbn. lia.
Defined.

(** * Where the code departs from the specification *)

(** ** The frame exactly 200 ms after the last detection *)

Section GraceBoundary.

Import Pipeline.

Variables (c : Closure) (i : Input).




End GraceBoundary.


(** ** A frame on which the analyzer throws *)

Section AnalyzerThrows.

Import Pipeline.

Variables (c : Closure) (i : Input).

(** As [withLandmarks_reaches_heuristic], for a set that need not be a full
    pose. *)
Lemma withLandmarks_to_heuristic (landmarks sm : Landmarks)
  (s11 s12 s23 s24 l23 l24 : NormalizedLandmark) (fr : Frame) :
  Smoother.adaptiveSmoothLandmarks landmarks (prevLandmarksRef (state fr))
    = Normal sm ->
  nth_error sm 11 = Some s11 -> nth_error sm 12 = Some s12 ->
  nth_error sm 23 = Some s23 -> nth_error sm 24 = Some s24 ->
  nth_error landmarks 23 = Some l23 -> nth_error landmarks 24 = Some l24 ->
  exists F,
    withLandmarks c i (Some landmarks) fr = updateHeuristic c i landmarks F /\
    state F
    = set_stabilityScoreRef
        (stabilityScoreRef (state fr) * 0.9
         + hypot ((x l23 + x l24) / 2 - (x s23 + x s24) / 2)
                 ((y l23 + y l24) / 2 - (y s23 + y s24) / 2) * 0.1)
        (set_prevLandmarksRef (Some sm) (state fr)) /\
    analyzerCalls F = analyzerCalls fr.
Proof.
  intros Hsm S11 S12 S23 S24 L23 L24.
  eexists. split.
  - unfold withLandmarks. cbv zeta.
    rewrite (mbind_Normal _ _ _ _ _ (paintMask_runs i fr)).
    erewrite mbind_Normal;
      [| apply (trackLandmarks_runs c i landmarks sm s11 s12 s23 s24);
         [exact Hsm | assumption..] ].
    unfold mbind at 1, paint at 1.
    erewrite mbind_Normal;
      [| apply (updateStability_runs landmarks sm l23 l24 s23 s24);
         [reflexivity | assumption..] ].
    reflexivity.
  - split; reflexivity.
Qed.

(** The call is made and throws before lines 602-603 are reached. *)
Lemma updateHeuristic_throws (landmarks : Landmarks) (F : Frame) :
  isActive c = true ->
  (heuristicNow i - lastHeuristicUpdateRef (state F) > 500)%Z ->
  Analyzer.analyzePose landmarks (workoutType c) (stabilityScoreRef (state F))
    = Throw ->
  updateHeuristic c i landmarks F
  = (Throw,
     mkFrame (state F) (currentQuality F) (currentScore F) (canvas F)
       (analyzerCalls F
        ++ [mkCall landmarks (workoutType c) (stabilityScoreRef (state F))])).
Proof.
  intros Ha Hdue Hthrow.
  unfold updateHeuristic, mbind, getState. rewrite Ha.
  replace (heuristicNow i - lastHeuristicUpdateRef (state F) >? 500)%Z
    with true by (symmetry; rewrite Z.gtb_ltb; apply Z.ltb_lt; lia).
  cbn [andb]. unfold callAnalyzePose. rewrite Hthrow. reflexivity.
Qed.

Lemma detectPose_analyzer_throws (s : State) (landmarks sm : Landmarks)
  (s11 s12 s23 s24 l23 l24 : NormalizedLandmark) :
  ready i = true -> zeroDims (dims i) = false ->
  frameLandmarks i s = Some landmarks ->
  Smoother.adaptiveSmoothLandmarks landmarks (prevLandmarksRef s)
    = Normal sm ->
  nth_error sm 11 = Some s11 -> nth_error sm 12 = Some s12 ->
  nth_error sm 23 = Some s23 -> nth_error sm 24 = Some s24 ->
  nth_error landmarks 23 = Some l23 -> nth_error landmarks 24 = Some l24 ->
  isActive c = true ->
  (heuristicNow i - lastHeuristicUpdateRef s > 500)%Z ->
  (forall st, Analyzer.analyzePose landmarks (workoutType c) st = Throw) ->
  List.length (analyzerCalls (detectPose c i s)) = 1%nat /\
  lastHeuristicUpdateRef (state (detectPose c i s))
  = lastHeuristicUpdateRef s /\
  heuristicFeedback (state (detectPose c i s)) = heuristicFeedback s /\
  prevLandmarksRef (state (detectPose c i s)) = Some sm.
Proof.
  intros Hr Hz Hl Hsm S11 S12 S23 S24 L23 L24 Ha Hdue Hthrow.
  rewrite (detectPose_unfold c i s Hr Hz), Hl.
  destruct (persistedState_keeps i s) as [Hp Hst].
  set (fr0 := mkFrame (persistedState i s) LOST 0 [ClearRect] []).
  assert (Hsm0 : Smoother.adaptiveSmoothLandmarks landmarks
                   (prevLandmarksRef (state fr0)) = Normal sm)
    by (subst fr0; cbn [state]; rewrite Hp; exact Hsm).
  destruct (withLandmarks_to_heuristic landmarks sm s11 s12 s23 s24 l23 l24
              fr0 Hsm0 S11 S12 S23 S24 L23 L24) as (F & -> & HF & HFc).
  assert (HlastF : lastHeuristicUpdateRef (state F)
                   = lastHeuristicUpdateRef s).
  { rewrite HF. subst fr0. cbn [state]. unfold persistedState.
    destruct (segmentationMask i), (detected i); reflexivity. }
  assert (HfbF : heuristicFeedback (state F) = heuristicFeedback s).
  { rewrite HF. subst fr0. cbn [state]. unfold persistedState.
    destruct (segmentationMask i), (detected i); reflexivity. }
  rewrite (updateHeuristic_throws landmarks F Ha)
    by (rewrite ?HlastF; trivial).
  cbn [snd].
  match goal with
  | |- context [publish c i ?f] =>
      destruct (publish_keeps c i f) as (_ & _ & _ & E4 & _);
      destruct (publish_state_untouched c i f) as (U1 & U2 & _ & U4)
  end.
  rewrite E4, U1, U2, U4. cbn [state analyzerCalls].
  rewrite HFc, HlastF, HfbF, HF. subst fr0.
  cbn [analyzerCalls app List.length]. repeat split.
Qed.

End AnalyzerThrows.

Lemma kneelessPose_throws (st : R) :
  Analyzer.analyzePose kneelessPose SQUAT st = Throw.
Proof.
  rewrite (analyzePose_unfold kneelessPose SQUAT st
             (armsDownPose 11) (armsDownPose 12) (armsDownPose 23)
             (armsDownPose 24) eq_refl eq_refl eq_refl eq_refl).
  cbv zeta. rewrite Rltb_false by (cbv [armsDownPose]; solve_abs).
  reflexivity.
Qed.

(** C8: the code departs from the claim when the analyzer throws.  With
    the session active, a squat and a pose that stops after the right hip,
    [analyzePose] is called on the frame at 1000 ms, throws at the read of
    the knees (line 209) before line 603 has stored the time of the
    evaluation, and is called again on the very next frame, 33 ms later: two
    evaluations within one window of 500 ms, where the claim has at most
    one. *)
Theorem analyzer_throw_defeats_the_rate_limit :
  List.length kneelessPose = 25%nat /\
  nth_error kneelessPose 25 = None /\
  (forall st, Analyzer.analyzePose kneelessPose SQUAT st = Throw) /\
  let fr1 := Pipeline.detectPose activeClosure
               (frameAt 1000 (Some kneelessPose)) Pipeline.initialState in
  let fr2 := Pipeline.detectPose activeClosure
               (frameAt 1033 (Some kneelessPose)) (Pipeline.state fr1) in
  List.length (Pipeline.analyzerCalls fr1) = 1%nat /\
  Pipeline.lastHeuristicUpdateRef (Pipeline.state fr1)
  = Pipeline.lastHeuristicUpdateRef Pipeline.initialState /\
  List.length (Pipeline.analyzerCalls fr2) = 1%nat /\
  evaluationTimes
    [ (activeClosure, frameAt 1000 (Some kneelessPose));
      (activeClosure, frameAt 1033 (Some kneelessPose)) ]
    Pipeline.initialState
  = [1000; 1033]%Z.
Proof.
  split; [reflexivity|]. split; [reflexivity|].
  split; [exact kneelessPose_throws|]. cbv zeta.
  destruct (detectPose_analyzer_throws activeClosure
              (frameAt 1000 (Some kneelessPose)) Pipeline.initialState
              kneelessPose kneelessPose
              (armsDownPose 11) (armsDownPose 12) (armsDownPose 23)
              (armsDownPose 24) (armsDownPose 23) (armsDownPose 24)
              eq_refl sampleDims_nonzero eq_refl eq_refl
              eq_refl eq_refl eq_refl eq_refl eq_refl eq_refl eq_refl)
    as (C1 & T1 & _ & P1); [cbn; lia | exact kneelessPose_throws |].
  set (s1 := Pipeline.state
               (Pipeline.detectPose activeClosure
                  (frameAt 1000 (Some kneelessPose)) Pipeline.initialState))
    in *.
  assert (Hsm : Smoother.adaptiveSmoothLandmarks kneelessPose
                  (Pipeline.prevLandmarksRef s1) = Normal kneelessPose)
    by (rewrite P1; apply adaptiveSmoothLandmarks_fixed).
  destruct (detectPose_analyzer_throws activeClosure
              (frameAt 1033 (Some kneelessPose)) s1
              kneelessPose kneelessPose
              (armsDownPose 11) (armsDownPose 12) (armsDownPose 23)
              (armsDownPose 24) (armsDownPose 23) (armsDownPose 24)
              eq_refl sampleDims_nonzero eq_refl Hsm
              eq_refl eq_refl eq_refl eq_refl eq_refl eq_refl eq_refl)
    as (C2 & _); [rewrite T1; cbn; lia | exact kneelessPose_throws |].
  split; [exact C1|]. split; [exact T1|]. split; [exact C2|].
  cbn [evaluationTimes]. cbv zeta. fold s1.
  destruct (Pipeline.analyzerCalls
              (Pipeline.detectPose activeClosure
                 (frameAt 1000 (Some kneelessPose)) Pipeline.initialState));
    [discriminate C1|].
  destruct (Pipeline.analyzerCalls
              (Pipeline.detectPose activeClosure
                 (frameAt 1033 (Some kneelessPose)) s1));
    [discriminate C2|].
  reflexivity.
Qed.
